(** * nuview Table: cell store, offsets, selection and navigation

    A shallow embedding of the Table widget of nuview (the revision that
    draws through a clipping screen writer) and of its default content
    store, with the properties of the layout, scrolling and selection
    engine stated over it.

    Conventions of the embedding.
    - Go's [int] is the 64-bit two's complement integer.  Values are
      carried as [Z]; every addition and subtraction of the source goes
      through [GoInt.wrap].
    - A [*TableCell] is an [option TableCell]; [None] is the nil pointer.
      A row [[]*TableCell] is a list, and the nil slice is the empty list.
      The store holds, at every position, the value its pointer points
      to; an operation that writes through a pointer is told which
      positions share that pointer and rewrites the value at each.
    - Whether the run time can allocate a slice is an input of the
      operations that allocate.
    - A method that mutates its receiver returns the new receiver.  A
      run-time panic of a mutator is the [Panicked] outcome and carries the
      receiver as the panic found it.  Read-only helpers that can fail on a
      slice bound return [option].
    - The mutexes of the source are not modelled: every method body runs
      under the exclusive lock and is treated as one sequential step.
    - An unbounded [for] loop takes a step budget and returns [None] when it
      runs out; the theorems exhibit a budget that suffices. *)

From Stdlib Require Import ZArith Lia Bool String Setoid Morphisms.
From stdpp Require Import base list.

Local Open Scope Z_scope.

(** ** Machine integers *)

Module GoInt.

Definition min_int : Z := - 2 ^ 63.
Definition max_int : Z := 2 ^ 63 - 1.

(** Two's complement reduction of a mathematical integer to [int]. *)
Definition wrap (z : Z) : Z := (z + 2 ^ 63) mod 2 ^ 64 - 2 ^ 63.

Definition add (a b : Z) : Z := wrap (a + b).
Definition sub (a b : Z) : Z := wrap (a - b).

Definition in_range (z : Z) : Prop := min_int <= z <= max_int.

End GoInt.

Infix "+i" := GoInt.add (at level 50, left associativity).
Infix "-i" := GoInt.sub (at level 50, left associativity).

(** [len] of a slice, as an [int]. *)
Definition len {A} (l : list A) : Z := Z.of_nat (length l).

(** ** Outcomes of mutators *)

Inductive outcome (S : Type) : Type :=
| Returned (s : S)
| Panicked (s : S).
Arguments Returned {S} s.
Arguments Panicked {S} s.

Definition state_of {S} (o : outcome S) : S :=
  match o with Returned s | Panicked s => s end.

Definition returns {S} (o : outcome S) : bool :=
  match o with Returned _ => true | Panicked _ => false end.

(** ** Slice primitives *)

(** The offset of the slice expression [l[lo:]]; [None] is the
    "slice bounds out of range" panic. *)
Definition slice_from {A} (l : list A) (lo : Z) : option nat :=
  if (0 <=? lo) && (lo <=? len l) then Some (Z.to_nat lo) else None.

(** The slice expression [l[lo:hi]] of a slice whose capacity is its
    length. *)
Definition slice {A} (l : list A) (lo hi : Z) : option (list A) :=
  if (0 <=? lo) && (lo <=? hi) && (hi <=? len l)
  then Some (take (Z.to_nat (hi - lo)) (drop (Z.to_nat lo) l))
  else None.

(** The index expression [l[i]]. *)
Definition index {A} (l : list A) (i : Z) : option A :=
  if (0 <=? i) && (i <? len l) then l !! Z.to_nat i else None.

(** [copy(l[d:], l[s:])] on one backing array: [min] of the two lengths
    elements move, with the semantics of a memmove. *)
Definition copy_within {A} (l : list A) (d s : nat) : list A :=
  let n := Nat.min (length l - d) (length l - s) in
  take d l ++ take n (drop s l) ++ drop (d + n) l.

(** Whether the run time finds the memory for a slice is not a property
    of the program.  The operations that allocate take [allocates]:
    [allocates size n] tells whether the run time provides a slice of
    [n] elements of [size] bytes, when [make] asks for one or [append]
    grows a slice to that length. *)
Definition pointerBytes : Z := 8.
Definition sliceBytes : Z := 24.

(** [make([]T, n)] with the zero value [zero], for elements of [size]
    bytes; [None] is the "makeslice: len out of range" panic of a negative
    length and of a length too large to allocate. *)
Definition make {A} (allocates : Z -> Z -> bool) (size n : Z) (zero : A)
  : option (list A) :=
  if (n <? 0) || negb (allocates size n) then None
  else Some (replicate (Z.to_nat n) zero).

(** [append(l, more...)] of a slice whose capacity is its length; [None]
    is the "growslice: len out of range" panic of a result too large to
    allocate. *)
Definition append {A} (allocates : Z -> Z -> bool) (size : Z)
  (l more : list A) : option (list A) :=
  if allocates size (len l + len more) then Some (l ++ more) else None.

(** The assignment [l[i] = x]; [None] is the "index out of range"
    panic. *)
Definition store {A} (l : list A) (i : Z) (x : A) : option (list A) :=
  if (0 <=? i) && (i <? len l) then Some (<[Z.to_nat i := x]> l) else None.

(** ** Table cells *)

Record TableCell : Type := mkTableCell {
  Text : string;
  Align : Z;
  MaxWidth : Z;
  Expansion : Z;
  Transparent : bool;
  NotSelectable : bool;
  (** The effective width, kept by [updateWidth]. *)
  width : Z
}.

(** The zero value [TableCell{}]. *)
Definition emptyCell : TableCell :=
  {| Text := ""; Align := 0; MaxWidth := 0; Expansion := 0;
     Transparent := false; NotSelectable := false; width := 0 |}.

(** Cells are compared field by field. *)
#[global] Instance TableCell_eq_dec : EqDecision TableCell :=
  ltac:(intros x y; unfold Decision; decide equality;
        first [apply Z.eq_dec | apply Bool.bool_dec
              | apply String.string_dec]).

Definition set_Expansion (e : Z) (c : TableCell) : TableCell :=
  {| Text := Text c; Align := Align c; MaxWidth := MaxWidth c;
     Expansion := e; Transparent := Transparent c;
     NotSelectable := NotSelectable c; width := width c |}.

(** [func (c *TableCell) SetExpansion(expansion int)] *)
Definition SetExpansion (c : TableCell) (expansion : Z) : outcome TableCell :=
  if expansion <? 0 then Panicked c
  else Returned (set_Expansion expansion c).

(** [func (c *TableCell) SetSelectable(selectable bool)] *)
Definition SetSelectable (c : TableCell) (selectable : bool) : TableCell :=
  {| Text := Text c; Align := Align c; MaxWidth := MaxWidth c;
     Expansion := Expansion c; Transparent := Transparent c;
     NotSelectable := negb selectable; width := width c |}.

Definition set_Text (s : string) (c : TableCell) : TableCell :=
  {| Text := s; Align := Align c; MaxWidth := MaxWidth c;
     Expansion := Expansion c; Transparent := Transparent c;
     NotSelectable := NotSelectable c; width := width c |}.

Definition set_Align (a : Z) (c : TableCell) : TableCell :=
  {| Text := Text c; Align := a; MaxWidth := MaxWidth c;
     Expansion := Expansion c; Transparent := Transparent c;
     NotSelectable := NotSelectable c; width := width c |}.

Definition set_MaxWidth (m : Z) (c : TableCell) : TableCell :=
  {| Text := Text c; Align := Align c; MaxWidth := m;
     Expansion := Expansion c; Transparent := Transparent c;
     NotSelectable := NotSelectable c; width := width c |}.

Definition set_width (w : Z) (c : TableCell) : TableCell :=
  {| Text := Text c; Align := Align c; MaxWidth := MaxWidth c;
     Expansion := Expansion c; Transparent := Transparent c;
     NotSelectable := NotSelectable c; width := w |}.

(** The screen width of a tagged text, [TaggedStringWidth], is a function
    of the package outside the table; the cell operations that measure a
    text take it as a parameter. *)
Section TextWidth.

Variable TaggedStringWidth : string -> Z.

(** [func (c *TableCell) updateWidth()] *)
Definition updateWidth (c : TableCell) : TableCell :=
  let textWidth := TaggedStringWidth (Text c) in
  if (MaxWidth c >? 0) && (textWidth >? MaxWidth c)
  then set_width (MaxWidth c) c
  else set_width textWidth c.

(** [func (c *TableCell) SetText(text string)] *)
Definition SetText (c : TableCell) (text : string) : TableCell :=
  updateWidth (set_Text text c).

(** [func (c *TableCell) SetMaxWidth(maxWidth int)] *)
Definition SetMaxWidth (c : TableCell) (maxWidth : Z) : TableCell :=
  updateWidth (set_MaxWidth maxWidth c).

End TextWidth.

(** [func (c *TableCell) SetAlign(align int)] *)
Definition SetAlign (c : TableCell) (align : Z) : TableCell :=
  set_Align align c.

(** ** The default content store *)

(** A row of the store, [[]*TableCell]. *)
Abbreviation Row := (list (option TableCell)).

Record tableDefaultContent : Type := mkContent {
  (** The cells of the table. Rows first, then columns. *)
  cells : list Row;
  (** The rightmost column in the data set. *)
  lastColumn : Z
}.

Module Content.

(** The content of [NewTable]. *)
Definition new : tableDefaultContent := {| cells := []; lastColumn := -1 |}.

(** [func (t *tableDefaultContent) Clear()] *)
Definition Clear (t : tableDefaultContent) : tableDefaultContent :=
  {| cells := []; lastColumn := -1 |}.

(** The rows of [t.cells] after the first statement of [SetCell]: the
    slice grown to hold [row]. *)
Definition growRows (allocates : Z -> Z -> bool) (rows : list Row) (row : Z)
  : option (list Row) :=
  if row >=? len rows then
    more ← make allocates sliceBytes (row -i len rows +i 1) [];
    append allocates sliceBytes rows more
  else Some rows.

(** The row of [SetCell] grown to hold [column]: [column - rowLen + 1]
    nil pointers are appended and all but the last are replaced by
    [&TableCell{}]; the indices of the loop lie below the new length. *)
Definition growRow (allocates : Z -> Z -> bool) (r : Row) (column : Z)
  : option Row :=
  let rowLen := len r in
  if column >=? rowLen then
    more ← make allocates pointerBytes (column -i rowLen +i 1) None;
    r1 ← append allocates pointerBytes r more;
    Some (foldl (fun r c => <[Z.to_nat c := Some emptyCell]> r) r1
            (seqZ rowLen (column - rowLen)))
  else Some r.

(** The store holds pointers, and a write through a pointer is seen at
    every position that holds it.  A [*TableCell] argument is given as
    the value it points to, together with [shared], which tells the
    positions of the store that hold this same pointer already.  After a
    write that turns the value [old] into [new], those of them that held
    [old] hold [new]. *)
Definition seenIn (sharing : bool) (old new : TableCell)
  (x : option TableCell) : option TableCell :=
  if sharing && bool_decide (x = Some old) then Some new else x.

Definition seenThrough (shared : nat -> nat -> bool) (old new : TableCell)
  (rows : list Row) : list Row :=
  imap (fun r => imap (fun k => seenIn (shared r k) old new)) rows.

(** [func (t *tableDefaultContent) SetCell(row, column int,
    cell *TableCell)]; the pointer is stored before the width is updated
    through it, at every position that holds it, and a nil [cell] panics
    in [updateWidth]. *)
Definition SetCell (TaggedStringWidth : string -> Z)
  (allocates : Z -> Z -> bool)
  (t : tableDefaultContent) (row column : Z) (cell : option TableCell)
  (shared : nat -> nat -> bool)
  : outcome tableDefaultContent :=
  match growRows allocates (cells t) row with
  | None => Panicked t
  | Some cells1 =>
      let t1 := {| cells := cells1; lastColumn := lastColumn t |} in
      match index cells1 row with
      | None => Panicked t1
      | Some r =>
          match growRow allocates r column with
          | None => Panicked t1
          | Some r1 =>
              let t2 := {| cells := <[Z.to_nat row := r1]> cells1;
                           lastColumn := lastColumn t |} in
              match store r1 column cell with
              | None => Panicked t2
              | Some r2 =>
                  let t3 := {| cells := <[Z.to_nat row := r2]> cells1;
                               lastColumn := lastColumn t |} in
                  match cell with
                  | None => Panicked t3
                  | Some c =>
                      let updated := updateWidth TaggedStringWidth c in
                      let r3 := <[Z.to_nat column := Some updated]> r2 in
                      Returned
                        {| cells := seenThrough shared c updated
                                      (<[Z.to_nat row := r3]> cells1);
                           lastColumn :=
                             if column >? lastColumn t then column
                             else lastColumn t |}
                  end
              end
          end
      end
  end.

(** [func (t *tableDefaultContent) RemoveRow(row int)] *)
Definition RemoveRow (t : tableDefaultContent) (row : Z)
  : outcome tableDefaultContent :=
  if (row <? 0) || (row >=? len (cells t)) then Returned t
  else
    Returned {| cells := take (Z.to_nat row) (cells t)
                         ++ drop (Z.to_nat (row +i 1)) (cells t);
                lastColumn := lastColumn t |}.

(** The body of the loop of [RemoveColumn] for one row. *)
Definition removeColumnOfRow (column : Z) (r : Row) : Row :=
  if (column <? 0) || (column >=? len r) then r
  else take (Z.to_nat column) r ++ drop (Z.to_nat (column +i 1)) r.

(** [func (t *tableDefaultContent) RemoveColumn(column int)] *)
Definition RemoveColumn (t : tableDefaultContent) (column : Z)
  : outcome tableDefaultContent :=
  let cells' := map (removeColumnOfRow column) (cells t) in
  if (column >=? 0) && (column <=? lastColumn t)
  then Returned {| cells := cells'; lastColumn := lastColumn t -i 1 |}
  else Returned {| cells := cells'; lastColumn := lastColumn t |}.

(** [func (t *tableDefaultContent) InsertRow(row int)] *)
Definition InsertRow (t : tableDefaultContent) (row : Z)
  : outcome tableDefaultContent :=
  if row >=? len (cells t) then Returned t
  else
    (* Extend by one. *)
    let cells1 := cells t ++ [[]] in
    (* Shift down: copy(t.cells[row+1:], t.cells[row:]). *)
    match slice_from cells1 (row +i 1), slice_from cells1 row with
    | Some d, Some s =>
        (* New row is uninitialized. *)
        Returned {| cells := <[Z.to_nat row := []]> (copy_within cells1 d s);
                    lastColumn := lastColumn t |}
    | _, _ => Panicked {| cells := cells1; lastColumn := lastColumn t |}
    end.

(** The body of the loop of [InsertColumn] for one row. *)
Definition insertColumnOfRow (column : Z) (r : Row) : outcome Row :=
  if column >=? len r then Returned r
  else
    let r1 := r ++ [None] in
    match slice_from r1 (column +i 1), slice_from r1 column with
    | Some d, Some s =>
        Returned (<[Z.to_nat column := Some emptyCell]> (copy_within r1 d s))
    | _, _ => Panicked r1
    end.

(** The loop [for row := range t.cells] of [InsertColumn]: a panic in
    one row leaves the rows after it untouched. *)
Fixpoint insertColumnRows (column : Z) (rows : list Row)
  : outcome (list Row) :=
  match rows with
  | [] => Returned []
  | r :: rest =>
      match insertColumnOfRow column r with
      | Panicked r' => Panicked (r' :: rest)
      | Returned r' =>
          match insertColumnRows column rest with
          | Returned rest' => Returned (r' :: rest')
          | Panicked rest' => Panicked (r' :: rest')
          end
      end
  end.

(** [func (t *tableDefaultContent) InsertColumn(column int)] *)
Definition InsertColumn (t : tableDefaultContent) (column : Z)
  : outcome tableDefaultContent :=
  match insertColumnRows column (cells t) with
  | Returned cs => Returned {| cells := cs; lastColumn := lastColumn t |}
  | Panicked cs => Panicked {| cells := cs; lastColumn := lastColumn t |}
  end.

(** [func (t *tableDefaultContent) GetCell(row, column int) *TableCell] *)
Definition GetCell (t : tableDefaultContent) (row column : Z)
  : option TableCell :=
  if (row <? 0) || (column <? 0) || (row >=? len (cells t)) then None
  else
    match cells t !! Z.to_nat row with
    | None => None
    | Some r => if column >=? len r then None
                else mjoin (r !! Z.to_nat column)
    end.

(** [func (t *tableDefaultContent) GetRowCount() int] *)
Definition GetRowCount (t : tableDefaultContent) : Z := len (cells t).

(** [func (t *tableDefaultContent) GetColumnCount() int] *)
Definition GetColumnCount (t : tableDefaultContent) : Z :=
  if len (cells t) =? 0 then 0 else lastColumn t +i 1.

End Content.


(** ** The table *)

(** Modelled from the spec: the base widget capability "current inner
    rectangle (post-border) (x,y,w,h)" of the embedded [Box], whose source
    is not part of the table. *)
Record Box : Type := mkBox {
  innerX : Z;
  innerY : Z;
  innerWidth : Z;
  innerHeight : Z
}.

Record Table : Type := mkTable {
  box : Box;
  (** Whether or not this table has borders around each cell. *)
  borders : bool;
  (** The table's data structure. *)
  content : tableDefaultContent;
  (** The number of fixed rows / columns. *)
  fixedRows : Z;
  fixedColumns : Z;
  (** Whether or not rows or columns can be selected. *)
  rowsSelectable : bool;
  columnsSelectable : bool;
  (** The currently selected row and column. *)
  selectedRow : Z;
  selectedColumn : Z;
  (** Causes the next Draw to force the selection to remain visible. *)
  clampToSelection : bool;
  wrapHorizontally : bool;
  wrapVertically : bool;
  (** The number of rows/columns by which the table is scrolled. *)
  rowOffset : Z;
  (** -1 means that xScroll is being used. *)
  columnOffset : Z;
  xScroll : Z;
  (** If set to true, the table's last row will always be visible. *)
  trackEnd : bool;
  (** The number of visible rows the last time the table was drawn. *)
  visibleRows : Z
}.

Definition set_content (v : tableDefaultContent) (t : Table) : Table :=
  mkTable (box t) (borders t) v (fixedRows t) (fixedColumns t)
    (rowsSelectable t) (columnsSelectable t) (selectedRow t)
    (selectedColumn t) (clampToSelection t) (wrapHorizontally t)
    (wrapVertically t) (rowOffset t) (columnOffset t) (xScroll t)
    (trackEnd t) (visibleRows t).

Definition set_fixedRows (v : Z) (t : Table) : Table :=
  mkTable (box t) (borders t) (content t) v (fixedColumns t)
    (rowsSelectable t) (columnsSelectable t) (selectedRow t)
    (selectedColumn t) (clampToSelection t) (wrapHorizontally t)
    (wrapVertically t) (rowOffset t) (columnOffset t) (xScroll t)
    (trackEnd t) (visibleRows t).

Definition set_fixedColumns (v : Z) (t : Table) : Table :=
  mkTable (box t) (borders t) (content t) (fixedRows t) v
    (rowsSelectable t) (columnsSelectable t) (selectedRow t)
    (selectedColumn t) (clampToSelection t) (wrapHorizontally t)
    (wrapVertically t) (rowOffset t) (columnOffset t) (xScroll t)
    (trackEnd t) (visibleRows t).

Definition set_rowsSelectable (v : bool) (t : Table) : Table :=
  mkTable (box t) (borders t) (content t) (fixedRows t) (fixedColumns t)
    v (columnsSelectable t) (selectedRow t)
    (selectedColumn t) (clampToSelection t) (wrapHorizontally t)
    (wrapVertically t) (rowOffset t) (columnOffset t) (xScroll t)
    (trackEnd t) (visibleRows t).

Definition set_columnsSelectable (v : bool) (t : Table) : Table :=
  mkTable (box t) (borders t) (content t) (fixedRows t) (fixedColumns t)
    (rowsSelectable t) v (selectedRow t)
    (selectedColumn t) (clampToSelection t) (wrapHorizontally t)
    (wrapVertically t) (rowOffset t) (columnOffset t) (xScroll t)
    (trackEnd t) (visibleRows t).

Definition set_selectedRow (v : Z) (t : Table) : Table :=
  mkTable (box t) (borders t) (content t) (fixedRows t) (fixedColumns t)
    (rowsSelectable t) (columnsSelectable t) v
    (selectedColumn t) (clampToSelection t) (wrapHorizontally t)
    (wrapVertically t) (rowOffset t) (columnOffset t) (xScroll t)
    (trackEnd t) (visibleRows t).

Definition set_selectedColumn (v : Z) (t : Table) : Table :=
  mkTable (box t) (borders t) (content t) (fixedRows t) (fixedColumns t)
    (rowsSelectable t) (columnsSelectable t) (selectedRow t)
    v (clampToSelection t) (wrapHorizontally t)
    (wrapVertically t) (rowOffset t) (columnOffset t) (xScroll t)
    (trackEnd t) (visibleRows t).

Definition set_clampToSelection (v : bool) (t : Table) : Table :=
  mkTable (box t) (borders t) (content t) (fixedRows t) (fixedColumns t)
    (rowsSelectable t) (columnsSelectable t) (selectedRow t)
    (selectedColumn t) v (wrapHorizontally t)
    (wrapVertically t) (rowOffset t) (columnOffset t) (xScroll t)
    (trackEnd t) (visibleRows t).

Definition set_wrapHorizontally (v : bool) (t : Table) : Table :=
  mkTable (box t) (borders t) (content t) (fixedRows t) (fixedColumns t)
    (rowsSelectable t) (columnsSelectable t) (selectedRow t)
    (selectedColumn t) (clampToSelection t) v
    (wrapVertically t) (rowOffset t) (columnOffset t) (xScroll t)
    (trackEnd t) (visibleRows t).

Definition set_wrapVertically (v : bool) (t : Table) : Table :=
  mkTable (box t) (borders t) (content t) (fixedRows t) (fixedColumns t)
    (rowsSelectable t) (columnsSelectable t) (selectedRow t)
    (selectedColumn t) (clampToSelection t) (wrapHorizontally t)
    v (rowOffset t) (columnOffset t) (xScroll t)
    (trackEnd t) (visibleRows t).

Definition set_rowOffset (v : Z) (t : Table) : Table :=
  mkTable (box t) (borders t) (content t) (fixedRows t) (fixedColumns t)
    (rowsSelectable t) (columnsSelectable t) (selectedRow t)
    (selectedColumn t) (clampToSelection t) (wrapHorizontally t)
    (wrapVertically t) v (columnOffset t) (xScroll t)
    (trackEnd t) (visibleRows t).

Definition set_columnOffset (v : Z) (t : Table) : Table :=
  mkTable (box t) (borders t) (content t) (fixedRows t) (fixedColumns t)
    (rowsSelectable t) (columnsSelectable t) (selectedRow t)
    (selectedColumn t) (clampToSelection t) (wrapHorizontally t)
    (wrapVertically t) (rowOffset t) v (xScroll t)
    (trackEnd t) (visibleRows t).

Definition set_xScroll (v : Z) (t : Table) : Table :=
  mkTable (box t) (borders t) (content t) (fixedRows t) (fixedColumns t)
    (rowsSelectable t) (columnsSelectable t) (selectedRow t)
    (selectedColumn t) (clampToSelection t) (wrapHorizontally t)
    (wrapVertically t) (rowOffset t) (columnOffset t) v
    (trackEnd t) (visibleRows t).

Definition set_trackEnd (v : bool) (t : Table) : Table :=
  mkTable (box t) (borders t) (content t) (fixedRows t) (fixedColumns t)
    (rowsSelectable t) (columnsSelectable t) (selectedRow t)
    (selectedColumn t) (clampToSelection t) (wrapHorizontally t)
    (wrapVertically t) (rowOffset t) (columnOffset t) (xScroll t)
    v (visibleRows t).

Definition set_visibleRows (v : Z) (t : Table) : Table :=
  mkTable (box t) (borders t) (content t) (fixedRows t) (fixedColumns t)
    (rowsSelectable t) (columnsSelectable t) (selectedRow t)
    (selectedColumn t) (clampToSelection t) (wrapHorizontally t)
    (wrapVertically t) (rowOffset t) (columnOffset t) (xScroll t)
    (trackEnd t) v.

Definition set_borders (v : bool) (t : Table) : Table :=
  mkTable (box t) v (content t) (fixedRows t) (fixedColumns t)
    (rowsSelectable t) (columnsSelectable t) (selectedRow t)
    (selectedColumn t) (clampToSelection t) (wrapHorizontally t)
    (wrapVertically t) (rowOffset t) (columnOffset t) (xScroll t)
    (trackEnd t) (visibleRows t).

(** [func NewTable() *Table], drawn into the given rectangle. *)
Definition NewTable (b : Box) : Table :=
  mkTable b false Content.new 0 0 false false 0 0 false false false
    0 0 0 false 0.

(** [func (t *Table) SetBorders(show bool)] *)
Definition SetBorders (t : Table) (show : bool) : Table := set_borders show t.

(** [func (t *Table) SetFixed(rows int, columns int)] *)
Definition SetFixed (t : Table) (rows columns : Z) : Table :=
  set_columnOffset 0 (set_fixedColumns columns (set_fixedRows rows t)).

(** [func (t *Table) SetSelectable(rows bool, columns bool)] *)
Definition SetTableSelectable (t : Table) (rows columns : bool) : Table :=
  set_columnsSelectable columns (set_rowsSelectable rows t).

(** [func (t *Table) GetSelection() (row int, column int)] *)
Definition GetSelection (t : Table) : Z * Z :=
  (selectedRow t, selectedColumn t).

(** [func (t *Table) Select(row int, column int)]; the "selection
    changed" callback is outside the model. *)
Definition Select (t : Table) (row column : Z) : Table :=
  set_clampToSelection true
    (set_selectedColumn column (set_selectedRow row t)).

(** [func (t *Table) SetOffset(row int, column int)] *)
Definition SetOffset (t : Table) (row column : Z) : Table :=
  set_trackEnd false (set_columnOffset column (set_rowOffset row t)).

(** [func (t *Table) GetOffset() (row int, column int)] *)
Definition GetOffset (t : Table) : Z * Z := (rowOffset t, columnOffset t).

(** [func (t *Table) SetXScroll(x int)] *)
Definition SetXScroll (t : Table) (x : Z) : Table :=
  set_trackEnd false
    (set_columnOffset (-1) (* This indicates that xScroll is being used. *)
       (set_xScroll x t)).

(** [func (t *Table) GetXScroll() int] *)
Definition GetXScroll (t : Table) : Z := xScroll t.

(** [func (t *Table) SetWrapSelection(vertical, horizontal bool)] *)
Definition SetWrapSelection (t : Table) (vertical horizontal : bool) : Table :=
  set_wrapVertically vertical (set_wrapHorizontally horizontal t).

(** [func (t *Table) GetInnerRect()], from the embedded [Box]. *)
Definition GetInnerRect (t : Table) : Z * Z * Z * Z :=
  (innerX (box t), innerY (box t), innerWidth (box t), innerHeight (box t)).

(** The test [cell != nil && !cell.NotSelectable] of the selection scans. *)
Definition selectableAt (c : tableDefaultContent) (row column : Z) : bool :=
  match Content.GetCell c row column with
  | Some cell => negb (NotSelectable cell)
  | None => false
  end.

(** ** The table's view of its content *)

(** [func (t *Table) Clear()] *)
Definition Clear (t : Table) : Table :=
  set_content (Content.Clear (content t)) t.

(** A mutator of the content run on [t.content]; a panic leaves the
    table with the content as the panic found it. *)
Definition onContent
  (f : tableDefaultContent -> outcome tableDefaultContent) (t : Table)
  : outcome Table :=
  match f (content t) with
  | Returned c => Returned (set_content c t)
  | Panicked c => Panicked (set_content c t)
  end.

(** [func (t *Table) SetCell(row int, column int, cell *TableCell)] *)
Definition SetCell (TaggedStringWidth : string -> Z)
  (allocates : Z -> Z -> bool) (t : Table)
  (row column : Z) (cell : option TableCell) (shared : nat -> nat -> bool)
  : outcome Table :=
  onContent (fun c => Content.SetCell TaggedStringWidth allocates c
                        row column cell shared) t.

(** [func (t *Table) GetCell(row int, column int) *TableCell]: a valid
    cell is always returned, uninitialized if the cell was not set. *)
Definition GetCell (t : Table) (row column : Z) : TableCell :=
  match Content.GetCell (content t) row column with
  | Some cell => cell
  | None => emptyCell
  end.

(** [func (t *Table) RemoveRow(row int)] *)
Definition RemoveRow (t : Table) (row : Z) : outcome Table :=
  onContent (fun c => Content.RemoveRow c row) t.

(** [func (t *Table) RemoveColumn(column int)] *)
Definition RemoveColumn (t : Table) (column : Z) : outcome Table :=
  onContent (fun c => Content.RemoveColumn c column) t.

(** [func (t *Table) InsertRow(row int)] *)
Definition InsertRow (t : Table) (row : Z) : outcome Table :=
  onContent (fun c => Content.InsertRow c row) t.

(** [func (t *Table) InsertColumn(column int)] *)
Definition InsertColumn (t : Table) (column : Z) : outcome Table :=
  onContent (fun c => Content.InsertColumn c column) t.

(** [func (t *Table) GetRowCount() int] *)
Definition GetRowCount (t : Table) : Z := Content.GetRowCount (content t).

(** [func (t *Table) GetColumnCount() int] *)
Definition GetColumnCount (t : Table) : Z :=
  Content.GetColumnCount (content t).

(** [func (t *Table) ScrollToBeginning()] *)
Definition ScrollToBeginning (t : Table) : Table :=
  let t := set_trackEnd false t in
  let t := if negb (columnOffset t =? -1) then set_columnOffset 0 t else t in
  let t := set_xScroll 0 t in
  set_rowOffset 0 t.

(** [func (t *Table) ScrollToEnd()] *)
Definition ScrollToEnd (t : Table) : Table :=
  let t := set_trackEnd true t in
  let t := set_columnOffset 0 t in
  set_rowOffset (Content.GetRowCount (content t)) t.

(** ** Validation of the selection *)

(** The loop [for t.selectedRow < rowCount] of [ensureValidSelection]. *)
Fixpoint ensureValidSelectionLoop (fuel : nat) (rowCount columnCount : Z)
  (t : Table) : option Table :=
  match fuel with
  | O => None
  | S fuel' =>
      if selectedRow t <? rowCount then
        if selectableAt (content t) (selectedRow t) (selectedColumn t)
        then Some t
        else
          let t1 := set_selectedColumn (selectedColumn t +i 1) t in
          let t2 :=
            if selectedColumn t1 >? columnCount -i 1
            then set_selectedRow (selectedRow t1 +i 1)
                   (set_selectedColumn 0 t1)
            else t1 in
          ensureValidSelectionLoop fuel' rowCount columnCount t2
      else Some t
  end.

(** [func (t *Table) ensureValidSelection(rowCount int, columnCount int)] *)
Definition ensureValidSelection (fuel : nat) (t : Table)
  (rowCount columnCount : Z) : option Table :=
  if rowsSelectable t || columnsSelectable t then
    let t := if selectedRow t <? 0 then set_selectedRow 0 t else t in
    t ← ensureValidSelectionLoop fuel rowCount columnCount t;
    let t := if selectedColumn t <? 0 then set_selectedColumn 0 t else t in
    let t := if selectedColumn t >=? columnCount
             then set_selectedColumn (columnCount -i 1) t else t in
    Some t
  else Some t.

(** ** Column widths and horizontal offsets *)

(** The inner loop of [calculateColumnWidths]: the widest cell of column
    [i] over all rows. *)
Definition columnMaxWidth (c : tableDefaultContent) (rowCount i : Z) : Z :=
  foldl (fun maxWidth j =>
           match Content.GetCell c j i with
           | Some cell => Z.max maxWidth (width cell)
           | None => maxWidth
           end) 0 (seqZ 0 rowCount).

(** [func (t *Table) calculateColumnWidths() []int]; [make] panics on a
    negative length. *)
Definition calculateColumnWidths (t : Table) : option (list Z) :=
  let rowCount := Content.GetRowCount (content t) in
  let columnCount := Content.GetColumnCount (content t) in
  if columnCount <? 0 then None
  else Some (map (columnMaxWidth (content t) rowCount) (seqZ 0 columnCount)).

(** [func (t *Table) effectiveColumnsWidth(widths []int) int] *)
Definition effectiveColumnsWidth (t : Table) (widths : list Z) : Z :=
  let columnsWidth := foldl (fun acc w => acc +i w) 0 widths in
  if borders t then columnsWidth +i len widths (* space for the borders *)
  else columnsWidth.

(** [func (t *Table) effectiveXOffset(columnWidths []int) int] *)
Definition effectiveXOffset (t : Table) (columnWidths : list Z) : option Z :=
  if negb (columnOffset t =? -1) then
    xOffset ← foldl (fun acc i =>
                       xOffset ← acc;
                       w ← index columnWidths (i +i fixedColumns t);
                       Some (xOffset +i w))
                    (Some 0) (seqZ 0 (columnOffset t));
    Some (xOffset +i columnOffset t)
  else Some (xScroll t).

(** [func (t *Table) MaximumXOffset() int] *)
Definition MaximumXOffset (t : Table) : option Z :=
  let '(_, _, width, _) := GetInnerRect t in
  columnWidths ← calculateColumnWidths t;
  fixed ← slice columnWidths 0 (fixedColumns t);
  let fixedColumnsWidth := effectiveColumnsWidth t fixed in
  let effectiveWidth := width -i fixedColumnsWidth in
  normal ← slice columnWidths (fixedColumns t) (len columnWidths);
  let normalColumnsWidth := effectiveColumnsWidth t normal in
  Some (Z.max 0 (normalColumnsWidth -i effectiveWidth +i 1)).

(** [func (t *Table) normalColumnLeftRightPositions(columnWidths []int,
    columnIndex int) (left int, right int)] *)
Definition normalColumnLeftRightPositions (t : Table) (columnWidths : list Z)
  (columnIndex : Z) : option (Z * Z) :=
  l ← slice columnWidths (fixedColumns t) columnIndex;
  r ← slice columnWidths (fixedColumns t) (columnIndex +i 1);
  let left_ := effectiveColumnsWidth t l in
  let right_ := effectiveColumnsWidth t r in
  Some (left_, if borders t then right_ +i 1 else right_).

(** ** Offset resolution *)

(** The loop of [clampOffsets] that advances the discrete column offset
    until the selected column fits. *)
Fixpoint clampColumnLoop (fuel : nat) (columnWidths : list Z)
  (effectiveWidth maxColumnOffset : Z) (t : Table) : option Table :=
  match fuel with
  | O => None
  | S fuel' =>
      edge ← slice columnWidths (fixedColumns t +i columnOffset t)
                (selectedColumn t +i 1);
      let selectionRightEdge := effectiveColumnsWidth t edge in
      if (columnOffset t >=? maxColumnOffset)
         || (selectionRightEdge >? effectiveWidth)
      then
        if columnOffset t >=? maxColumnOffset then Some t
        else clampColumnLoop fuel' columnWidths effectiveWidth
               maxColumnOffset (set_columnOffset (columnOffset t +i 1) t)
      else Some t
  end.

(** The row part of [clampOffsets]. *)
Definition clampRowOffset (t : Table) (screenHeightRows rowCount : Z)
  : Table :=
  let t :=
    if clampToSelection t && rowsSelectable t then
      let t :=
        if (selectedRow t >=? fixedRows t)
           && (selectedRow t <? fixedRows t +i rowOffset t)
        then set_trackEnd false
               (set_rowOffset (selectedRow t -i fixedRows t) t)
        else t in
      if selectedRow t +i 1 -i rowOffset t >=? screenHeightRows
      then set_trackEnd false
             (set_rowOffset (selectedRow t +i 1 -i screenHeightRows) t)
      else t
    else t in
  let t := if rowOffset t <? 0 then set_rowOffset 0 t else t in
  let t := if rowCount -i rowOffset t <? screenHeightRows
           then set_trackEnd true t else t in
  let t := if trackEnd t
           then set_rowOffset (rowCount -i screenHeightRows) t else t in
  if rowOffset t <? 0 then set_rowOffset 0 t else t.

(** The part of [clampOffsets] under
    [if t.clampToSelection && t.columnsSelectable]. *)
Definition clampColumnToSelection (t : Table) (width columnCount : Z)
  : option Table :=
  if negb (columnOffset t =? -1) then
    let t :=
      if (selectedColumn t >=? fixedColumns t)
         && (selectedColumn t <? fixedColumns t +i columnOffset t)
      then set_columnOffset (selectedColumn t -i fixedColumns t) t
      else t in
    if selectedColumn t >=? fixedColumns t then
      columnWidths ← calculateColumnWidths t;
      fixed ← slice columnWidths 0 (fixedColumns t);
      let effectiveWidth := width -i effectiveColumnsWidth t fixed in
      let maxColumnOffset := columnCount -i fixedColumns t -i 1 in
      clampColumnLoop (S (Z.to_nat (maxColumnOffset - columnOffset t)))
        columnWidths effectiveWidth maxColumnOffset t
    else Some t
  else
    (* If columnOffset is -1, we use xScroll. *)
    if selectedColumn t >=? fixedColumns t then
      columnWidths ← calculateColumnWidths t;
      fixed ← slice columnWidths 0 (fixedColumns t);
      let effectiveWidth := width -i effectiveColumnsWidth t fixed in
      '(left_, right_) ← normalColumnLeftRightPositions t columnWidths
                            (selectedColumn t);
      if left_ -i xScroll t <? 0 then Some (set_xScroll left_ t)
      else if right_ -i xScroll t >? effectiveWidth
           then Some (set_xScroll (0 -i (effectiveWidth -i right_)) t)
           else Some t
    else Some t.

(** The last part of [clampOffsets]: the range clamp of whichever
    horizontal offset is in use. *)
Definition clampHorizontalRange (t : Table) (columnCount : Z)
  : option Table :=
  if columnOffset t =? -1 then
    m ← MaximumXOffset t;
    let t := set_xScroll (Z.min m (xScroll t)) t in
    Some (set_xScroll (Z.max 0 (xScroll t)) t)
  else
    (* Avoid invalid column offsets. *)
    let t := if columnOffset t >=? columnCount -i fixedColumns t
             then set_columnOffset (columnCount -i fixedColumns t -i 1) t
             else t in
    Some (if columnOffset t <? 0 then set_columnOffset 0 t else t).

(** [func (t *Table) clampOffsets(height int, width int, rowCount int,
    columnCount int)] *)
Definition clampOffsets (t : Table) (height width rowCount columnCount : Z)
  : option Table :=
  let screenHeightRows :=
    if borders t then Z.quot height 2 else height in
  let t := clampRowOffset t screenHeightRows rowCount in
  t ← (if clampToSelection t && columnsSelectable t
       then clampColumnToSelection t width columnCount
       else Some t);
  t ← clampHorizontalRange t columnCount;
  Some (set_clampToSelection false t) (* Only once. *).

(** ** Visible rows *)

(** One [for] loop of [calculateVisibleRows]; [inFixed] is the extra
    guard [row < t.fixedRows] of the first loop.  Every pass adds
    [rowStep >= 1] to [tableHeight], so [height] passes exhaust the loop. *)
Fixpoint visibleRowsLoop (fuel : nat) (inFixed : Z -> bool)
  (rowStep height rowCount : Z) (row tableHeight : Z) (rows : list Z)
  : list Z * Z :=
  match fuel with
  | O => (rows, tableHeight)
  | S fuel' =>
      if inFixed row && (row <? rowCount) && (tableHeight <? height)
      then visibleRowsLoop fuel' inFixed rowStep height rowCount
             (row +i 1) (tableHeight +i rowStep) (rows ++ [row])
      else (rows, tableHeight)
  end.

(** [func (t *Table) calculateVisibleRows(height int, rowCount int)
    (rows []int, allRows []int)] *)
Definition calculateVisibleRows (t : Table) (height rowCount : Z)
  : list Z * list Z :=
  let rowStep := if borders t then 2 else 1 in
  let allRows := seqZ 0 rowCount in
  let fuel := Z.to_nat height in
  (* Do the fixed rows first. *)
  let '(rows, tableHeight) :=
    visibleRowsLoop fuel (fun row => row <? fixedRows t)
      rowStep height rowCount 0 0 [] in
  (* Then the remaining rows. *)
  let '(rows, _) :=
    visibleRowsLoop fuel (fun _ => true)
      rowStep height rowCount (fixedRows t +i rowOffset t) tableHeight rows in
  (rows, allRows).

(** ** The layout and the painting of a draw *)

Record Layout : Type := mkLayout {
  drawn : Table;
  rows : list Z;
  columnWidths : list Z;
  xOffset : Z;
  fixedColumnsWidth : Z
}.

(** A [for] loop over [xs] whose body can panic. *)
Fixpoint forEach {A} (xs : list A) (body : A -> option unit) : option unit :=
  match xs with
  | [] => Some ()
  | x :: rest => _ ← body x; forEach rest body
  end.

(** The column indices of the loops
    [for columnIndex := startColumn; columnIndex < startColumn+columnCount;
    columnIndex++]. *)
Definition columnRange (startColumn columnCount : Z) : list Z :=
  seqZ startColumn ((startColumn +i columnCount) - startColumn).

(** [func (t *Table) drawCellColumnRange(screenWriter, rows, startColumn,
    columnCount, columnWidths) int].  The screen is outside the model:
    of every pass the read [columnWidths[columnIndex]] is kept, which
    panics on an index out of range, and the position [posX] that is
    returned.  [drawCellColumn] skips the positions without a cell and
    [drawColumnBorders] reads no slice. *)
Definition drawCellColumnRange (t : Table) (rows : list Z)
  (startColumn columnCount : Z) (columnWidths : list Z) : option Z :=
  foldl (fun acc columnIndex =>
           posX ← acc;
           columnWidth ← index columnWidths columnIndex;
           Some (posX +i columnWidth +i 1))
    (Some 0) (columnRange startColumn columnCount).

(** [func (t *Table) getSelectStyleForCell(rowIndex, columnIndex)
    tcell.Style].  Styles are outside the model: what is kept is the
    read [cell.SelectedStyle] of the cell that [GetCell] returns, a nil
    pointer dereference where the store holds no cell. *)
Definition getSelectStyleForCell (t : Table) (rowIndex columnIndex : Z)
  : option unit :=
  match Content.GetCell (content t) rowIndex columnIndex with
  | Some _ => Some ()
  | None => None
  end.

(** [func (t *Table) drawCellBackgroundColumnRange(screenWriter, rows,
    startColumn, columnCount, columnWidths)]: the reads of the three
    ways to highlight the selection. *)
Definition drawCellBackgroundColumnRange (t : Table) (rows : list Z)
  (startColumn columnCount : Z) (columnWidths : list Z) : option unit :=
  let columns := columnRange startColumn columnCount in
  if rowsSelectable t && columnsSelectable t then
    forEach rows (fun rowIndex =>
      if rowIndex =? selectedRow t then
        forEach columns (fun columnIndex =>
          _ ← index columnWidths columnIndex;
          if selectedColumn t =? columnIndex
          then getSelectStyleForCell t rowIndex columnIndex
          else Some ())
      else Some ())
  else if rowsSelectable t then
    forEach rows (fun rowIndex =>
      if rowIndex =? selectedRow t then
        forEach columns (fun columnIndex =>
          _ ← index columnWidths columnIndex;
          getSelectStyleForCell t rowIndex columnIndex)
      else Some ())
  else if columnsSelectable t then
    forEach columns (fun columnIndex =>
      _ ← index columnWidths columnIndex;
      if selectedColumn t =? columnIndex
      then forEach rows (fun rowIndex =>
             getSelectStyleForCell t rowIndex columnIndex)
      else Some ())
  else Some ().

(** [func (t *Table) Draw(screen tcell.Screen)].  The screen is outside
    the model: the result is the layout that [Draw] resolves and paints,
    and [None] is a panic of the resolution or of the painting: a slice
    bound, an index out of range, or the missing cell of a highlighted
    position. *)
Definition Draw (fuel : nat) (t : Table) : option Layout :=
  let '(_, _, width, height) := GetInnerRect t in
  let t := if borders t then set_visibleRows (Z.quot height 2) t
           else set_visibleRows height t in
  (* Setup selection and get table dimensions *)
  let rowCount := Content.GetRowCount (content t) in
  let columnCount := Content.GetColumnCount (content t) in
  t ← ensureValidSelection fuel t rowCount columnCount;
  t ← clampOffsets t height width rowCount columnCount;
  (* Determine visible rows *)
  let '(rows, _) := calculateVisibleRows t height rowCount in
  columnWidths ← calculateColumnWidths t;
  let normalColumnCount := columnCount -i fixedColumns t in
  xOffset ← effectiveXOffset t columnWidths;
  fixed ← slice columnWidths 0 (fixedColumns t);
  let fixedColumnsWidth := effectiveColumnsWidth t fixed in
  _ ← drawCellColumnRange t rows (fixedColumns t) normalColumnCount
        columnWidths;
  _ ← (if fixedColumns t >? 0
       then drawCellColumnRange t rows 0 (fixedColumns t) columnWidths
       else Some 0);
  _ ← drawCellBackgroundColumnRange t rows (fixedColumns t) normalColumnCount
        columnWidths;
  _ ← (if fixedColumns t >? 0
       then drawCellBackgroundColumnRange t rows 0 (fixedColumns t)
              columnWidths
       else Some ());
  Some (mkLayout t rows columnWidths xOffset fixedColumnsWidth).

(** ** Screen coordinates to cells *)

(** The body shared by the two column loops of [CellAt], run over the
    column indices [indices] from the position [posX]: [inr column] when
    the column under [relX] is found, [inl posX] when the loop ends
    without one, [None] when [columnWidths[i]] is out of range. *)
Fixpoint cellAtColumns (t : Table) (columnWidths : list Z) (relX : Z)
  (indices : list Z) (posX : Z) : option (Z + Z) :=
  match indices with
  | [] => Some (inl posX)
  | i :: rest =>
      w ← index columnWidths i;
      let posX := posX +i w in
      let posX := if borders t then posX +i 1 (* space for the borders *)
                  else posX in
      if relX <? posX then Some (inr i)
      else cellAtColumns t columnWidths relX rest posX
  end.

(** The row part of [CellAt]: the row as seen on screen, then fixed rows
    and the row offset. *)
Definition cellAtRow (t : Table) (y : Z) : Z :=
  let '(_, rectY, _, _) := GetInnerRect t in
  (* Determine row as seen on screen. *)
  let row := if borders t then Z.quot (y -i rectY -i 1) 2 else y -i rectY in
  (* Respect fixed rows and row offset. *)
  if row >=? 0 then
    let row := if row >=? fixedRows t then row +i rowOffset t else row in
    if row >=? Content.GetRowCount (content t) then -1 else row
  else row.

(** [func (t *Table) CellAt(x, y int) (row int, column int)] *)
Definition CellAt (t : Table) (x y : Z) : option (Z * Z) :=
  let '(rectX, _, _, _) := GetInnerRect t in
  let row := cellAtRow t y in
  columnWidths ← calculateColumnWidths t;
  let relX := x -i rectX in
  fixed ← cellAtColumns t columnWidths relX (seqZ 0 (fixedColumns t)) 0;
  match fixed with
  | inr column => Some (row, column)
  | inl posX =>
      let posX := if borders t then posX +i 1 (* space for the borders *)
                  else posX in
      xOffset ← effectiveXOffset t columnWidths;
      let relX := relX +i xOffset in
      normal ← cellAtColumns t columnWidths relX
                  (seqZ (fixedColumns t) (len columnWidths - fixedColumns t))
                  posX;
      match normal with
      | inr column => Some (row, column)
      | inl _ => Some (row, -1)
      end
  end.

(** The screen line, relative to the inner rectangle, on which
    [drawCellColumn] prints the row at index [rowIndex] of the visible
    rows: [verticalSpacing + ((1 + verticalSpacing) * rowIndex)], where
    [drawCellColumnRange] passes a vertical spacing of 1 with borders and
    0 without. *)
Definition rowY (t : Table) (rowIndex : Z) : Z :=
  let verticalSpacing := if borders t then 1 else 0 in
  verticalSpacing + (1 + verticalSpacing) * rowIndex.

(** ** Mouse wheel *)

(** The actions of [MouseHandler] that move the table. *)
Inductive MouseAction : Type :=
| MouseScrollUp | MouseScrollDown.

(** The scroll cases of [func (t *Table) MouseHandler()], for a position
    inside the table. *)
Definition MouseScroll (t : Table) (action : MouseAction) : Table :=
  match action with
  | MouseScrollUp => set_rowOffset (rowOffset t -i 1) (set_trackEnd false t)
  | MouseScrollDown => set_rowOffset (rowOffset t +i 1) t
  end.

(** ** Clipping screen writers *)

(** One call of [SetContent] on the terminal screen: the position and the
    rune. *)
Record Write : Type := mkWrite {
  atX : Z;
  atY : Z;
  rune : Z
}.

(** The screen writers: the [TranslateScreenWriterAdapter] of a screen of
    the given size, and the [ClippingScreenWriter] over another writer. *)
Inductive ScreenWriter : Type :=
| Adapter (screenWidth screenHeight : Z)
| Clipping (writer : ScreenWriter) (x y width height : Z).

(** [func NewClippingScreenWriter(w ScreenWriter, x, y, width, height int)
    *ClippingScreenWriter] *)
Definition NewClippingScreenWriter (w : ScreenWriter) (x y width height : Z)
  : ScreenWriter := Clipping w x y width height.

(** [SetContent(x, y, primary, combining, style)] of both writers, as
    the calls it makes on the terminal screen. *)
Fixpoint SetContent (w : ScreenWriter) (x y : Z) (r : Z) : list Write :=
  match w with
  | Adapter _ _ => [mkWrite x y r]
  | Clipping writer cx cy width height =>
      if (x <? 0) || (y <? 0) || (x >=? width) || (y >=? height) then []
      else SetContent writer (x +i cx) (y +i cy) r
  end.

(** [GetContent(x, y)] of both writers, as the position of the terminal
    screen it reads. *)
Fixpoint GetContent (w : ScreenWriter) (x y : Z) : Z * Z :=
  match w with
  | Adapter _ _ => (x, y)
  | Clipping writer cx cy _ _ => GetContent writer (cx +i x) (cy +i y)
  end.

(** [Size() (width, height int)] of both writers. *)
Definition Size (w : ScreenWriter) : Z * Z :=
  match w with
  | Adapter screenWidth screenHeight => (screenWidth, screenHeight)
  | Clipping _ _ _ width height => (width, height)
  end.

(** [func (c *ClippingScreenWriter) Fill(r rune, style tcell.Style)]: the
    two loops call [SetContent] of the wrapped writer, not of [c]. *)
Definition Fill (writer : ScreenWriter) (cx cy width height : Z) (r : Z)
  : list Write :=
  y ← seqZ 0 height;
  x ← seqZ 0 width;
  SetContent writer (cx +i x) (cy +i y) r.

(** [AbsolutePosition(x, y) (absX, absY int)] of both writers. *)
Definition AbsolutePosition (w : ScreenWriter) (x y : Z) : Z * Z :=
  match w with
  | Adapter _ _ => (x, y)
  | Clipping _ cx cy _ _ => (x +i cx, y +i cy)
  end.

(** [NewClipXY(x, y) TranslateScreenWriter] of both writers. *)
Definition NewClipXY (w : ScreenWriter) (x y : Z) : ScreenWriter :=
  match w with
  | Adapter screenWidth screenHeight =>
      NewClippingScreenWriter w x y screenWidth screenHeight
  | Clipping writer cx cy width height =>
      Clipping writer (cx +i x) (cy +i y) (width -i x) (height -i y)
  end.

(** ** Navigation *)

(** The loop of [moveSelectionForward]: [Some (Some (row, column))] when a
    selectable cell is found, [Some None] when the final cell is reached
    first. *)
Fixpoint forwardScan (fuel : nat) (c : tableDefaultContent)
  (lastColumn rowCount finalRow finalColumn row column : Z)
  : option (option (Z * Z)) :=
  match fuel with
  | O => None
  | S fuel' =>
      (* Stop if the current selection is fine. *)
      if selectableAt c row column then Some (Some (row, column))
      (* If we reached the final cell, stop. *)
      else if (row =? finalRow) && (column =? finalColumn) then Some None
      else
        (* Move forward. *)
        let column := column +i 1 in
        if column >? lastColumn then
          let column := 0 in
          let row := row +i 1 in
          if row >=? rowCount
          then forwardScan fuel' c lastColumn rowCount finalRow finalColumn
                 0 column
          else forwardScan fuel' c lastColumn rowCount finalRow finalColumn
                 row column
        else forwardScan fuel' c lastColumn rowCount finalRow finalColumn
               row column
  end.

(** The loop of [moveSelectionBackwards]. *)
Fixpoint backwardScan (fuel : nat) (c : tableDefaultContent)
  (lastColumn rowCount finalRow finalColumn row column : Z)
  : option (option (Z * Z)) :=
  match fuel with
  | O => None
  | S fuel' =>
      if selectableAt c row column then Some (Some (row, column))
      else if (row =? finalRow) && (column =? finalColumn) then Some None
      else
        (* Move backwards. *)
        let column := column -i 1 in
        if column <? 0 then
          let column := lastColumn in
          let row := row -i 1 in
          if row <? 0
          then backwardScan fuel' c lastColumn rowCount finalRow finalColumn
                 (rowCount -i 1) column
          else backwardScan fuel' c lastColumn rowCount finalRow finalColumn
                 row column
        else backwardScan fuel' c lastColumn rowCount finalRow finalColumn
               row column
  end.

(** [func (t *Table) moveSelectionForward(finalRow int, finalColumn int)
    bool] *)
Definition moveSelectionForward (fuel : nat) (t : Table)
  (finalRow finalColumn : Z) : option (Table * bool) :=
  let lastColumn := Content.GetColumnCount (content t) -i 1 in
  let rowCount := Content.GetRowCount (content t) in
  found ← forwardScan fuel (content t) lastColumn rowCount
             finalRow finalColumn (selectedRow t) (selectedColumn t);
  match found with
  | Some (row, column) =>
      Some (set_selectedColumn column (set_selectedRow row t), true)
  | None => Some (t, false)
  end.

(** [func (t *Table) moveSelectionBackwards(finalRow int, finalColumn int)
    bool] *)
Definition moveSelectionBackwards (fuel : nat) (t : Table)
  (finalRow finalColumn : Z) : option (Table * bool) :=
  let lastColumn := Content.GetColumnCount (content t) -i 1 in
  let rowCount := Content.GetRowCount (content t) in
  found ← backwardScan fuel (content t) lastColumn rowCount
             finalRow finalColumn (selectedRow t) (selectedColumn t);
  match found with
  | Some (row, column) =>
      Some (set_selectedColumn column (set_selectedRow row t), true)
  | None => Some (t, false)
  end.

(** The pattern [if !t.moveSelectionForward(fr, fc)
    { t.moveSelectionBackwards(row, column) }]. *)
Definition forwardElseBackwards (fuel : nat) (t : Table)
  (finalRow finalColumn row column : Z) : option Table :=
  match moveSelectionForward fuel t finalRow finalColumn with
  | None => None
  | Some (t, true) => Some t
  | Some (t, false) =>
      fst <$> moveSelectionBackwards fuel t row column
  end.

(** The pattern [if !t.moveSelectionBackwards(fr, fc)
    { t.moveSelectionForward(row, column) }]. *)
Definition backwardsElseForward (fuel : nat) (t : Table)
  (finalRow finalColumn row column : Z) : option Table :=
  match moveSelectionBackwards fuel t finalRow finalColumn with
  | None => None
  | Some (t, true) => Some t
  | Some (t, false) =>
      fst <$> moveSelectionForward fuel t row column
  end.

(** [func (t *Table) navigateHome()] *)
Definition navigateHome (fuel : nat) (t : Table) : option Table :=
  if rowsSelectable t then
    let lastColumn := Content.GetColumnCount (content t) -i 1 in
    let t := set_selectedColumn 0 (set_selectedRow 0 t) in
    let rowCount := Content.GetRowCount (content t) in
    t ← fst <$> moveSelectionForward fuel t (rowCount -i 1) lastColumn;
    Some (set_clampToSelection true t)
  else
    Some (set_columnOffset 0 (set_rowOffset 0 (set_trackEnd false t))).

(** [func (t *Table) navigateEnd()] *)
Definition navigateEnd (fuel : nat) (t : Table) : option Table :=
  if rowsSelectable t then
    let lastColumn := Content.GetColumnCount (content t) -i 1 in
    let rowCount := Content.GetRowCount (content t) in
    let t := set_selectedColumn lastColumn
               (set_selectedRow (rowCount -i 1) t) in
    t ← fst <$> moveSelectionBackwards fuel t 0 0;
    Some (set_clampToSelection true t)
  else
    Some (set_columnOffset 0 (set_trackEnd true t)).

(** [func (t *Table) navigateDown()] *)
Definition navigateDown (fuel : nat) (t : Table) : option Table :=
  if rowsSelectable t then
    let rowCount := Content.GetRowCount (content t) in
    let t := set_selectedRow (selectedRow t +i 1) t in
    let t :=
      if selectedRow t >=? rowCount then
        if wrapVertically t then set_selectedRow 0 t
        else set_selectedRow (rowCount -i 1) t
      else t in
    let row := selectedRow t in
    let column := selectedColumn t in
    let lastColumn := Content.GetColumnCount (content t) -i 1 in
    let '(finalRow, finalColumn) :=
      if wrapVertically t then (row, column)
      else (rowCount -i 1, lastColumn) in
    t ← forwardElseBackwards fuel t finalRow finalColumn row column;
    Some (set_clampToSelection true t)
  else
    Some (set_rowOffset (rowOffset t +i 1) t).

(** [func (t *Table) navigateUp()] *)
Definition navigateUp (fuel : nat) (t : Table) : option Table :=
  if rowsSelectable t then
    let rowCount := Content.GetRowCount (content t) in
    let t := set_selectedRow (selectedRow t -i 1) t in
    let t :=
      if selectedRow t <? 0 then
        if wrapVertically t then set_selectedRow (rowCount -i 1) t
        else set_selectedRow 0 t
      else t in
    let row := selectedRow t in
    let column := selectedColumn t in
    let '(finalRow, finalColumn) :=
      if wrapVertically t then (row, column) else (0, 0) in
    t ← backwardsElseForward fuel t finalRow finalColumn row column;
    Some (set_clampToSelection true t)
  else
    Some (set_rowOffset (rowOffset t -i 1) (set_trackEnd false t)).

(** [func (t *Table) navigateLeft()] *)
Definition navigateLeft (fuel : nat) (t : Table) : option Table :=
  if columnsSelectable t then
    let row := selectedRow t in
    let column := selectedColumn t in
    let t := set_selectedColumn (selectedColumn t -i 1) t in
    let t :=
      if selectedColumn t <? 0 then
        if wrapHorizontally t then
          let lastColumn := Content.GetColumnCount (content t) -i 1 in
          let rowCount := Content.GetRowCount (content t) in
          let t := set_selectedColumn lastColumn t in
          let t := set_selectedRow (selectedRow t -i 1) t in
          if selectedRow t <? 0 then
            if wrapVertically t then set_selectedRow (rowCount -i 1) t
            else set_selectedRow 0 (set_selectedColumn 0 t)
          else t
        else set_selectedColumn 0 t
      else t in
    let '(finalRow, finalColumn) :=
      if negb (wrapHorizontally t) then (row, 0)
      else if negb (wrapVertically t) then (0, 0)
      else (row, column) in
    t ← backwardsElseForward fuel t finalRow finalColumn row column;
    Some (set_clampToSelection true t)
  else
    Some (set_columnOffset (Z.max 0 (columnOffset t -i 1)) t).

(** [func (t *Table) navigateRight()] *)
Definition navigateRight (fuel : nat) (t : Table) : option Table :=
  if columnsSelectable t then
    let row := selectedRow t in
    let column := selectedColumn t in
    let t := set_selectedColumn (selectedColumn t +i 1) t in
    let lastColumn := Content.GetColumnCount (content t) -i 1 in
    let rowCount := Content.GetRowCount (content t) in
    let t :=
      if selectedColumn t >? lastColumn then
        if wrapHorizontally t then
          let t := set_selectedColumn 0 t in
          let t := set_selectedRow (selectedRow t +i 1) t in
          if selectedRow t >=? rowCount then
            if wrapVertically t then set_selectedRow 0 t
            else set_selectedRow (rowCount -i 1)
                   (set_selectedColumn lastColumn t)
          else t
        else set_selectedColumn lastColumn t
      else t in
    let '(finalRow, finalColumn) :=
      if negb (wrapHorizontally t) then (row, lastColumn)
      else if negb (wrapVertically t) then (rowCount -i 1, lastColumn)
      else (row, column) in
    t ← forwardElseBackwards fuel t finalRow finalColumn row column;
    Some (set_clampToSelection true t)
  else
    let maxColumnOffset :=
      Content.GetColumnCount (content t) -i fixedColumns t -i 1 in
    Some (set_columnOffset (Z.min (columnOffset t +i 1) maxColumnOffset) t).

(** The page size shared by [navigatePageDown] and [navigatePageUp]. *)
Definition pageOffsetAmount (t : Table) : Z :=
  let offsetAmount := visibleRows t -i fixedRows t in
  if offsetAmount <? 0 then 0 else offsetAmount.

(** [func (t *Table) navigatePageDown()] *)
Definition navigatePageDown (fuel : nat) (t : Table) : option Table :=
  let offsetAmount := pageOffsetAmount t in
  if rowsSelectable t then
    let row := selectedRow t in
    let column := selectedColumn t in
    let t := set_selectedRow (selectedRow t +i offsetAmount) t in
    let rowCount := Content.GetRowCount (content t) in
    let t := if selectedRow t >=? rowCount
             then set_selectedRow (rowCount -i 1) t else t in
    let lastColumn := Content.GetColumnCount (content t) -i 1 in
    let finalRow := rowCount -i 1 in
    let finalColumn := lastColumn in
    t ← forwardElseBackwards fuel t finalRow finalColumn row column;
    Some (set_clampToSelection true t)
  else
    Some (set_rowOffset (rowOffset t +i offsetAmount) t).

(** [func (t *Table) navigatePageUp()] *)
Definition navigatePageUp (fuel : nat) (t : Table) : option Table :=
  let offsetAmount := pageOffsetAmount t in
  if rowsSelectable t then
    let row := selectedRow t in
    let column := selectedColumn t in
    let t := set_selectedRow (selectedRow t -i offsetAmount) t in
    let t := if selectedRow t <? 0 then set_selectedRow 0 t else t in
    let finalRow := 0 in
    let finalColumn := 0 in
    t ← backwardsElseForward fuel t finalRow finalColumn row column;
    Some (set_clampToSelection true t)
  else
    Some (set_rowOffset (rowOffset t -i offsetAmount) (set_trackEnd false t)).

(** The movement keys of [InputHandler]; the runes g, G, j, k, h and l
    are bound to the same functions as Home, End, Down, Up, Left and
    Right. *)
Inductive Key : Type :=
| KeyHome | KeyEnd | KeyUp | KeyDown | KeyLeft | KeyRight | KeyPgDn | KeyPgUp.

(** The navigation function a movement key is bound to. *)
Definition navigate (fuel : nat) (key : Key) (t : Table) : option Table :=
  match key with
  | KeyHome => navigateHome fuel t
  | KeyEnd => navigateEnd fuel t
  | KeyUp => navigateUp fuel t
  | KeyDown => navigateDown fuel t
  | KeyLeft => navigateLeft fuel t
  | KeyRight => navigateRight fuel t
  | KeyPgDn => navigatePageDown fuel t
  | KeyPgUp => navigatePageUp fuel t
  end.

(** The movement part of [func (t *Table) InputHandler()]: no movement on
    empty tables. *)
Definition InputHandler (fuel : nat) (t : Table) (key : Key) : option Table :=
  if Content.GetRowCount (content t) =? 0 then Some t
  else navigate fuel key t.

(** ** Example tables *)

(** A cell of the given text and width. *)
Definition textCell (s : string) (w : Z) : option TableCell :=
  Some {| Text := s; Align := 0; MaxWidth := 0; Expansion := 0;
          Transparent := true; NotSelectable := false; width := w |}.

(** The same cell, not selectable. *)
Definition fixedCell (s : string) (w : Z) : option TableCell :=
  Some {| Text := s; Align := 0; MaxWidth := 0; Expansion := 0;
          Transparent := true; NotSelectable := true; width := w |}.

(** The table of a content, drawn into a [w] by [h] rectangle. *)
Definition tableOf (c : tableDefaultContent) (w h : Z) : Table :=
  set_content c (NewTable (mkBox 0 0 w h)).

(** ** Well-formed states *)

(** A slice whose length, and the length after one [append], is an
    [int]. *)
Definition fits {A} (l : list A) : Prop := len l < GoInt.max_int.

(** A content store whose slices have [int] lengths and whose column
    counter is an [int]. *)
Definition wf_content (c : tableDefaultContent) : Prop :=
  fits (cells c) /\ Forall fits (cells c) /\ GoInt.in_range (lastColumn c).

(** The row that a returning [InsertColumn] leaves in place of [r]. *)
Definition shiftedRow (column : Z) (r : Row) : Row :=
  if column <? len r
  then take (Z.to_nat column) r ++ Some emptyCell :: drop (Z.to_nat column) r
  else r.

(** The table [t] with another selection. *)
Definition reselect (row column : Z) (t : Table) : Table :=
  set_selectedColumn column (set_selectedRow row t).

(** A bound on the passes the loop of [ensureValidSelection] has left:
    the rows below the selection, each worth more than any run over the
    columns, plus the columns left in the row; a column counter beyond
    the last column has one pass before it restarts. *)
Definition evsMeasure (rowCount columnCount : Z) (t : Table) : Z :=
  if selectedRow t <? rowCount then
    (rowCount - selectedRow t) * 2 ^ 64
    + (if selectedColumn t <=? columnCount - 1
       then columnCount - 1 - selectedColumn t else 2 ^ 64 - 1)
  else 0.

Arguments GoInt.add : simpl never.
Arguments GoInt.sub : simpl never.
Arguments GoInt.wrap : simpl never.
Arguments selectableAt : simpl never.

(** An [int] far enough from the ends of the range that the sums and
    differences of a few of them do not wrap around. *)
Definition small (z : Z) : Prop := - 2 ^ 61 <= z <= 2 ^ 61.

(** Row [row] is a fixed row, or lies in the window of
    [screenHeightRows] rows that starts [offset] rows below the fixed
    ones. *)
Definition rowShown (fixedRows screenHeightRows offset row : Z) : Prop :=
  row < fixedRows \/ fixedRows + offset <= row < offset + screenHeightRows.

(** The local [screenHeightRows] of [clampOffsets]: with borders, every
    table row takes two screen rows. *)
Definition screenHeightRowsOf (t : Table) (height : Z) : Z :=
  if borders t then Z.quot height 2 else height.

(** The table [t] with other horizontal offsets. *)
Definition rehorizontal (columnOffset' xScroll' : Z) (t : Table) : Table :=
  set_xScroll xScroll' (set_columnOffset columnOffset' t).

(** A grid of [n] rows of one selectable cell of width 1. *)
Definition oneColumn (n : nat) : tableDefaultContent :=
  {| cells := replicate n [textCell "x" 1]; lastColumn := 0 |}.

(** One row of five cells of widths 2, 3, 4, 5 and 6. *)
Definition fiveColumns : tableDefaultContent :=
  {| cells := [[textCell "a" 2; textCell "b" 3; textCell "c" 4;
                textCell "d" 5; textCell "e" 6]];
     lastColumn := 4 |}.

(** The row-major index of a cell in a grid of [W] columns. *)
Definition cellIndex (W row column : Z) : Z := row * W + column.

(** The number of steps from index [i] forward to index [j], around a
    cycle of [N] indices. *)
Definition stepsForward (N i j : Z) : Z :=
  if i <=? j then j - i else j - i + N.

(** A cell position of the grid. *)
Definition inGrid (rowCount lastColumn row column : Z) : Prop :=
  0 <= row < rowCount /\ 0 <= column <= lastColumn.


(** The cell after [(row, column)] in row-major order, around the grid. *)
Definition nextCell (rowCount lastColumn row column : Z) : Z * Z :=
  if column + 1 >? lastColumn then
    if row + 1 >=? rowCount then (0, 0) else (row + 1, 0)
  else (row, column + 1).

(** The cell before [(row, column)] in row-major order, around the
    grid. *)
Definition prevCell (rowCount lastColumn row column : Z) : Z * Z :=
  if column - 1 <? 0 then
    if row - 1 <? 0 then (rowCount - 1, lastColumn) else (row - 1, lastColumn)
  else (row, column - 1).

(** What a scan returns: a selectable cell of the grid, or nothing after
    it has found every cell from [start] to [final] unselectable. *)
Definition scanResult (c : tableDefaultContent) (RC LC : Z)
  (steps : Z -> Z -> Z) (start final : Z) (res : option (Z * Z)) : Prop :=
  match res with
  | Some (r, c') => selectableAt c r c' = true /\ inGrid RC LC r c'
  | None =>
      forall r c', inGrid RC LC r c' ->
                   steps start (cellIndex (LC + 1) r c') <= steps start final ->
                   selectableAt c r c' = false
  end.

(** The grid a table scans: its rows and its last reported column. *)
Definition tableRows (t : Table) : Z := Content.GetRowCount (content t).
Definition tableLastColumn (t : Table) : Z :=
  Content.GetColumnCount (content t) - 1.

(** A table with at least one column, whose store fits the [int]s, and
    whose selection is a cell position of the grid. *)
Definition navigable (t : Table) : Prop :=
  1 <= Content.GetColumnCount (content t)
  /\ fits (cells (content t))
  /\ inGrid (tableRows t) (tableLastColumn t) (selectedRow t) (selectedColumn t).

(** The outcome of a scan with its fallback: the selection lands on a
    selectable cell of the grid, or stays where it was, and then the
    final cell of the fallback is not selectable. *)
Definition landsOrStays (t : Table) (row column : Z) (t' : Table) : Prop :=
  t' = reselect (selectedRow t') (selectedColumn t') t
  /\ inGrid (tableRows t) (tableLastColumn t) (selectedRow t') (selectedColumn t')
  /\ (selectableAt (content t) (selectedRow t') (selectedColumn t') = true
      \/ (t' = t /\ selectableAt (content t) row column = false)).

(** The movement keys whose function needs rows selectable; the others
    (Left, Right) need columns selectable. *)
Definition movesRows (key : Key) : bool :=
  match key with KeyLeft | KeyRight => false | _ => true end.

(** The key moves a selection: its function takes the selecting
    branch. *)
Definition selecting (key : Key) (t : Table) : bool :=
  if movesRows key then rowsSelectable t else columnsSelectable t.

(** The keys whose fallback scan ends on the cell selected before. *)
Definition fallsBackToOrigin (key : Key) : bool :=
  match key with
  | KeyLeft | KeyRight | KeyPgDn | KeyPgUp => true
  | _ => false
  end.

(** The keys that scan the whole grid. *)
Definition scansWholeGrid (key : Key) : bool :=
  match key with KeyHome | KeyEnd => true | _ => false end.

(** The tentative new position of a directional operation, before any
    scan (spec, 4.4): row or column +-1 with the wrap or the clamp of
    the configuration; the corners for Home and End; the row shifted by
    [visibleRows - fixedRows], floored at 0 and clamped to the grid, for
    the page keys. *)
Definition tentative (key : Key) (t : Table) : Z * Z :=
  let lastRow := tableRows t - 1 in
  let lastColumn := tableLastColumn t in
  let row := selectedRow t in
  let column := selectedColumn t in
  let page := Z.max 0 (visibleRows t - fixedRows t) in
  match key with
  | KeyHome => (0, 0)
  | KeyEnd => (lastRow, lastColumn)
  | KeyDown =>
      (if row <? lastRow then row + 1
       else if wrapVertically t then 0 else lastRow, column)
  | KeyUp =>
      (if 0 <? row then row - 1
       else if wrapVertically t then lastRow else 0, column)
  | KeyRight =>
      if column <? lastColumn then (row, column + 1)
      else if wrapHorizontally t then
             if row <? lastRow then (row + 1, 0)
             else if wrapVertically t then (0, 0) else (lastRow, lastColumn)
           else (row, lastColumn)
  | KeyLeft =>
      if 0 <? column then (row, column - 1)
      else if wrapHorizontally t then
             if 0 <? row then (row - 1, lastColumn)
             else if wrapVertically t then (lastRow, lastColumn) else (0, 0)
           else (row, 0)
  | KeyPgDn => (Z.min (row + page) lastRow, column)
  | KeyPgUp => (Z.max (row - page) 0, column)
  end.

(** What a directional operation leaves behind. *)
Definition navigated (key : Key) (t t' : Table) : Prop :=
  exists row column,
    t' = set_clampToSelection true (reselect row column t)
    /\ inGrid (tableRows t) (tableLastColumn t) row column
    /\ (selectableAt (content t) row column = true
        \/ (row, column) = tentative key t)
    /\ (fallsBackToOrigin key = true ->
        selectableAt (content t) (selectedRow t) (selectedColumn t) = true ->
        selectableAt (content t) row column = true)
    /\ (scansWholeGrid key = true ->
        (exists r c, inGrid (tableRows t) (tableLastColumn t) r c
                     /\ selectableAt (content t) r c = true) ->
        selectableAt (content t) row column = true).

(** The page keys add [visibleRows - fixedRows] to the selected row:
    these stay clear of the ends of the [int] range. *)
Definition pageable (t : Table) : Prop :=
  small (tableRows t) /\ small (visibleRows t) /\ small (fixedRows t).

(** Five rows of one cell, of which only row 2 is selectable. *)
Definition onlyRowTwo : tableDefaultContent :=
  {| cells := [[fixedCell "a" 1]; [fixedCell "b" 1]; [textCell "c" 1];
               [fixedCell "d" 1]; [fixedCell "e" 1]];
     lastColumn := 0 |}.

(** The length of row [r] of the store; 0 where the store has no row. *)
Definition rowLength (c : tableDefaultContent) (r : Z) : Z :=
  match index (cells c) r with
  | Some row => len row
  | None => 0
  end.

(** The row [SetCell] leaves at [row]. *)
Definition setRow (r : Row) (column : Z) (x : TableCell) : Row :=
  if column >=? len r
  then r ++ replicate (Z.to_nat (column - len r)) (Some emptyCell) ++ [Some x]
  else <[Z.to_nat column := Some x]> r.

(** The rows of the store after a returning [SetCell]. *)
Definition rowsAfterSet (c : tableDefaultContent) (row column : Z)
  (x : TableCell) : list Row :=
  <[Z.to_nat row := setRow (default [] (cells c !! Z.to_nat row)) column x]>
    (cells c ++ replicate (Z.to_nat (row + 1 - len (cells c))) []).

(** Growing a slice of [length] elements so that it holds [index]
    succeeds: nothing is allocated for an index below the length;
    otherwise [index - length + 1] elements, counted as an [int], are
    made and appended. *)
Definition grows (allocates : Z -> Z -> bool) (size length index : Z)
  : bool :=
  (index <? length)
  || (let n := index -i length +i 1 in
      (0 <=? n) && allocates size n && allocates size (length + n)).

(** The run time has room for what [SetCell(row, column, ...)]
    allocates: the rows up to [row] and the cells of that row up to
    [column]. *)
Definition roomFor (allocates : Z -> Z -> bool) (c : tableDefaultContent)
  (row column : Z) : bool :=
  grows allocates sliceBytes (len (cells c)) row
  && grows allocates pointerBytes (rowLength c row) column.

(** A run time that allocates whatever is asked for, and a cell pointer
    that no position of the store holds. *)
Definition unbounded : Z -> Z -> bool := fun _ _ => true.
Definition fresh : nat -> nat -> bool := fun _ _ => false.

(** The cell at a position of a list of rows. *)
Definition cellOf (rows : list Row) (r k : nat) : option TableCell :=
  rows !! r ≫= (fun row => mjoin (row !! k)).

(** The width of a text without tags, wide or combining characters: one
    screen cell per character. *)
Definition plainWidth (s : string) : Z := Z.of_nat (String.length s).

(** No row of the store reaches beyond the last column. *)
Definition withinColumns (c : tableDefaultContent) : Prop :=
  -1 <= lastColumn c < GoInt.max_int
  /\ Forall (fun r : Row => len r <= lastColumn c + 1) (cells c).

(** Equality of integers as [int]s: congruence modulo [2 ^ 64]. *)
Definition eq64 (a b : Z) : Prop := a mod 2 ^ 64 = b mod 2 ^ 64.

(** The sum loop of [effectiveColumnsWidth]. *)
Definition sumWidths (widths : list Z) : Z :=
  foldl (fun acc w => acc +i w) 0 widths.

(** The loop of [effectiveXOffset]. *)
Definition xOffsetLoop (t : Table) (columnWidths : list Z)
  (start : option Z) (indices : list Z) : option Z :=
  foldl (fun acc i =>
           xOffset ← acc;
           w ← index columnWidths (i +i fixedColumns t);
           Some (xOffset +i w))
    start indices.

(** A table that [Draw] can lay out: its fixed columns are columns of
    the grid and, where a selection is enabled, the grid has a column and
    the selection and the rows fit the [int]s. *)
Definition drawable (t : Table) : Prop :=
  0 <= fixedColumns t <= GetColumnCount t
  /\ (rowsSelectable t || columnsSelectable t = true ->
      1 <= GetColumnCount t /\ fits (cells (content t))
      /\ GoInt.in_range (selectedRow t) /\ GoInt.in_range (selectedColumn t)).

(** A table whose draw finds a cell wherever it highlights the
    selection: no selection is enabled, or rows are selectable and every
    position of the grid holds a cell. *)
Definition highlightable (t : Table) : Prop :=
  rowsSelectable t || columnsSelectable t = false
  \/ (rowsSelectable t = true
      /\ forall row column,
          0 <= row < GetRowCount t -> 0 <= column < GetColumnCount t ->
          is_Some (Content.GetCell (content t) row column)).

(** The discrete column offset that the range clamp of [clampOffsets]
    leaves in place of [columnOffset]. *)
Definition clampedColumnOffset (t : Table) (columnCount : Z) : Z :=
  let offset :=
    if columnOffset t >=? columnCount -i fixedColumns t
    then columnCount -i fixedColumns t -i 1
    else columnOffset t in
  if offset <? 0 then 0 else offset.

(** The table after the selection part of the row resolution of
    [clampOffsets], before the range checks. *)
Definition rowClamped (t : Table) (screenHeightRows : Z) : Table :=
  if clampToSelection t && rowsSelectable t then
    let t :=
      if (selectedRow t >=? fixedRows t)
         && (selectedRow t <? fixedRows t +i rowOffset t)
      then set_trackEnd false (set_rowOffset (selectedRow t -i fixedRows t) t)
      else t in
    if selectedRow t +i 1 -i rowOffset t >=? screenHeightRows
    then set_trackEnd false
           (set_rowOffset (selectedRow t +i 1 -i screenHeightRows) t)
    else t
  else t.

(** The range checks of the row resolution of [clampOffsets], on the
    row offset and [trackEnd] alone. *)
Definition rowOffsetInRange (offset : Z) (tracking : bool)
  (screenHeightRows rowCount : Z) : Z * bool :=
  let offset := if offset <? 0 then 0 else offset in
  let tracking := if rowCount -i offset <? screenHeightRows then true
                  else tracking in
  let offset := if tracking then rowCount -i screenHeightRows else offset in
  (if offset <? 0 then 0 else offset, tracking).

(** The number of table rows that start within [height] screen lines:
    every row takes one line, two with borders. *)
Definition rowsStarted (t : Table) (height : Z) : Z :=
  if borders t then (height + 1) / 2 else height.

(** * Properties *)

(** ** Machine integers and slices *)

Lemma wrap_id z : GoInt.in_range z -> GoInt.wrap z = z.
Proof.
  unfold GoInt.in_range, GoInt.min_int, GoInt.max_int, GoInt.wrap. intros H.
  rewrite Z.mod_small; lia.
Qed.

Lemma wrap_in_range z : GoInt.in_range (GoInt.wrap z).
Proof.
  unfold GoInt.in_range, GoInt.min_int, GoInt.max_int, GoInt.wrap.
  pose proof (Z.mod_pos_bound (z + 2 ^ 63) (2 ^ 64) ltac:(lia)). lia.
Qed.

Lemma add_id a b : GoInt.in_range (a + b) -> a +i b = a + b.
Proof. apply wrap_id. Qed.

Lemma sub_id a b : GoInt.in_range (a - b) -> a -i b = a - b.
Proof. apply wrap_id. Qed.

(** Bounds in a form [lia] reads. *)
Lemma in_range_iff z :
  GoInt.in_range z <-> - 9223372036854775808 <= z <= 9223372036854775807.
Proof. unfold GoInt.in_range, GoInt.min_int, GoInt.max_int. lia. Qed.

Lemma max_int_eq : GoInt.max_int = 9223372036854775807.
Proof. reflexivity. Qed.

(** Removes the wrap-around of every sum and difference whose
    mathematical value [lia] can bound within [int]. *)
Ltac unwrap :=
  repeat match goal with
    | |- context [?a +i ?b] =>
        rewrite (add_id a b) by (apply (proj2 (in_range_iff _)); lia)
    | |- context [?a -i ?b] =>
        rewrite (sub_id a b) by (apply (proj2 (in_range_iff _)); lia)
    end.

Ltac unwrap_in H :=
  repeat match type of H with
    | context [?a +i ?b] =>
        rewrite (add_id a b) in H by (apply (proj2 (in_range_iff _)); lia)
    | context [?a -i ?b] =>
        rewrite (sub_id a b) in H by (apply (proj2 (in_range_iff _)); lia)
    end.

Lemma fits_iff {A} (l : list A) : fits l <-> len l < 9223372036854775807.
Proof. unfold fits, GoInt.max_int. lia. Qed.

(** Turns the [int] bounds among the hypotheses into inequalities. *)
Ltac int_hyps :=
  repeat match goal with
    | H : fits _ |- _ => apply (proj1 (fits_iff _)) in H
    | H : GoInt.in_range _ |- _ => apply (proj1 (in_range_iff _)) in H
    end.

(** Closes a goal about [int] bounds. *)
Ltac int_solve :=
  intros; first [assumption | lia | apply (proj2 (in_range_iff _)); lia].

(** Reduces the projections of updated tables, and nothing else. *)
Ltac tsimpl :=
  cbn [box borders content fixedRows fixedColumns rowsSelectable
       columnsSelectable selectedRow selectedColumn clampToSelection
       wrapHorizontally wrapVertically rowOffset columnOffset xScroll
       trackEnd visibleRows
       set_content set_fixedRows set_fixedColumns set_rowsSelectable
       set_columnsSelectable set_selectedRow set_selectedColumn
       set_clampToSelection set_wrapHorizontally set_wrapVertically
       set_rowOffset set_columnOffset set_xScroll set_trackEnd
       set_visibleRows set_borders reselect] in *.

Lemma len_nonneg {A} (l : list A) : 0 <= len l.
Proof. unfold len. lia. Qed.

Lemma len_app {A} (l k : list A) : len (l ++ k) = len l + len k.
Proof. unfold len. rewrite length_app. lia. Qed.

(** [append(l, x)], shift the tail right by one, store [y] at [k]: the
    list with [y] inserted before position [k]. *)
Lemma copy_within_shift {A} (l : list A) (x y : A) (k : nat) :
  (k < length l)%nat ->
  <[k := y]> (copy_within (l ++ [x]) (S k) k) = take k l ++ y :: drop k l.
Proof.
  intros Hk. unfold copy_within.
  rewrite length_app. simpl length.
  replace (Nat.min (length l + 1 - S k) (length l + 1 - k))
    with (length l - k)%nat by lia.
  rewrite (drop_ge (l ++ [x]) (S k + (length l - k)))
    by (rewrite length_app; simpl; lia).
  rewrite app_nil_r.
  rewrite take_app_le by lia.
  rewrite drop_app_le by lia.
  rewrite take_app_le by (rewrite length_drop; lia).
  rewrite (take_ge (drop k l)) by (rewrite length_drop; lia).
  destruct (lookup_lt_is_Some_2 l k Hk) as [a Ha].
  rewrite (take_S_r l k a Ha).
  rewrite <- app_assoc. simpl.
  rewrite insert_app_r_alt by (rewrite length_take; lia).
  rewrite length_take. replace (k - k `min` length l)%nat with 0%nat by lia.
  rewrite (drop_S l a k Ha). reflexivity.
Qed.

(** Inserting before [k] and removing position [k] cancel. *)
Lemma take_drop_insert {A} (l : list A) (y : A) (k : nat) :
  (k <= length l)%nat ->
  take k (take k l ++ y :: drop k l)
    ++ drop (S k) (take k l ++ y :: drop k l) = l.
Proof.
  intros Hk.
  rewrite take_app_le by (rewrite length_take; lia).
  rewrite take_take, Nat.min_id.
  rewrite drop_app_ge by (rewrite length_take; lia).
  rewrite length_take.
  replace (S k - k `min` length l)%nat with 1%nat by lia.
  simpl. rewrite drop_0. apply take_drop.
Qed.

(** ** The content store *)

Lemma slice_from_Some {A} (l : list A) (lo : Z) :
  0 <= lo <= len l -> slice_from l lo = Some (Z.to_nat lo).
Proof.
  intros H. unfold slice_from.
  destruct (Z.leb_spec 0 lo), (Z.leb_spec lo (len l)); simpl; try lia.
  reflexivity.
Qed.

Lemma slice_from_neg {A} (l : list A) (lo : Z) :
  lo < 0 -> slice_from l lo = None.
Proof.
  intros H. unfold slice_from.
  destruct (Z.leb_spec 0 lo); simpl; [lia | reflexivity].
Qed.

(** [InsertRow] at an existing position inserts one nil row before it. *)
Lemma InsertRow_in_range (c : tableDefaultContent) (row : Z) :
  fits (cells c) -> 0 <= row < len (cells c) ->
  Content.InsertRow c row =
    Returned {| cells := take (Z.to_nat row) (cells c)
                         ++ [] :: drop (Z.to_nat row) (cells c);
                lastColumn := lastColumn c |}.
Proof.
  intros Hf Hr. int_hyps. unfold Content.InsertRow.
  destruct (Z.geb_spec row (len (cells c))); [lia|].
  unwrap.
  rewrite !slice_from_Some by (rewrite len_app; unfold len in *; simpl; lia).
  replace (Z.to_nat (row + 1)) with (S (Z.to_nat row)) by lia.
  rewrite copy_within_shift by (unfold len in Hr; lia).
  reflexivity.
Qed.

(** [InsertRow] at or beyond the number of rows has no effect. *)
Lemma InsertRow_beyond (c : tableDefaultContent) (row : Z) :
  len (cells c) <= row -> Content.InsertRow c row = Returned c.
Proof.
  intros H. unfold Content.InsertRow.
  destruct (Z.geb_spec row (len (cells c))); [reflexivity | lia].
Qed.

(** [InsertRow] at a negative position panics on the slice bound, after
    the store has grown by one row. *)
Lemma InsertRow_negative (c : tableDefaultContent) (row : Z) :
  row < 0 ->
  Content.InsertRow c row =
    Panicked {| cells := cells c ++ [[]]; lastColumn := lastColumn c |}.
Proof.
  intros H. unfold Content.InsertRow.
  pose proof (len_nonneg (cells c)).
  destruct (Z.geb_spec row (len (cells c))); [lia|].
  rewrite (slice_from_neg _ row H).
  destruct (slice_from _ (row +i 1)); reflexivity.
Qed.

Lemma insertColumnOfRow_in_range (column : Z) (r : Row) :
  fits r -> 0 <= column < len r ->
  Content.insertColumnOfRow column r =
    Returned (take (Z.to_nat column) r
              ++ Some emptyCell :: drop (Z.to_nat column) r).
Proof.
  intros Hf Hc. int_hyps. unfold Content.insertColumnOfRow.
  destruct (Z.geb_spec column (len r)); [lia|].
  unwrap.
  rewrite !slice_from_Some by (rewrite len_app; unfold len in *; simpl; lia).
  replace (Z.to_nat (column + 1)) with (S (Z.to_nat column)) by lia.
  rewrite copy_within_shift by (unfold len in Hc; lia).
  reflexivity.
Qed.

Lemma insertColumnOfRow_beyond (column : Z) (r : Row) :
  len r <= column -> Content.insertColumnOfRow column r = Returned r.
Proof.
  intros H. unfold Content.insertColumnOfRow.
  destruct (Z.geb_spec column (len r)); [reflexivity | lia].
Qed.

Lemma insertColumnOfRow_negative (column : Z) (r : Row) :
  column < 0 -> Content.insertColumnOfRow column r = Panicked (r ++ [None]).
Proof.
  intros H. unfold Content.insertColumnOfRow.
  pose proof (len_nonneg r).
  destruct (Z.geb_spec column (len r)); [lia|].
  rewrite (slice_from_neg _ column H).
  destruct (slice_from _ (column +i 1)); reflexivity.
Qed.

Lemma insertColumnRows_nonneg (column : Z) (rows : list Row) :
  Forall fits rows -> 0 <= column ->
  Content.insertColumnRows column rows = Returned (map (shiftedRow column) rows).
Proof.
  intros Hf Hc. induction Hf as [|r rows Hr _ IH]; [reflexivity|].
  simpl. unfold shiftedRow at 1.
  destruct (Z.ltb_spec column (len r)).
  - rewrite insertColumnOfRow_in_range by (auto; lia). rewrite IH. reflexivity.
  - rewrite insertColumnOfRow_beyond by lia. rewrite IH. reflexivity.
Qed.

Lemma insertColumnRows_length (column : Z) (rows : list Row) :
  length (state_of (Content.insertColumnRows column rows)) = length rows.
Proof.
  induction rows as [|r rows IH]; [reflexivity|].
  simpl. destruct (Content.insertColumnOfRow column r); simpl; [|reflexivity].
  destruct (Content.insertColumnRows column rows); simpl in *; congruence.
Qed.

(** [InsertColumn] never touches the column counter nor the number of
    rows, whether it returns or panics. *)
Lemma InsertColumn_counts (c : tableDefaultContent) (column : Z) :
  lastColumn (state_of (Content.InsertColumn c column)) = lastColumn c
  /\ len (cells (state_of (Content.InsertColumn c column))) = len (cells c).
Proof.
  unfold Content.InsertColumn.
  pose proof (insertColumnRows_length column (cells c)) as H.
  destruct (Content.insertColumnRows column (cells c)); simpl in *;
    unfold len; rewrite H; auto.
Qed.

Lemma InsertColumn_nonneg (c : tableDefaultContent) (column : Z) :
  Forall fits (cells c) -> 0 <= column ->
  Content.InsertColumn c column =
    Returned {| cells := map (shiftedRow column) (cells c);
                lastColumn := lastColumn c |}.
Proof.
  intros Hf Hc. unfold Content.InsertColumn.
  rewrite insertColumnRows_nonneg by assumption. reflexivity.
Qed.

(** What [GetCell] returning a cell says about the store. *)
Lemma GetCell_Some (c : tableDefaultContent) (row column : Z) (x : TableCell) :
  Content.GetCell c row column = Some x <->
  0 <= row /\ 0 <= column /\
  exists r, cells c !! Z.to_nat row = Some r /\ column < len r
            /\ r !! Z.to_nat column = Some (Some x).
Proof.
  unfold Content.GetCell.
  destruct (Z.ltb_spec row 0), (Z.ltb_spec column 0),
    (Z.geb_spec row (len (cells c))); simpl;
    try (split; [discriminate | intros (? & ? & r & Hr & _); try lia]).
  - apply lookup_lt_Some in Hr. unfold len in *. lia.
  - destruct (cells c !! Z.to_nat row) as [r|] eqn:Hr.
    + destruct (Z.geb_spec column (len r)).
      * split; [discriminate|]. intros (_ & _ & r' & Hr' & Hlt & _).
        inversion Hr'; subst. lia.
      * split.
        -- intros Hx. repeat split; try lia. exists r. repeat split; try lia.
           destruct (r !! Z.to_nat column) as [[y|]|]; simpl in Hx;
             congruence.
        -- intros (_ & _ & r' & Hr' & _ & Hx). inversion Hr'; subst.
           rewrite Hx. reflexivity.
    + split; [discriminate|]. intros (_ & _ & r' & Hr' & _). discriminate.
Qed.

Lemma GetColumnCount_InsertColumn (c : tableDefaultContent) (column : Z) :
  Content.GetColumnCount (state_of (Content.InsertColumn c column))
  = Content.GetColumnCount c.
Proof.
  destruct (InsertColumn_counts c column) as [Hl Hn].
  unfold Content.GetColumnCount. rewrite Hl, Hn. reflexivity.
Qed.

(** C10: [InsertColumn] never changes what [GetColumnCount] returns,
    whether it returns or panics; for a column index [>= 0] it returns
    and every row longer than the index has its cells from the index on
    shifted one place to the right around a new empty cell; so a cell
    that sat in the last reported column ends at an index
    [GetColumnCount] no longer covers. *)
Theorem InsertColumn_keeps_column_count
  (c : tableDefaultContent) (column : Z) :
  Forall fits (cells c) ->
  Content.GetColumnCount (state_of (Content.InsertColumn c column))
    = Content.GetColumnCount c
  /\ (0 <= column ->
      Content.InsertColumn c column =
        Returned {| cells := map (shiftedRow column) (cells c);
                    lastColumn := lastColumn c |})
  /\ (0 <= column <= lastColumn c ->
      forall row x,
        Content.GetCell c row (lastColumn c) = Some x ->
        let c' := state_of (Content.InsertColumn c column) in
        Content.GetCell c' row (lastColumn c + 1) = Some x
        /\ ~ (lastColumn c + 1 < Content.GetColumnCount c')).
Proof.
  intros Hf. split; [apply GetColumnCount_InsertColumn|].
  split; [intros Hc; apply InsertColumn_nonneg; lia || assumption|].
  intros Hc row x Hx. simpl.
  rewrite GetColumnCount_InsertColumn.
  rewrite InsertColumn_nonneg by (assumption || lia). simpl.
  apply GetCell_Some in Hx. destruct Hx as (Hrow & _ & r & Hr & Hlt & Hx).
  assert (Hfr : fits r).
  { rewrite Forall_forall in Hf. apply Hf.
    eapply list_elem_of_lookup_2; eauto. }
  int_hyps. split.
  - apply GetCell_Some. repeat split; try lia.
    exists (shiftedRow column r). simpl. rewrite list_lookup_fmap, Hr. simpl.
    unfold shiftedRow. destruct (Z.ltb_spec column (len r)); [|lia].
    assert (Hlen : len (take (Z.to_nat column) r) = column).
    { unfold len in *. rewrite length_take. lia. }
    repeat split.
    + rewrite len_app, Hlen. unfold len in *. simpl length.
      rewrite length_drop. lia.
    + rewrite lookup_app_r by (unfold len in Hlen; lia).
      unfold len in Hlen.
      replace (Z.to_nat (lastColumn c + 1) - length (take (Z.to_nat column) r))%nat
        with (S (Z.to_nat (lastColumn c) - Z.to_nat column))%nat by lia.
      simpl. rewrite lookup_drop.
      replace (Z.to_nat column + (Z.to_nat (lastColumn c) - Z.to_nat column))%nat
        with (Z.to_nat (lastColumn c)) by lia.
      exact Hx.
  - unfold Content.GetColumnCount.
    destruct (len (cells c) =? 0); [lia|].
    rewrite add_id by (apply (proj2 (in_range_iff _)); lia). lia.
Qed.

(** A witness of [InsertColumn_keeps_column_count]: one row of two cells,
    a column inserted at position 0. *)
Lemma InsertColumn_keeps_column_count_witness :
  let c := {| cells := [[textCell "a" 1; textCell "b" 1]]; lastColumn := 1 |} in
  Content.GetColumnCount (state_of (Content.InsertColumn c 0))
    = Content.GetColumnCount c
  /\ (0 <= 0 ->
      Content.InsertColumn c 0 =
        Returned {| cells := map (shiftedRow 0) (cells c);
                    lastColumn := lastColumn c |})
  /\ (0 <= 0 <= lastColumn c ->
      forall row x,
        Content.GetCell c row (lastColumn c) = Some x ->
        let c' := state_of (Content.InsertColumn c 0) in
        Content.GetCell c' row (lastColumn c + 1) = Some x
        /\ ~ (lastColumn c + 1 < Content.GetColumnCount c')).
Proof.
  intros c. apply (InsertColumn_keeps_column_count c 0).
  repeat constructor; unfold fits, len, GoInt.max_int; simpl; lia.
Defined.

Lemma removeColumnOfRow_shiftedRow (column : Z) (r : Row) :
  fits r -> 0 <= column ->
  Content.removeColumnOfRow column (shiftedRow column r) = r.
Proof.
  intros Hf Hc. int_hyps. unfold shiftedRow, Content.removeColumnOfRow.
  destruct (Z.ltb_spec column (len r)).
  - assert (Hlen : len (take (Z.to_nat column) r
                         ++ Some emptyCell :: drop (Z.to_nat column) r)
                   = len r + 1).
    { unfold len in *. rewrite length_app, length_take. simpl.
      rewrite length_drop. lia. }
    rewrite Hlen.
    destruct (Z.ltb_spec column 0), (Z.geb_spec column (len r + 1));
      simpl; try lia.
    unwrap. replace (Z.to_nat (column + 1)) with (S (Z.to_nat column)) by lia.
    apply take_drop_insert. unfold len in *. lia.
  - destruct (Z.ltb_spec column 0), (Z.geb_spec column (len r));
      simpl; try lia; reflexivity.
Qed.

(** An insert followed by a remove at the same in-range column gives
    every cell back, and loses one from the column counter. *)
Lemma InsertColumn_RemoveColumn (c : tableDefaultContent) (column : Z) :
  Forall fits (cells c) -> GoInt.in_range (lastColumn c) ->
  0 <= column <= lastColumn c ->
  Content.RemoveColumn (state_of (Content.InsertColumn c column)) column
  = Returned {| cells := cells c; lastColumn := lastColumn c - 1 |}.
Proof.
  intros Hf Hl Hc. int_hyps.
  rewrite InsertColumn_nonneg by (assumption || lia).
  unfold Content.RemoveColumn. simpl.
  destruct (Z.geb_spec column 0), (Z.leb_spec column (lastColumn c));
    simpl; try lia.
  unwrap. f_equal. f_equal.
  rewrite <- list_fmap_compose.
  rewrite <- (list_fmap_id (cells c)) at 2.
  apply Forall_fmap_ext_1.
  eapply Forall_impl; [exact Hf|]. intros r Hr. simpl.
  apply removeColumnOfRow_shiftedRow; [assumption | lia].
Qed.

(** An insert followed by a remove at the same in-range row gives the
    store back. *)
Lemma InsertRow_RemoveRow (c : tableDefaultContent) (row : Z) :
  fits (cells c) -> 0 <= row < len (cells c) ->
  Content.RemoveRow (state_of (Content.InsertRow c row)) row = Returned c.
Proof.
  intros Hf Hr. rewrite InsertRow_in_range by assumption. int_hyps.
  unfold Content.RemoveRow. simpl.
  assert (Hlen : len (take (Z.to_nat row) (cells c)
                       ++ [] :: drop (Z.to_nat row) (cells c))
                 = len (cells c) + 1).
  { unfold len in *. rewrite length_app, length_take. simpl.
    rewrite length_drop. lia. }
  rewrite Hlen.
  destruct (Z.ltb_spec row 0), (Z.geb_spec row (len (cells c) + 1));
    simpl; try lia.
  unwrap. replace (Z.to_nat (row + 1)) with (S (Z.to_nat row)) by lia.
  rewrite take_drop_insert by (unfold len in *; lia).
  destruct c; reflexivity.
Qed.

(** C6, at a grid of one row and two columns: after [InsertColumn(0)] and
    [RemoveColumn(0)] every cell is back in place, but [GetColumnCount]
    has dropped from 2 to 1, because [InsertColumn] did not count the
    column that [RemoveColumn] then discounted. *)
Theorem InsertColumn_RemoveColumn_loses_a_column :
  let c := {| cells := [[textCell "a" 1; textCell "b" 1]]; lastColumn := 1 |} in
  let c' := state_of (Content.RemoveColumn
                        (state_of (Content.InsertColumn c 0)) 0) in
  cells c' = cells c
  /\ Content.GetRowCount c' = Content.GetRowCount c
  /\ Content.GetColumnCount c = 2
  /\ Content.GetColumnCount c' = 1.
Proof. vm_compute. repeat split. Qed.

(** [RemoveRow] and [RemoveColumn] return for every argument; and a
    position that no row reaches is left alone. *)
Lemma Remove_returns (c : tableDefaultContent) (i : Z) :
  returns (Content.RemoveRow c i) = true
  /\ returns (Content.RemoveColumn c i) = true
  /\ (i < 0 \/ len (cells c) <= i -> Content.RemoveRow c i = Returned c)
  /\ (i < 0 -> Content.RemoveColumn c i = Returned c).
Proof.
  unfold Content.RemoveRow, Content.RemoveColumn. repeat split.
  - destruct (_ || _); reflexivity.
  - destruct (_ && _); reflexivity.
  - intros H. destruct (Z.ltb_spec i 0), (Z.geb_spec i (len (cells c)));
      simpl; try lia; reflexivity.
  - intros H. destruct (Z.geb_spec i 0); [lia|]. simpl.
    replace (map (Content.removeColumnOfRow i) (cells c)) with (cells c).
    + destruct c; reflexivity.
    + rewrite <- (list_fmap_id (cells c)) at 1.
      apply Forall_fmap_ext_1, Forall_forall. intros r _. simpl.
      unfold Content.removeColumnOfRow.
      destruct (Z.ltb_spec i 0); [reflexivity | lia].
Qed.

(** C7, at a store of one row: [InsertRow(-1)] panics on a slice bound
    after it has appended a row, and [InsertColumn(-1)] panics after it
    has appended a nil cell to the first row; neither is a silent
    no-op.  [RemoveRow(-1)] and [RemoveColumn(-1)] on the same store
    return it unchanged. *)
Theorem Insert_negative_panics :
  let c := {| cells := [[textCell "a" 1]]; lastColumn := 0 |} in
  Content.InsertRow c (-1)
    = Panicked {| cells := [[textCell "a" 1]; []]; lastColumn := 0 |}
  /\ Content.InsertColumn c (-1)
     = Panicked {| cells := [[textCell "a" 1; None]]; lastColumn := 0 |}
  /\ Content.RemoveRow c (-1) = Returned c
  /\ Content.RemoveColumn c (-1) = Returned c.
Proof. vm_compute. repeat split. Qed.

(** C8: [SetExpansion] with a negative value panics and leaves the cell
    as it was; with any other value it returns and the cell's
    [Expansion] is the value, its other fields untouched. *)
Theorem SetExpansion_panics_iff_negative (c : TableCell) (e : Z) :
  (e < 0 ->
   SetExpansion c e = Panicked c
   /\ Expansion (state_of (SetExpansion c e)) = Expansion c)
  /\ (0 <= e ->
      SetExpansion c e = Returned (set_Expansion e c)
      /\ Expansion (state_of (SetExpansion c e)) = e).
Proof.
  unfold SetExpansion. split; intros H.
  - destruct (Z.ltb_spec e 0); [split; reflexivity | lia].
  - destruct (Z.ltb_spec e 0); [lia | split; reflexivity].
Qed.

(** A witness of [SetExpansion_panics_iff_negative]: the values -1 and 2
    on a cell whose expansion is 0. *)
Lemma SetExpansion_panics_iff_negative_witness :
  (SetExpansion emptyCell (-1) = Panicked emptyCell
   /\ Expansion (state_of (SetExpansion emptyCell (-1))) = 0)
  /\ (SetExpansion emptyCell 2 = Returned (set_Expansion 2 emptyCell)
      /\ Expansion (state_of (SetExpansion emptyCell 2)) = 2).
Proof.
  split.
  - apply (proj1 (SetExpansion_panics_iff_negative emptyCell (-1))). lia.
  - apply (proj2 (SetExpansion_panics_iff_negative emptyCell 2)). lia.
Defined.

(** ** Fixed rows and columns *)

(** C9: [SetFixed] stores the two counts and resets the column offset to
    0, whatever it was; a table that was in continuous-scroll mode
    ([columnOffset = -1]) is back in discrete mode, where the horizontal
    offset of the next draw is 0 and not [xScroll]; the row offset,
    [xScroll], [trackEnd] and all other fields are unchanged. *)
Theorem SetFixed_resets_columnOffset (t : Table) (rows columns : Z) :
  let t' := SetFixed t rows columns in
  fixedRows t' = rows /\ fixedColumns t' = columns
  /\ columnOffset t' = 0
  /\ (forall widths, effectiveXOffset t' widths = Some 0)
  /\ rowOffset t' = rowOffset t /\ xScroll t' = xScroll t
  /\ trackEnd t' = trackEnd t
  /\ t' = set_columnOffset 0 (set_fixedColumns columns (set_fixedRows rows t)).
Proof. repeat split. Qed.

(** ** Validation of the selection *)

Lemma reselect_same t : t = reselect (selectedRow t) (selectedColumn t) t.
Proof. destruct t; reflexivity. Qed.

Lemma reselect_reselect r c r' c' t :
  reselect r' c' (reselect r c t) = reselect r' c' t.
Proof. reflexivity. Qed.

Lemma add_max_int_1 : GoInt.max_int +i 1 = GoInt.min_int.
Proof. reflexivity. Qed.

Lemma evsMeasure_nonneg rowCount columnCount t :
  1 <= columnCount -> GoInt.in_range columnCount ->
  GoInt.in_range (selectedColumn t) ->
  0 <= evsMeasure rowCount columnCount t.
Proof.
  intros. int_hyps. unfold evsMeasure.
  destruct (Z.ltb_spec (selectedRow t) rowCount); [|lia].
  destruct (Z.leb_spec (selectedColumn t) (columnCount - 1)); lia.
Qed.

Lemma ensureValidSelectionLoop_terminates (rowCount columnCount : Z) :
  1 <= columnCount -> GoInt.in_range columnCount -> rowCount <= GoInt.max_int ->
  forall (n : nat) (t : Table),
    GoInt.in_range (selectedRow t) -> GoInt.in_range (selectedColumn t) ->
    evsMeasure rowCount columnCount t < Z.of_nat n ->
    exists t',
      ensureValidSelectionLoop n rowCount columnCount t = Some t'
      /\ t' = reselect (selectedRow t') (selectedColumn t') t
      /\ GoInt.in_range (selectedColumn t')
      /\ selectedRow t <= selectedRow t'
      /\ (selectedRow t <= rowCount -> selectedRow t' <= rowCount)
      /\ (selectedRow t' < rowCount ->
          selectableAt (content t) (selectedRow t') (selectedColumn t') = true).
Proof.
  intros Hcc Hccr Hrc. unfold GoInt.max_int in Hrc.
  induction n as [|n IH]; intros t Hr Hc Hm.
  { pose proof (evsMeasure_nonneg rowCount columnCount t Hcc Hccr Hc). lia. }
  int_hyps. cbn [ensureValidSelectionLoop].
  destruct (Z.ltb_spec (selectedRow t) rowCount) as [Hlt|Hge].
  2:{ exists t. split_and!; [reflexivity | apply reselect_same | ..]; int_solve. }
  destruct (selectableAt (content t) (selectedRow t) (selectedColumn t)) eqn:Hsel.
  { exists t. split_and!; [reflexivity | apply reselect_same | ..]; int_solve. }
  tsimpl.
  rewrite (sub_id columnCount 1) by int_solve.
  unfold evsMeasure in Hm.
  destruct (Z.ltb_spec (selectedRow t) rowCount); [|lia].
  assert (Hm' : (rowCount - selectedRow t) * 2 ^ 64 <= Z.of_nat n
                /\ (selectedColumn t <= columnCount - 1 ->
                    (rowCount - selectedRow t) * 2 ^ 64
                    + (columnCount - 1 - selectedColumn t) <= Z.of_nat n)
                /\ (columnCount - 1 < selectedColumn t ->
                    (rowCount - selectedRow t) * 2 ^ 64 + 2 ^ 64 - 1
                    <= Z.of_nat n)).
  { destruct (Z.leb_spec (selectedColumn t) (columnCount - 1)); lia. }
  clear Hm. destruct Hm' as (Hm0 & Hm1 & Hm2).
  destruct (Z.eq_dec (selectedColumn t) GoInt.max_int) as [Hmax|Hmax].
  - (* the column counter overflows and restarts below zero *)
    rewrite Hmax, add_max_int_1.
    destruct (Z.gtb_spec GoInt.min_int (columnCount - 1)) as [Hgt|_];
      [unfold GoInt.min_int in Hgt; lia|].
    unfold GoInt.max_int in Hmax.
    destruct (IH (set_selectedColumn GoInt.min_int t))
      as (t' & Ht' & Hs & Hcr & Hle & Hub & Hf).
    + tsimpl. int_solve.
    + tsimpl. unfold GoInt.min_int. int_solve.
    + unfold evsMeasure. tsimpl. unfold GoInt.min_int.
      destruct (Z.ltb_spec (selectedRow t) rowCount); [|lia].
      destruct (Z.leb_spec (- 2 ^ 63) (columnCount - 1)); lia.
    + exists t'. tsimpl. split_and!; try int_solve; auto.
  - rewrite (add_id (selectedColumn t) 1)
      by (unfold GoInt.max_int in Hmax; int_solve).
    destruct (Z.gtb_spec (selectedColumn t + 1) (columnCount - 1)) as [Hgt|Hng].
    + tsimpl. rewrite (add_id (selectedRow t) 1) by int_solve.
      destruct (IH (set_selectedRow (selectedRow t + 1)
                      (set_selectedColumn 0
                         (set_selectedColumn (selectedColumn t + 1) t))))
        as (t' & Ht' & Hs & Hcr & Hle & Hub & Hf).
      * tsimpl. int_solve.
      * tsimpl. int_solve.
      * unfold evsMeasure. tsimpl.
        destruct (Z.ltb_spec (selectedRow t + 1) rowCount); [|lia].
        destruct (Z.leb_spec 0 (columnCount - 1)); lia.
      * exists t'. tsimpl. split_and!; try int_solve; auto.
    + destruct (IH (set_selectedColumn (selectedColumn t + 1) t))
        as (t' & Ht' & Hs & Hcr & Hle & Hub & Hf).
      * tsimpl. int_solve.
      * tsimpl. int_solve.
      * unfold evsMeasure. tsimpl.
        destruct (Z.ltb_spec (selectedRow t) rowCount); [|lia].
        destruct (Z.leb_spec (selectedColumn t + 1) (columnCount - 1)); lia.
      * exists t'. tsimpl. split_and!; try int_solve; auto.
Qed.

Lemma ensureValidSelectionLoop_fuel_mono (rowCount columnCount : Z) :
  forall (n m : nat) (t t' : Table),
    (n <= m)%nat ->
    ensureValidSelectionLoop n rowCount columnCount t = Some t' ->
    ensureValidSelectionLoop m rowCount columnCount t = Some t'.
Proof.
  induction n as [|n IH]; intros m t t' Hnm H; [discriminate|].
  destruct m as [|m]; [lia|].
  cbn [ensureValidSelectionLoop] in *.
  destruct (selectedRow t <? rowCount); [|assumption].
  destruct (selectableAt _ _ _); [assumption|].
  apply IH; [lia | assumption].
Qed.

Lemma ensureValidSelection_fuel_mono (t t' : Table) (rowCount columnCount : Z)
  (n m : nat) :
  (n <= m)%nat ->
  ensureValidSelection n t rowCount columnCount = Some t' ->
  ensureValidSelection m t rowCount columnCount = Some t'.
Proof.
  intros Hnm. unfold ensureValidSelection.
  destruct (rowsSelectable t || columnsSelectable t); [|auto].
  destruct (ensureValidSelectionLoop n _ _ _) as [t1|] eqn:H1; [|discriminate].
  rewrite (ensureValidSelectionLoop_fuel_mono _ _ n m _ t1 Hnm H1). auto.
Qed.

Lemma GetColumnCount_in_range c : GoInt.in_range (Content.GetColumnCount c).
Proof.
  unfold Content.GetColumnCount. destruct (_ =? _).
  - apply in_range_iff. lia.
  - apply wrap_in_range.
Qed.






(** ** Resolution of the row offset *)

(** Case analysis on a condition that contains no other conditional. *)
Ltac innermost_if :=
  match goal with
  | |- context [if ?c then _ else _] =>
      lazymatch c with
      | context [if _ then _ else _] => fail
      | _ => destruct c eqn:?
      end
  end.

Ltac unwrap_all :=
  unwrap;
  repeat match goal with
    | H : context [?a +i ?b] |- _ =>
        rewrite (add_id a b) in H by (apply (proj2 (in_range_iff _)); lia)
    | H : context [?a -i ?b] |- _ =>
        rewrite (sub_id a b) in H by (apply (proj2 (in_range_iff _)); lia)
    end.

(** Turns the boolean comparisons among the hypotheses into
    inequalities. *)
Ltac bool_hyps :=
  repeat match goal with
    | H : (_ && _) = true |- _ => apply andb_true_iff in H; destruct H
    | H : (_ && _) = false |- _ => apply andb_false_iff in H
    | H : (_ || _) = true |- _ => apply orb_true_iff in H
    | H : (_ || _) = false |- _ => apply orb_false_iff in H; destruct H
    | H : negb _ = true |- _ => apply negb_true_iff in H
    | H : negb _ = false |- _ => apply negb_false_iff in H
    | H : (_ <? _) = true |- _ => apply Z.ltb_lt in H
    | H : (_ <? _) = false |- _ => apply Z.ltb_ge in H
    | H : (_ <=? _) = true |- _ => apply Z.leb_le in H
    | H : (_ <=? _) = false |- _ => apply Z.leb_gt in H
    | H : (_ >? _) = true |- _ => rewrite Z.gtb_ltb in H
    | H : (_ >? _) = false |- _ => rewrite Z.gtb_ltb in H
    | H : (_ >=? _) = true |- _ => rewrite Z.geb_leb in H
    | H : (_ >=? _) = false |- _ => rewrite Z.geb_leb in H
    | H : (_ =? _) = true |- _ => apply Z.eqb_eq in H
    | H : (_ =? _) = false |- _ => apply Z.eqb_neq in H
    end.

(** The row offset that [clampOffsets] resolves, for a pending selection
    clamp on a table that is not tracking its end. *)
Lemma clampRowOffset_spec (t : Table) (H rowCount : Z) :
  clampToSelection t = true -> rowsSelectable t = true ->
  trackEnd t = false ->
  0 <= fixedRows t < H -> 0 <= selectedRow t < rowCount ->
  small H -> small rowCount -> small (rowOffset t) ->
  let t' := clampRowOffset t H rowCount in
  0 <= rowOffset t' <= Z.max 0 (rowCount - H)
  /\ rowShown (fixedRows t) H (rowOffset t') (selectedRow t)
  /\ (forall o, 0 <= o <= Z.max 0 (rowCount - H) ->
                rowShown (fixedRows t) H o (selectedRow t) ->
                Z.abs (rowOffset t' - rowOffset t) <= Z.abs (o - rowOffset t)).
Proof.
  unfold small, rowShown. intros Hc Hs Ht Hf Hsel HH Hrc Hro.
  unfold clampRowOffset. rewrite Hc, Hs. cbn [andb].
  repeat (innermost_if; tsimpl; unwrap_all; try rewrite Ht in *);
    bool_hyps; try discriminate; split_and!; intros; lia.
Qed.

Lemma rehorizontal_same t : t = rehorizontal (columnOffset t) (xScroll t) t.
Proof. destruct t; reflexivity. Qed.

Lemma clampColumnLoop_frame (widths : list Z) (effectiveWidth maxColumnOffset : Z) :
  forall (fuel : nat) (t t' : Table),
    clampColumnLoop fuel widths effectiveWidth maxColumnOffset t = Some t' ->
    t' = set_columnOffset (columnOffset t') t.
Proof.
  induction fuel as [|fuel IH]; intros t t' H; [discriminate|].
  cbn [clampColumnLoop] in H.
  destruct (slice widths _ _); [|discriminate]. cbn [mbind option_bind] in H.
  destruct (_ || _).
  - destruct (_ >=? _).
    + injection H as <-. destruct t; reflexivity.
    + apply IH in H. rewrite H. destruct t; reflexivity.
  - injection H as <-. destruct t; reflexivity.
Qed.

Lemma clampColumnToSelection_frame (t t' : Table) (width columnCount : Z) :
  clampColumnToSelection t width columnCount = Some t' ->
  t' = rehorizontal (columnOffset t') (xScroll t') t.
Proof.
  unfold clampColumnToSelection. intros H.
  destruct (negb _).
  - destruct (_ && _); tsimpl.
    + destruct (_ >=? _).
      * destruct (calculateColumnWidths _); [|discriminate].
        cbn [mbind option_bind] in H.
        destruct (slice _ _ _); [|discriminate].
        cbn [mbind option_bind] in H.
        apply clampColumnLoop_frame in H. rewrite H.
        destruct t; reflexivity.
      * injection H as <-. destruct t; reflexivity.
    + destruct (_ >=? _).
      * destruct (calculateColumnWidths _); [|discriminate].
        cbn [mbind option_bind] in H.
        destruct (slice _ _ _); [|discriminate].
        cbn [mbind option_bind] in H.
        apply clampColumnLoop_frame in H. rewrite H.
        destruct t; reflexivity.
      * injection H as <-. destruct t; reflexivity.
  - destruct (_ >=? _).
    + destruct (calculateColumnWidths _); [|discriminate].
      cbn [mbind option_bind] in H.
      destruct (slice _ _ _); [|discriminate].
      cbn [mbind option_bind] in H.
      destruct (normalColumnLeftRightPositions _ _ _) as [[le ri]|]; [|discriminate].
      cbn [mbind option_bind] in H.
      destruct (_ <? _).
      * injection H as <-. destruct t; reflexivity.
      * destruct (_ >? _); injection H as <-; destruct t; reflexivity.
    + injection H as <-. destruct t; reflexivity.
Qed.

Lemma clampHorizontalRange_frame (t t' : Table) (columnCount : Z) :
  clampHorizontalRange t columnCount = Some t' ->
  t' = rehorizontal (columnOffset t') (xScroll t') t.
Proof.
  unfold clampHorizontalRange. intros H.
  destruct (_ =? _).
  - destruct (MaximumXOffset t); [|discriminate].
    cbn [mbind option_bind] in H. injection H as <-. destruct t; reflexivity.
  - injection H as <-.
    destruct (_ >=? _); tsimpl; destruct (_ <? _); destruct t; reflexivity.
Qed.

(** The horizontal part of [clampOffsets] leaves the row part alone. *)
Lemma clampOffsets_frame (t t' : Table) (height width rowCount columnCount : Z) :
  clampOffsets t height width rowCount columnCount = Some t' ->
  t' = set_clampToSelection false
         (rehorizontal (columnOffset t') (xScroll t')
            (clampRowOffset t (screenHeightRowsOf t height) rowCount)).
Proof.
  unfold clampOffsets, screenHeightRowsOf. intros H.
  set (t1 := clampRowOffset t _ rowCount) in *.
  destruct (if clampToSelection t1 && columnsSelectable t1
            then clampColumnToSelection t1 width columnCount
            else Some t1) as [t2|] eqn:H2; [|discriminate].
  cbn [mbind option_bind] in H.
  destruct (clampHorizontalRange t2 columnCount) as [t3|] eqn:H3; [|discriminate].
  cbn [mbind option_bind] in H. injection H as <-.
  apply clampHorizontalRange_frame in H3.
  assert (H2' : t2 = rehorizontal (columnOffset t2) (xScroll t2) t1).
  { destruct (_ && _).
    - apply clampColumnToSelection_frame in H2. exact H2.
    - injection H2 as <-. apply rehorizontal_same. }
  clearbody t1. tsimpl. apply (f_equal (set_clampToSelection false)).
  etransitivity; [exact H3|].
  generalize (columnOffset t3), (xScroll t3). intros a b.
  rewrite H2'. reflexivity.
Qed.

Lemma clampRowOffset_columns (t : Table) (H rowCount : Z) :
  columnsSelectable (clampRowOffset t H rowCount) = columnsSelectable t
  /\ columnOffset (clampRowOffset t H rowCount) = columnOffset t
  /\ selectedRow (clampRowOffset t H rowCount) = selectedRow t
  /\ fixedRows (clampRowOffset t H rowCount) = fixedRows t.
Proof.
  unfold clampRowOffset.
  repeat (innermost_if; tsimpl); split_and!; reflexivity.
Qed.

(** With columns not selectable and a discrete column offset,
    [clampOffsets] has nothing that can fail. *)
Lemma clampOffsets_rows_only_returns (t : Table)
  (height width rowCount columnCount : Z) :
  columnsSelectable t = false -> columnOffset t <> -1 ->
  is_Some (clampOffsets t height width rowCount columnCount).
Proof.
  intros Hcs Hco. unfold clampOffsets.
  set (t1 := clampRowOffset t _ rowCount).
  destruct (clampRowOffset_columns t (if borders t then height ÷ 2 else height)
              rowCount) as (Hcs1 & Hco1 & _).
  fold t1 in Hcs1, Hco1. rewrite Hcs1, Hcs, andb_false_r.
  cbn [mbind option_bind]. unfold clampHorizontalRange.
  rewrite Hco1. destruct (Z.eqb_spec (columnOffset t) (-1)); [contradiction|].
  cbn [mbind option_bind]. eexists. reflexivity.
Qed.

(** The row part of [clampOffsets] writes the row offset and
    [trackEnd], and nothing else. *)
Lemma clampRowOffset_frame (t : Table) (H rowCount : Z) :
  clampRowOffset t H rowCount
  = set_trackEnd (trackEnd (clampRowOffset t H rowCount))
      (set_rowOffset (rowOffset (clampRowOffset t H rowCount)) t).
Proof.
  unfold clampRowOffset.
  repeat (innermost_if; tsimpl); destruct t; reflexivity.
Qed.

(** A loop of [calculateVisibleRows] appends a run of consecutive rows:
    it stops after [k] passes, at the first row that fails its
    condition, or when its budget is spent. *)
Lemma visibleRowsLoop_run (inFixed : Z -> bool) (rowStep height rowCount : Z) :
  1 <= rowStep <= 2 -> small height -> small rowCount ->
  forall (fuel : nat) (row tableHeight : Z) (acc : list Z),
    GoInt.in_range row -> 0 <= tableHeight ->
    exists k : nat,
      visibleRowsLoop fuel inFixed rowStep height rowCount row tableHeight acc
      = (acc ++ seqZ row (Z.of_nat k), tableHeight + Z.of_nat k * rowStep)
      /\ (k <= fuel)%nat
      /\ (forall i, 0 <= i < Z.of_nat k ->
                    inFixed (row + i) = true /\ row + i < rowCount
                    /\ tableHeight + i * rowStep < height)
      /\ (k = fuel
          \/ inFixed (row + Z.of_nat k) && (row + Z.of_nat k <? rowCount)
             && (tableHeight + Z.of_nat k * rowStep <? height) = false).
Proof.
  unfold small. intros Hstep Hh Hrc.
  induction fuel as [|fuel IH]; intros row th acc Hrow Hth; int_hyps.
  { exists 0%nat. cbn [visibleRowsLoop]. rewrite app_nil_r.
    split_and!; [f_equal; lia | lia | intros; lia | left; reflexivity]. }
  cbn [visibleRowsLoop].
  destruct (inFixed row && (row <? rowCount) && (th <? height)) eqn:Hcond.
  - bool_hyps. unwrap.
    destruct (IH (row + 1) (th + rowStep) (acc ++ [row])
                ltac:(int_solve) ltac:(lia))
      as (k & Hrun & Hk & Hall & Hstop).
    exists (S k). rewrite Hrun. split_and!.
    + f_equal; [|lia].
      rewrite <- app_assoc. f_equal.
      replace (Z.of_nat (S k)) with (1 + Z.of_nat k) by lia.
      rewrite seqZ_app by lia. reflexivity.
    + lia.
    + intros i Hi. destruct (Z.eq_dec i 0) as [->|Hne].
      * rewrite Z.add_0_r. split_and!; [assumption | lia | lia].
      * destruct (Hall (i - 1) ltac:(lia)) as (Ha & Hb & Hc).
        replace (row + 1 + (i - 1)) with (row + i) in * by lia.
        split_and!; [assumption | lia | lia].
    + destruct Hstop as [->|Hstop]; [left; reflexivity|]. right.
      replace (row + Z.of_nat (S k)) with (row + 1 + Z.of_nat k) by lia.
      replace (th + Z.of_nat (S k) * rowStep)
        with (th + rowStep + Z.of_nat k * rowStep) by lia.
      exact Hstop.
  - exists 0%nat. rewrite app_nil_r.
    split_and!; [f_equal; lia | lia | intros; lia |].
    right. rewrite Z.add_0_r. replace (th + Z.of_nat 0 * rowStep) with th by lia.
    exact Hcond.
Qed.

Lemma quot_2_bounds (height : Z) :
  0 < Z.quot height 2 -> 2 * Z.quot height 2 <= height.
Proof.
  intros H. destruct (Z.le_gt_cases 0 height) as [Hh|Hh].
  - rewrite Z.quot_div_nonneg in * by lia.
    pose proof (Z.mul_div_le height 2 ltac:(lia)). lia.
  - exfalso. pose proof (Z.quot_opp_l (- height) 2 ltac:(lia)) as Ho.
    rewrite Z.opp_involutive in Ho.
    pose proof (Z.quot_pos (- height) 2 ltac:(lia) ltac:(lia)). lia.
Qed.

(** A row in the window that [clampOffsets] reasons about is among the
    rows that [calculateVisibleRows] puts on screen. *)
Lemma calculateVisibleRows_shows (t : Table) (height rowCount row : Z) :
  let visible := screenHeightRowsOf t height in
  0 <= fixedRows t < visible -> 0 <= rowOffset t ->
  small height -> small rowCount -> small (rowOffset t) ->
  0 <= row < rowCount ->
  rowShown (fixedRows t) visible (rowOffset t) row ->
  row ∈ (calculateVisibleRows t height rowCount).1.
Proof.
  intros visible Hf Hro Hh Hrc Hsro Hrow Hshown.
  unfold calculateVisibleRows.
  set (rowStep := if borders t then 2 else 1).
  assert (Hstep : 1 <= rowStep <= 2) by (subst rowStep; destruct (borders t); lia).
  assert (Hvis : visible * rowStep <= height).
  { subst visible rowStep. unfold screenHeightRowsOf in *.
    destruct (borders t); [|lia].
    pose proof (quot_2_bounds height ltac:(lia)). lia. }
  assert (Hvh : visible <= height) by nia.
  destruct (visibleRowsLoop_run (fun r => r <? fixedRows t) rowStep height
              rowCount Hstep Hh Hrc (Z.to_nat height) 0 0 []
              ltac:(int_solve) ltac:(lia))
    as (k1 & Hrun1 & Hk1 & Hall1 & Hstop1).
  rewrite Hrun1. cbn [app].
  assert (Hk1f : Z.of_nat k1 <= fixedRows t).
  { destruct k1 as [|k1]; [lia|].
    destruct (Hall1 (Z.of_nat k1) ltac:(lia)) as (Ha & _). bool_hyps. lia. }
  unfold small in *. unwrap.
  destruct (visibleRowsLoop_run (fun _ => true) rowStep height rowCount
              Hstep ltac:(unfold small; lia) ltac:(unfold small; lia)
              (Z.to_nat height) (fixedRows t + rowOffset t)
              (0 + Z.of_nat k1 * rowStep) (seqZ 0 (Z.of_nat k1))
              ltac:(int_solve) ltac:(nia))
    as (k2 & Hrun2 & Hk2 & Hall2 & Hstop2).
  rewrite Hrun2. cbn [fst].
  apply elem_of_app. unfold rowShown in Hshown.
  destruct Hshown as [Hfixed|Hwin].
  - left. apply elem_of_seqZ.
    destruct (Z.le_gt_cases (Z.of_nat k1) row) as [Hle|Hgt]; [|lia].
    exfalso. destruct Hstop1 as [->|Hstop1]; [lia|].
    rewrite Z.add_0_l in Hstop1.
    apply andb_false_iff in Hstop1 as [Hstop1|Hstop1];
      [apply andb_false_iff in Hstop1 as [Hstop1|Hstop1]|]; bool_hyps; nia.
  - right. apply elem_of_seqZ.
    destruct (Z.le_gt_cases (fixedRows t + rowOffset t + Z.of_nat k2) row)
      as [Hle|Hgt]; [|lia].
    exfalso. destruct Hstop2 as [->|Hstop2]; [lia|].
    apply andb_false_iff in Hstop2 as [Hstop2|Hstop2];
      [apply andb_false_iff in Hstop2 as [Hstop2|Hstop2]|];
      bool_hyps; try discriminate; nia.
Qed.

Lemma small_screenHeightRowsOf (t : Table) (height : Z) :
  small height -> small (screenHeightRowsOf t height).
Proof.
  unfold small, screenHeightRowsOf. intros H.
  destruct (borders t); [|exact H].
  destruct (Z.le_gt_cases 0 height) as [Hh|Hh].
  - rewrite Z.quot_div_nonneg by lia.
    pose proof (Z.mul_div_le height 2 ltac:(lia)).
    pose proof (Z.div_pos height 2 ltac:(lia) ltac:(lia)). lia.
  - pose proof (Z.quot_opp_l (- height) 2 ltac:(lia)) as Ho.
    rewrite Z.opp_involutive in Ho. rewrite Ho.
    rewrite Z.quot_div_nonneg by lia.
    pose proof (Z.mul_div_le (- height) 2 ltac:(lia)).
    pose proof (Z.div_pos (- height) 2 ltac:(lia) ltac:(lia)). lia.
Qed.

(** [calculateVisibleRows] reads the borders, the fixed rows and the
    row offset. *)
Lemma calculateVisibleRows_ext (t t' : Table) (height rowCount : Z) :
  borders t = borders t' -> fixedRows t = fixedRows t' ->
  rowOffset t = rowOffset t' ->
  calculateVisibleRows t height rowCount
  = calculateVisibleRows t' height rowCount.
Proof.
  intros Hb Hf Hr. unfold calculateVisibleRows. rewrite Hb, Hf, Hr.
  reflexivity.
Qed.

(** X18.  The selection clamp on rows.  For a table with rows
    selectable and [clampToSelection] set that is not tracking its end,
    whose selected row is a row of the grid, whose viewport has room for
    a row below the fixed ones, and whose height, row count and row
    offset are far from the ends of the [int] range: whenever
    [clampOffsets] returns (it does when columns are not selectable and
    the column offset is not -1), the row offset it resolves lies in
    [0, max(0, rowCount - visibleRows)], puts the selected row among the
    rows [calculateVisibleRows] shows, and is as close to the former
    offset as any offset of that range that shows the selected row.  For
    100 rows of one column without borders in a viewport of height 10,
    [Select(55, 0)] and a draw resolve the row offset to 46, and row 55
    is the last visible row. *)
Theorem clampOffsets_row_window :
  (forall (t : Table) (height width rowCount columnCount : Z),
      let visible := screenHeightRowsOf t height in
      rowsSelectable t = true -> clampToSelection t = true ->
      trackEnd t = false ->
      0 <= fixedRows t < visible -> 0 <= selectedRow t < rowCount ->
      small height -> small rowCount -> small (rowOffset t) ->
      exists offset,
        (forall t', clampOffsets t height width rowCount columnCount = Some t' ->
                    rowOffset t' = offset
                    /\ selectedRow t' = selectedRow t
                    /\ selectedRow t'
                         ∈ (calculateVisibleRows t' height rowCount).1)
        /\ (columnsSelectable t = false -> columnOffset t <> -1 ->
            is_Some (clampOffsets t height width rowCount columnCount))
        /\ 0 <= offset <= Z.max 0 (rowCount - visible)
        /\ rowShown (fixedRows t) visible offset (selectedRow t)
        /\ (forall o, 0 <= o <= Z.max 0 (rowCount - visible) ->
                      rowShown (fixedRows t) visible o (selectedRow t) ->
                      Z.abs (offset - rowOffset t) <= Z.abs (o - rowOffset t)))
  /\ (let t := Select (set_rowsSelectable true (tableOf (oneColumn 100) 20 10))
                 55 0 in
      exists l, Draw 1 t = Some l
                /\ rowOffset (drawn l) = 46
                /\ rows l = seqZ 46 10
                /\ last (rows l) = Some 55).
Proof.
  split.
  - intros t height width rowCount columnCount visible Hrs Hcl Hte Hf Hsel Hh Hrc Hro.
    pose proof (small_screenHeightRowsOf t height Hh) as Hv. fold visible in Hv.
    exists (rowOffset (clampRowOffset t visible rowCount)).
    destruct (clampRowOffset_spec t visible rowCount Hcl Hrs Hte Hf Hsel Hv Hrc Hro)
      as (Hb & Hs & Hm).
    split; [|split; [|split; [exact Hb|split; [exact Hs|exact Hm]]]].
    + intros t' Ht'. apply clampOffsets_frame in Ht'.
      fold visible in Ht'. set (t1 := clampRowOffset t visible rowCount) in *.
      assert (Ht1 : t1 = set_trackEnd (trackEnd t1)
                           (set_rowOffset (rowOffset t1) t))
        by apply clampRowOffset_frame.
      assert (Hro' : rowOffset t' = rowOffset t1) by (rewrite Ht'; reflexivity).
      assert (Hsr' : selectedRow t' = selectedRow t)
        by (rewrite Ht', Ht1; reflexivity).
      split; [exact Hro'|]. split; [exact Hsr'|]. rewrite Hsr'.
      rewrite (calculateVisibleRows_ext t' (set_rowOffset (rowOffset t1) t))
        by (rewrite Ht', Ht1; reflexivity).
      apply calculateVisibleRows_shows; tsimpl; try assumption; try lia.
      unfold small in *. lia.
    + apply clampOffsets_rows_only_returns.
  - eexists. split; [vm_compute; reflexivity|]. split_and!; reflexivity.
Qed.

(** A witness of [clampOffsets_row_window]: the table of its second
    part. *)
Lemma clampOffsets_row_window_witness :
  let t := Select (set_rowsSelectable true (tableOf (oneColumn 100) 20 10))
             55 0 in
  exists offset,
    (forall t', clampOffsets t 10 20 100 1 = Some t' ->
                rowOffset t' = offset
                /\ selectedRow t' = selectedRow t
                /\ selectedRow t' ∈ (calculateVisibleRows t' 10 100).1)
    /\ (columnsSelectable t = false -> columnOffset t <> -1 ->
        is_Some (clampOffsets t 10 20 100 1))
    /\ 0 <= offset <= Z.max 0 (100 - 10)
    /\ rowShown (fixedRows t) 10 offset (selectedRow t)
    /\ (forall o, 0 <= o <= Z.max 0 (100 - 10) ->
                  rowShown (fixedRows t) 10 o (selectedRow t) ->
                  Z.abs (offset - rowOffset t) <= Z.abs (o - rowOffset t)).
Proof.
  intros t.
  apply (proj1 clampOffsets_row_window t 10 20 100 1);
    try reflexivity; unfold small; cbn; lia.
Defined.

(** C3, at 20 rows in a viewport of height 10: the End key with
    nothing selectable sets [trackEnd]; then rows are made selectable
    and [Select(5, 0)] sets [clampToSelection].  The draw finds row 5
    inside the window of the row offset it starts from, so the selection
    clamp neither moves the offset nor resets [trackEnd]; [trackEnd]
    then forces the row offset to 10, and the selected row 5 is not
    among the visible rows 10..19, although [clampToSelection] is to
    force the selection to remain visible. *)
Lemma clampOffsets_trackEnd_hides_selection :
  let t0 := tableOf (oneColumn 20) 20 10 in
  exists t1, InputHandler 1 t0 KeyEnd = Some t1
  /\ let t := Select (SetTableSelectable t1 true false) 5 0 in
     rowsSelectable t = true /\ clampToSelection t = true
     /\ exists l, Draw 1 t = Some l
                  /\ selectedRow (drawn l) = 5
                  /\ rowOffset (drawn l) = 10
                  /\ rows l = seqZ 10 10
                  /\ ~ 5 ∈ rows l.
Proof.
  eexists. split; [vm_compute; reflexivity|].
  vm_compute. split_and!; try reflexivity.
  eexists. split_and!; try reflexivity.
  intros H. repeat (apply elem_of_cons in H; destruct H as [H|H]; [discriminate H|]).
  apply elem_of_nil in H. exact H.
Qed.

(** ** Continuous horizontal scroll *)

Lemma slice_Some {A} (l : list A) (lo hi : Z) :
  0 <= lo <= hi -> hi <= len l -> is_Some (slice l lo hi).
Proof.
  intros H1 H2. unfold slice.
  destruct (Z.leb_spec 0 lo), (Z.leb_spec lo hi), (Z.leb_spec hi (len l));
    try lia. cbn [andb]. eexists. reflexivity.
Qed.

Lemma calculateColumnWidths_Some (t : Table) :
  0 <= Content.GetColumnCount (content t) ->
  exists widths, calculateColumnWidths t = Some widths
                 /\ len widths = Content.GetColumnCount (content t).
Proof.
  intros H. unfold calculateColumnWidths.
  destruct (Z.ltb_spec (Content.GetColumnCount (content t)) 0); [lia|].
  eexists. split; [reflexivity|].
  unfold len. rewrite length_map, length_seqZ. lia.
Qed.

(** [MaximumXOffset] reads the rectangle, the content, the borders and
    the number of fixed columns. *)
Lemma MaximumXOffset_ext (t t' : Table) :
  box t = box t' -> content t = content t' -> borders t = borders t' ->
  fixedColumns t = fixedColumns t' ->
  MaximumXOffset t = MaximumXOffset t'.
Proof.
  intros Hb Hc Hbo Hf.
  unfold MaximumXOffset, GetInnerRect, calculateColumnWidths,
    effectiveColumnsWidth.
  rewrite Hb, Hc, Hbo, Hf. reflexivity.
Qed.

Lemma MaximumXOffset_Some (t : Table) :
  0 <= fixedColumns t <= Content.GetColumnCount (content t) ->
  exists widths fixed normal,
    calculateColumnWidths t = Some widths
    /\ slice widths 0 (fixedColumns t) = Some fixed
    /\ slice widths (fixedColumns t) (len widths) = Some normal
    /\ MaximumXOffset t =
         Some (Z.max 0 (effectiveColumnsWidth t normal
                        -i (innerWidth (box t) -i effectiveColumnsWidth t fixed)
                        +i 1)).
Proof.
  intros H.
  destruct (calculateColumnWidths_Some t ltac:(lia)) as (widths & Hw & Hlen).
  destruct (slice_Some widths 0 (fixedColumns t) ltac:(lia) ltac:(lia))
    as [fixed Hfx].
  destruct (slice_Some widths (fixedColumns t) (len widths) ltac:(lia) ltac:(lia))
    as [normal Hn].
  exists widths, fixed, normal. split_and!; try assumption.
  unfold MaximumXOffset, GetInnerRect. rewrite Hw. cbn [mbind option_bind].
  rewrite Hfx. cbn [mbind option_bind]. rewrite Hn. reflexivity.
Qed.

Lemma set_xScroll_same (t : Table) : t = set_xScroll (xScroll t) t.
Proof. destruct t; reflexivity. Qed.

(** In continuous-scroll mode the selection clamp moves [xScroll] only,
    and returns when its slices are within the column widths. *)
Lemma clampColumnToSelection_continuous (t : Table) (width columnCount : Z) :
  columnOffset t = -1 ->
  0 <= fixedColumns t <= Content.GetColumnCount (content t) ->
  selectedColumn t < Content.GetColumnCount (content t) ->
  exists x, clampColumnToSelection t width columnCount
            = Some (set_xScroll x t).
Proof.
  intros Hco Hf Hsel. unfold clampColumnToSelection. rewrite Hco.
  cbn [Z.eqb negb Pos.eqb].
  destruct (Z.geb_spec (selectedColumn t) (fixedColumns t)) as [Hge|Hlt].
  2:{ exists (xScroll t). f_equal. apply set_xScroll_same. }
  destruct (calculateColumnWidths_Some t ltac:(lia)) as (widths & Hw & Hlen).
  rewrite Hw. cbn [mbind option_bind].
  destruct (slice_Some widths 0 (fixedColumns t) ltac:(lia) ltac:(lia))
    as [fixed Hfx].
  rewrite Hfx. cbn [mbind option_bind].
  unfold normalColumnLeftRightPositions.
  pose proof (GetColumnCount_in_range (content t)) as Hr. int_hyps.
  destruct (slice_Some widths (fixedColumns t) (selectedColumn t)
              ltac:(lia) ltac:(lia)) as [l Hl].
  rewrite Hl. cbn [mbind option_bind].
  rewrite (add_id (selectedColumn t) 1) by int_solve.
  destruct (slice_Some widths (fixedColumns t) (selectedColumn t + 1)
              ltac:(lia) ltac:(lia)) as [r Hr'].
  rewrite Hr'. cbn [mbind option_bind].
  destruct (Z.ltb _ _); [eexists; reflexivity|].
  destruct (Z.gtb _ _); [eexists; reflexivity|].
  exists (xScroll t). f_equal. apply set_xScroll_same.
Qed.

(** In continuous-scroll mode, [clampOffsets] returns as soon as the
    fixed columns are columns of the grid and a selected column that is
    to be kept visible is one too; it stays in continuous-scroll mode
    and leaves [xScroll] between 0 and [MaximumXOffset]. *)
Lemma clampOffsets_continuous (t : Table)
  (height width rowCount columnCount : Z) :
  columnOffset t = -1 ->
  0 <= fixedColumns t <= Content.GetColumnCount (content t) ->
  (clampToSelection t && columnsSelectable t = true ->
   selectedColumn t < Content.GetColumnCount (content t)) ->
  exists t' m,
    clampOffsets t height width rowCount columnCount = Some t'
    /\ columnOffset t' = -1
    /\ MaximumXOffset t = Some m
    /\ 0 <= xScroll t' <= m.
Proof.
  intros Hco Hf Hsel.
  destruct (MaximumXOffset_Some t Hf) as (widths & fixed & normal & _ & _ & _ & Hm).
  set (m := Z.max 0 _) in Hm.
  unfold clampOffsets.
  set (t1 := clampRowOffset t _ rowCount).
  assert (Ht1 : t1 = set_trackEnd (trackEnd t1) (set_rowOffset (rowOffset t1) t))
    by apply clampRowOffset_frame.
  assert (exists x,
            (if clampToSelection t1 && columnsSelectable t1
             then clampColumnToSelection t1 width columnCount
             else Some t1) = Some (set_xScroll x t1)) as [x Hx].
  { destruct (clampToSelection t1 && columnsSelectable t1) eqn:Hc.
    - apply clampColumnToSelection_continuous; rewrite Ht1; tsimpl;
        try assumption.
      apply Hsel. rewrite Ht1 in Hc. exact Hc.
    - exists (xScroll t1). f_equal. apply set_xScroll_same. }
  rewrite Hx. cbn [mbind option_bind].
  unfold clampHorizontalRange.
  assert (Hco1 : columnOffset (set_xScroll x t1) = -1)
    by (rewrite Ht1; exact Hco).
  rewrite Hco1. cbn [Z.eqb Pos.eqb].
  rewrite (MaximumXOffset_ext (set_xScroll x t1) t)
    by (rewrite Ht1; reflexivity).
  rewrite Hm. cbn [mbind option_bind].
  eexists. exists m. split; [reflexivity|]. tsimpl.
  split; [exact Hco1|]. split; [reflexivity|].
  subst m. lia.
Qed.

(** C5, as the code has it: in continuous-scroll mode, with the fixed
    columns among the columns of the grid (and a selected column that is
    to be kept visible among them too), [clampOffsets] returns, stays in
    continuous-scroll mode, and leaves [xScroll] in
    [0, max(0, totalScrollableWidth - viewportWidth + 1)]: one more than
    the difference of the width of the scrollable columns and the width
    left to them. *)
Theorem xScroll_clamped (t : Table) (height width rowCount columnCount : Z) :
  columnOffset t = -1 ->
  0 <= fixedColumns t <= Content.GetColumnCount (content t) ->
  (clampToSelection t && columnsSelectable t = true ->
   selectedColumn t < Content.GetColumnCount (content t)) ->
  exists t' widths fixed normal,
    clampOffsets t height width rowCount columnCount = Some t'
    /\ columnOffset t' = -1
    /\ calculateColumnWidths t = Some widths
    /\ slice widths 0 (fixedColumns t) = Some fixed
    /\ slice widths (fixedColumns t) (len widths) = Some normal
    /\ let totalScrollableWidth := effectiveColumnsWidth t normal in
       let viewportWidth :=
         innerWidth (box t) -i effectiveColumnsWidth t fixed in
       0 <= xScroll t'
         <= Z.max 0 (totalScrollableWidth -i viewportWidth +i 1).
Proof.
  intros Hco Hf Hsel.
  destruct (clampOffsets_continuous t height width rowCount columnCount
              Hco Hf Hsel) as (t' & m & Ht' & Hco' & Hm & Hx).
  destruct (MaximumXOffset_Some t Hf)
    as (widths & fixed & normal & Hw & Hfx & Hn & Hm').
  rewrite Hm in Hm'. injection Hm' as ->.
  exists t', widths, fixed, normal.
  repeat (split; [assumption|]). cbv zeta. exact Hx.
Qed.

(** A witness of [xScroll_clamped]: one column of width 10 in a
    rectangle of width 5, scrolled to 100. *)
Lemma xScroll_clamped_witness :
  let t := SetXScroll
             (tableOf {| cells := [[textCell "a" 10]]; lastColumn := 0 |} 5 5)
             100 in
  exists t' widths fixed normal,
    clampOffsets t 5 5 1 1 = Some t'
    /\ columnOffset t' = -1
    /\ calculateColumnWidths t = Some widths
    /\ slice widths 0 (fixedColumns t) = Some fixed
    /\ slice widths (fixedColumns t) (len widths) = Some normal
    /\ let totalScrollableWidth := effectiveColumnsWidth t normal in
       let viewportWidth :=
         innerWidth (box t) -i effectiveColumnsWidth t fixed in
       0 <= xScroll t'
         <= Z.max 0 (totalScrollableWidth -i viewportWidth +i 1).
Proof.
  intros t. apply (xScroll_clamped t 5 5 1 1).
  - reflexivity.
  - vm_compute. split; discriminate.
  - vm_compute. discriminate.
Defined.

(** C5 fails as stated: one scrollable column of width 10 in a viewport
    of width 5, scrolled to 100.  The draw leaves [xScroll] at 6, above
    [totalScrollableWidth - viewportWidth = 5]. *)
Lemma xScroll_one_past_the_bound :
  let t := SetXScroll
             (tableOf {| cells := [[textCell "a" 10]]; lastColumn := 0 |} 5 5)
             100 in
  exists l normal,
    Draw 1 t = Some l
    /\ columnOffset (drawn l) = -1
    /\ fixedColumnsWidth l = 0
    /\ slice (columnWidths l) (fixedColumns t) (len (columnWidths l))
       = Some normal
    /\ let totalScrollableWidth := effectiveColumnsWidth t normal in
       let viewportWidth := innerWidth (box t) - fixedColumnsWidth l in
       totalScrollableWidth = 10 /\ viewportWidth = 5
       /\ xScroll (drawn l) = 6
       /\ ~ (0 <= xScroll (drawn l)
               <= Z.max 0 (totalScrollableWidth - viewportWidth)).
Proof.
  do 2 eexists.
  do 4 (split; [vm_compute; reflexivity|]).
  vm_compute. split_and!; try reflexivity.
  intros [_ H]. apply H. reflexivity.
Qed.

(** ** Exclusive horizontal offset modes *)

Lemma clampRowOffset_set_xScroll (x : Z) (t : Table) (H rowCount : Z) :
  clampRowOffset (set_xScroll x t) H rowCount
  = set_xScroll x (clampRowOffset t H rowCount).
Proof.
  unfold clampRowOffset. tsimpl.
  repeat (innermost_if; tsimpl); reflexivity.
Qed.

Lemma clampColumnLoop_set_xScroll (x : Z) (widths : list Z)
  (effectiveWidth maxColumnOffset : Z) :
  forall (fuel : nat) (t : Table),
    clampColumnLoop fuel widths effectiveWidth maxColumnOffset (set_xScroll x t)
    = set_xScroll x
        <$> clampColumnLoop fuel widths effectiveWidth maxColumnOffset t.
Proof.
  induction fuel as [|fuel IH]; intros t; [reflexivity|].
  cbn [clampColumnLoop]. tsimpl.
  destruct (slice widths _ _) as [edge|]; [|reflexivity].
  cbn [mbind option_bind].
  change (effectiveColumnsWidth (set_xScroll x t) edge)
    with (effectiveColumnsWidth t edge).
  destruct (_ || _); [|reflexivity].
  destruct (Z.geb _ _); [reflexivity|].
  apply (IH (set_columnOffset (columnOffset t +i 1) t)).
Qed.

Lemma clampColumnLoop_nonneg (widths : list Z)
  (effectiveWidth maxColumnOffset : Z) :
  GoInt.in_range maxColumnOffset ->
  forall (fuel : nat) (t t' : Table),
    0 <= columnOffset t ->
    clampColumnLoop fuel widths effectiveWidth maxColumnOffset t = Some t' ->
    0 <= columnOffset t'.
Proof.
  intros Hm. int_hyps.
  induction fuel as [|fuel IH]; intros t t' Hco H; [discriminate|].
  cbn [clampColumnLoop] in H.
  destruct (slice widths _ _) as [edge|]; [|discriminate].
  cbn [mbind option_bind] in H.
  destruct (_ || _).
  - destruct (Z.geb_spec (columnOffset t) maxColumnOffset).
    + injection H as <-. exact Hco.
    + apply IH in H; [exact H|]. tsimpl. unwrap. lia.
  - injection H as <-. exact Hco.
Qed.

(** In discrete mode the selection clamp does not read [xScroll]. *)
Lemma clampColumnToSelection_set_xScroll (x : Z) (t : Table)
  (width columnCount : Z) :
  columnOffset t <> -1 ->
  clampColumnToSelection (set_xScroll x t) width columnCount
  = set_xScroll x <$> clampColumnToSelection t width columnCount.
Proof.
  intros Hco. unfold clampColumnToSelection. tsimpl.
  destruct (Z.eqb_spec (columnOffset t) (-1)); [contradiction|].
  cbn [negb].
  destruct (_ && _); tsimpl.
  - destruct (Z.geb _ _); [|reflexivity].
    change (calculateColumnWidths (set_columnOffset _ (set_xScroll x t)))
      with (calculateColumnWidths (set_columnOffset
                                     (selectedColumn t -i fixedColumns t) t)).
    destruct (calculateColumnWidths _) as [ws|]; [|reflexivity].
    cbn [mbind option_bind].
    destruct (slice ws 0 _) as [fx|]; [|reflexivity].
    cbn [mbind option_bind].
    apply (clampColumnLoop_set_xScroll x ws _ _ _
             (set_columnOffset (selectedColumn t -i fixedColumns t) t)).
  - destruct (Z.geb _ _); [|reflexivity].
    change (calculateColumnWidths (set_xScroll x t))
      with (calculateColumnWidths t).
    destruct (calculateColumnWidths _) as [ws|]; [|reflexivity].
    cbn [mbind option_bind].
    destruct (slice ws 0 _) as [fx|]; [|reflexivity].
    cbn [mbind option_bind].
    apply clampColumnLoop_set_xScroll.
Qed.

Lemma clampColumnToSelection_nonneg (t t' : Table) (width columnCount : Z) :
  0 <= columnOffset t -> 0 <= fixedColumns t ->
  GoInt.in_range (selectedColumn t) ->
  clampColumnToSelection t width columnCount = Some t' ->
  0 <= columnOffset t'.
Proof.
  intros Hco Hf Hs H. int_hyps. unfold clampColumnToSelection in H.
  destruct (Z.eqb_spec (columnOffset t) (-1)); [lia|].
  cbn [negb] in H.
  destruct (_ && _) eqn:Hc; tsimpl.
  - bool_hyps.
    destruct (Z.geb _ _).
    + destruct (calculateColumnWidths _); [|discriminate].
      cbn [mbind option_bind] in H.
      destruct (slice _ _ _); [|discriminate].
      cbn [mbind option_bind] in H.
      eapply clampColumnLoop_nonneg in H; [exact H | apply wrap_in_range |].
      tsimpl. unwrap. lia.
    + injection H as <-. tsimpl. unwrap. lia.
  - destruct (Z.geb _ _).
    + destruct (calculateColumnWidths _); [|discriminate].
      cbn [mbind option_bind] in H.
      destruct (slice _ _ _); [|discriminate].
      cbn [mbind option_bind] in H.
      eapply clampColumnLoop_nonneg in H; [exact H | apply wrap_in_range |].
      exact Hco.
    + injection H as <-. exact Hco.
Qed.

(** In discrete mode the range clamp does not read [xScroll], and ends
    on a column offset of at least 0. *)
Lemma clampHorizontalRange_discrete (t : Table) (columnCount : Z) :
  columnOffset t <> -1 ->
  exists t', clampHorizontalRange t columnCount = Some t'
             /\ 0 <= columnOffset t' /\ xScroll t' = xScroll t
             /\ (0 <= columnOffset t < columnCount -i fixedColumns t ->
                 columnOffset t' = columnOffset t)
             /\ forall x, clampHorizontalRange (set_xScroll x t) columnCount
                          = Some (set_xScroll x t').
Proof.
  intros Hco. unfold clampHorizontalRange. tsimpl.
  destruct (Z.eqb_spec (columnOffset t) (-1)); [contradiction|].
  eexists. split; [reflexivity|].
  destruct (Z.geb_spec (columnOffset t) (columnCount -i fixedColumns t));
    tsimpl; match goal with |- context [Z.ltb ?a 0] =>
                              destruct (Z.ltb_spec a 0) end;
    tsimpl; split_and!; try reflexivity; try lia.
Qed.

(** In discrete mode, [clampOffsets] neither reads nor writes
    [xScroll], and ends on a column offset of at least 0. *)
Lemma clampOffsets_discrete (t : Table) (height width rowCount columnCount : Z) :
  0 <= columnOffset t -> 0 <= fixedColumns t ->
  GoInt.in_range (selectedColumn t) ->
  (forall x,
      clampOffsets (set_xScroll x t) height width rowCount columnCount
      = set_xScroll x <$> clampOffsets t height width rowCount columnCount)
  /\ (forall t',
        clampOffsets t height width rowCount columnCount = Some t' ->
        0 <= columnOffset t' /\ xScroll t' = xScroll t)
  /\ (clampToSelection t && columnsSelectable t = false ->
      exists t',
        clampOffsets t height width rowCount columnCount = Some t'
        /\ (columnOffset t < columnCount -i fixedColumns t ->
            columnOffset t' = columnOffset t)).
Proof.
  intros Hco Hf Hs.
  assert (Hgen : forall x,
    clampOffsets (set_xScroll x t) height width rowCount columnCount
    = set_xScroll x <$> clampOffsets t height width rowCount columnCount
    /\ forall t', clampOffsets t height width rowCount columnCount = Some t' ->
                  0 <= columnOffset t'
                  /\ (clampToSelection t && columnsSelectable t = false ->
                      columnOffset t < columnCount -i fixedColumns t ->
                      columnOffset t' = columnOffset t)).
  { intros x. unfold clampOffsets. tsimpl.
    rewrite clampRowOffset_set_xScroll.
    set (t1 := clampRowOffset t _ rowCount).
    assert (Ht1 : t1 = set_trackEnd (trackEnd t1)
                         (set_rowOffset (rowOffset t1) t))
      by apply clampRowOffset_frame.
    assert (Hco1 : columnOffset t1 = columnOffset t) by (rewrite Ht1; reflexivity).
    assert (Hf1 : fixedColumns t1 = fixedColumns t) by (rewrite Ht1; reflexivity).
    assert (Hs1 : selectedColumn t1 = selectedColumn t) by (rewrite Ht1; reflexivity).
    assert (Hc1 : clampToSelection t1 && columnsSelectable t1
                  = clampToSelection t && columnsSelectable t)
      by (rewrite Ht1; reflexivity).
    tsimpl.
    destruct (clampToSelection t1 && columnsSelectable t1) eqn:Hc.
    - rewrite clampColumnToSelection_set_xScroll by lia.
      destruct (clampColumnToSelection t1 width columnCount) as [t2|] eqn:H2;
        [|split; [reflexivity | discriminate]].
      cbn [fmap option_fmap option_map mbind option_bind].
      assert (Hco2 : 0 <= columnOffset t2).
      { eapply clampColumnToSelection_nonneg; [| | |exact H2]; congruence. }
      destruct (clampHorizontalRange_discrete t2 columnCount ltac:(lia))
        as (t3 & H3 & Hco3 & _ & _ & Hx3).
      rewrite Hx3, H3. cbn [mbind option_bind]. split; [reflexivity|].
      intros t' Ht'. injection Ht' as <-. tsimpl. split; [exact Hco3|].
      rewrite <- Hc1. discriminate.
    - destruct (clampHorizontalRange_discrete t1 columnCount ltac:(lia))
        as (t3 & H3 & Hco3 & _ & Hsame & Hx3).
      cbn [mbind option_bind]. rewrite Hx3, H3. cbn [mbind option_bind].
      split; [reflexivity|].
      intros t' Ht'. injection Ht' as <-. tsimpl. split; [exact Hco3|].
      intros _ Hlt. rewrite Hsame; [congruence|]. rewrite Hco1, Hf1. lia. }
  split; [intros x; apply Hgen|]. split.
  - intros t' Ht'. split; [apply (Hgen 0); exact Ht'|].
    destruct (Hgen (xScroll t)) as [Hx _].
    rewrite <- set_xScroll_same, Ht' in Hx.
    injection Hx as Hx. rewrite Hx. reflexivity.
  - intros Hc.
    destruct (clampOffsets t height width rowCount columnCount) as [t'|] eqn:Ht'.
    + exists t'. split; [reflexivity|]. intros Hlt.
      apply (Hgen 0); [reflexivity | assumption..].
    + exfalso. revert Ht'. unfold clampOffsets.
      set (t1 := clampRowOffset t _ rowCount).
      assert (Ht1 : t1 = set_trackEnd (trackEnd t1)
                           (set_rowOffset (rowOffset t1) t))
        by apply clampRowOffset_frame.
      replace (clampToSelection t1 && columnsSelectable t1) with false
        by (rewrite Ht1; symmetry; exact Hc).
      cbn [mbind option_bind].
      destruct (clampHorizontalRange_discrete t1 columnCount) as (t3 & H3 & _).
      { rewrite Ht1. tsimpl. lia. }
      rewrite H3. discriminate.
Qed.

(** In continuous-scroll mode, [clampOffsets] stays in that mode. *)
Lemma clampOffsets_keeps_continuous (t t' : Table)
  (height width rowCount columnCount : Z) :
  columnOffset t = -1 ->
  clampOffsets t height width rowCount columnCount = Some t' ->
  columnOffset t' = -1.
Proof.
  intros Hco. unfold clampOffsets.
  set (t1 := clampRowOffset t _ rowCount).
  assert (Ht1 : t1 = set_trackEnd (trackEnd t1)
                       (set_rowOffset (rowOffset t1) t))
    by apply clampRowOffset_frame.
  assert (Hco1 : columnOffset t1 = -1) by (rewrite Ht1; exact Hco).
  intros H.
  destruct (if clampToSelection t1 && columnsSelectable t1
            then clampColumnToSelection t1 width columnCount
            else Some t1) as [t2|] eqn:H2; [|discriminate].
  cbn [mbind option_bind] in H.
  assert (Hco2 : columnOffset t2 = -1).
  { destruct (_ && _); [|injection H2 as <-; exact Hco1].
    unfold clampColumnToSelection in H2. rewrite Hco1 in H2.
    cbn [Z.eqb Pos.eqb negb] in H2.
    destruct (Z.geb _ _); [|injection H2 as <-; exact Hco1].
    destruct (calculateColumnWidths _); [|discriminate].
    cbn [mbind option_bind] in H2.
    destruct (slice _ _ _); [|discriminate].
    cbn [mbind option_bind] in H2.
    destruct (normalColumnLeftRightPositions _ _ _) as [[le ri]|];
      [|discriminate].
    cbn [mbind option_bind] in H2.
    destruct (Z.ltb _ _); [injection H2 as <-; exact Hco1|].
    destruct (Z.gtb _ _); injection H2 as <-; exact Hco1. }
  unfold clampHorizontalRange in H. rewrite Hco2 in H.
  cbn [Z.eqb Pos.eqb] in H.
  destruct (MaximumXOffset t2); [|discriminate].
  cbn [mbind option_bind] in H. injection H as <-. exact Hco2.
Qed.

(** With a discrete column offset and no selection clamp on columns
    pending, [clampOffsets] ends on the column offset clamped to the
    columns of the grid. *)
Lemma clampOffsets_discrete_value (t t' : Table)
  (height width rowCount columnCount : Z) :
  columnOffset t <> -1 ->
  clampToSelection t && columnsSelectable t = false ->
  clampOffsets t height width rowCount columnCount = Some t' ->
  columnOffset t' = clampedColumnOffset t columnCount.
Proof.
  intros Hco Hc. unfold clampOffsets.
  set (t1 := clampRowOffset t _ rowCount).
  assert (Ht1 : t1 = set_trackEnd (trackEnd t1)
                       (set_rowOffset (rowOffset t1) t))
    by apply clampRowOffset_frame.
  replace (clampToSelection t1 && columnsSelectable t1) with false
    by (rewrite Ht1; symmetry; exact Hc).
  assert (Hco1 : columnOffset t1 = columnOffset t)
    by (rewrite Ht1; reflexivity).
  assert (Hfc1 : fixedColumns t1 = fixedColumns t)
    by (rewrite Ht1; reflexivity).
  clearbody t1. clear Ht1.
  cbn [mbind option_bind]. unfold clampHorizontalRange, clampedColumnOffset.
  rewrite Hco1, Hfc1.
  destruct (Z.eqb_spec (columnOffset t) (-1)); [contradiction|].
  cbn [mbind option_bind]. intros H. injection H as <-. tsimpl.
  destruct (columnOffset t >=? columnCount -i fixedColumns t); tsimpl;
    rewrite ?Hco1;
    match goal with |- context [Z.ltb ?a 0] => destruct (Z.ltb a 0) end;
    tsimpl; rewrite ?Hco1; reflexivity.
Qed.

(** C4, as the code has it: after [SetXScroll(x)] the discrete column
    offset reads -1 and the horizontal offset of the layout is
    [xScroll]; the offset resolution of a draw, whenever it returns,
    keeps that mode (it returns when the fixed columns are columns of
    the grid and a pending selection clamp on columns has its selected
    column below the column count).  After a following
    [SetOffset(row, col)] with [col >= 0], on a table with
    [fixedColumns >= 0], the column offset reads [col]; the offset
    resolution neither reads nor writes the stored [xScroll] and,
    whenever it returns, ends on a column offset of at least 0, and the
    horizontal offset of the layout does not depend on [xScroll].  With
    no selection clamp on columns pending the resolution returns, and
    the column offset it ends on is [col] itself if
    [col < columnCount - fixedColumns], and otherwise the last column
    offset of the grid, [max(0, columnCount - fixedColumns - 1)].  For
    five columns of widths 2, 3, 4, 5, 6, [SetXScroll(5)] draws at pixel
    offset 5, and a following [SetOffset(0, 3)] draws at column offset
    3, that is 2 + 3 + 4 + 3 = 12 screen columns, with 5 still stored
    in [xScroll]. *)
Theorem offset_modes_exclusive :
  (forall (t : Table) (x : Z),
      snd (GetOffset (SetXScroll t x)) = -1
      /\ forall widths, effectiveXOffset (SetXScroll t x) widths = Some x)
  /\ (forall (t : Table) (x height width rowCount columnCount : Z),
         (0 <= fixedColumns t <= Content.GetColumnCount (content t) ->
          (clampToSelection t && columnsSelectable t = true ->
           selectedColumn t < Content.GetColumnCount (content t)) ->
          is_Some (clampOffsets (SetXScroll t x) height width
                     rowCount columnCount))
         /\ forall t1,
             clampOffsets (SetXScroll t x) height width rowCount columnCount
             = Some t1 ->
             columnOffset t1 = -1
             /\ forall widths, effectiveXOffset t1 widths = Some (xScroll t1))
  /\ (forall (t : Table) (x row col height width rowCount columnCount : Z),
         0 <= col -> 0 <= fixedColumns t ->
         GoInt.in_range (selectedColumn t) ->
         let t2 := SetOffset (SetXScroll t x) row col in
         snd (GetOffset t2) = col
         /\ (forall x',
                clampOffsets (set_xScroll x' t2) height width
                  rowCount columnCount
                = set_xScroll x'
                    <$> clampOffsets t2 height width rowCount columnCount)
         /\ (forall t3,
                clampOffsets t2 height width rowCount columnCount = Some t3 ->
                0 <= columnOffset t3 /\ xScroll t3 = x
                /\ forall x' widths,
                    effectiveXOffset (set_xScroll x' t3) widths
                    = effectiveXOffset t3 widths)
         /\ (clampToSelection t && columnsSelectable t = false ->
             exists t3,
               clampOffsets t2 height width rowCount columnCount = Some t3
               /\ (col < columnCount -i fixedColumns t ->
                   columnOffset t3 = col)
               /\ (columnCount -i fixedColumns t <= col ->
                   columnOffset t3
                   = Z.max 0 (columnCount -i fixedColumns t -i 1))))
  /\ (let t := tableOf fiveColumns 10 5 in
      (exists l, Draw 1 (SetXScroll t 5) = Some l
                 /\ columnOffset (drawn l) = -1 /\ xOffset l = 5)
      /\ (exists l, Draw 1 (SetOffset (SetXScroll t 5) 0 3) = Some l
                    /\ columnOffset (drawn l) = 3
                    /\ xScroll (drawn l) = 5
                    /\ xOffset l = 2 + 3 + 4 + 3)).
Proof.
  split_and!.
  - intros t x. split; reflexivity.
  - intros t x height width rowCount columnCount. split.
    + intros Hf Hs.
      destruct (clampOffsets_continuous (SetXScroll t x) height width
                  rowCount columnCount eq_refl Hf Hs) as (t1 & m & H1 & _).
      exists t1. exact H1.
    + intros t1 H1.
      apply clampOffsets_keeps_continuous in H1; [|reflexivity].
      split; [exact H1|]. intros widths. unfold effectiveXOffset.
      rewrite H1. reflexivity.
  - intros t x row col height width rowCount columnCount Hcol Hf Hs t2.
    destruct (clampOffsets_discrete t2 height width rowCount columnCount
                Hcol Hf Hs) as (Hx & Ht3 & Hex).
    split; [reflexivity|]. split; [exact Hx|]. split.
    + intros t3 H3. destruct (Ht3 t3 H3) as [Hco3 Hxs3].
      split; [exact Hco3|]. split; [exact Hxs3|].
      intros x' widths. unfold effectiveXOffset. tsimpl.
      destruct (Z.eqb_spec (columnOffset t3) (-1)); [lia|]. reflexivity.
    + intros Hclamp. destruct (Hex Hclamp) as (t3 & H3 & Hsame).
      exists t3. split; [exact H3|]. split; [exact Hsame|].
      intros Hbeyond.
      rewrite (clampOffsets_discrete_value t2 t3 _ _ _ _
                 ltac:(subst t2; unfold SetOffset; tsimpl; lia) Hclamp H3).
      unfold clampedColumnOffset. subst t2. unfold SetOffset, SetXScroll.
      tsimpl.
      destruct (Z.geb_spec col (columnCount -i fixedColumns t)); [|lia].
      destruct (Z.ltb_spec (columnCount -i fixedColumns t -i 1) 0); lia.
  - split.
    + eexists. split; [vm_compute; reflexivity|]. split; reflexivity.
    + eexists. split; [vm_compute; reflexivity|]. split_and!; reflexivity.
Qed.

(** A witness of [offset_modes_exclusive]: the table of its last part. *)
Lemma offset_modes_exclusive_witness :
  let t := tableOf fiveColumns 10 5 in
  is_Some (clampOffsets (SetXScroll t 5) 5 10 1 5)
  /\ (let t2 := SetOffset (SetXScroll t 5) 0 3 in
      snd (GetOffset t2) = 3
      /\ (forall x',
             clampOffsets (set_xScroll x' t2) 5 10 1 5
             = set_xScroll x' <$> clampOffsets t2 5 10 1 5)
      /\ (forall t3,
             clampOffsets t2 5 10 1 5 = Some t3 ->
             0 <= columnOffset t3 /\ xScroll t3 = 5
             /\ forall x' widths,
                 effectiveXOffset (set_xScroll x' t3) widths
                 = effectiveXOffset t3 widths)
      /\ (clampToSelection t && columnsSelectable t = false ->
          exists t3,
            clampOffsets t2 5 10 1 5 = Some t3
            /\ (3 < 5 -i fixedColumns t -> columnOffset t3 = 3)
            /\ (5 -i fixedColumns t <= 3 ->
                columnOffset t3 = Z.max 0 (5 -i fixedColumns t -i 1)))).
Proof.
  intros t. split.
  - apply (proj1 (proj1 (proj2 offset_modes_exclusive) t 5 5 10 1 5)).
    + vm_compute. split; discriminate.
    + vm_compute. discriminate.
  - apply (proj1 (proj2 (proj2 offset_modes_exclusive)) t 5 0 3 5 10 1 5).
    + lia.
    + vm_compute. discriminate.
    + vm_compute. split; discriminate.
Defined.

(** C4 fails as stated: on five columns, [SetXScroll(5)] followed by
    [SetOffset(0, 7)] reads back the column offset 7, which is not
    negative, but the draw uses the discrete column offset 4, that of
    the last column, and not 7. *)
Lemma SetOffset_beyond_the_last_column :
  let t := SetOffset (SetXScroll (tableOf fiveColumns 10 5) 5) 0 7 in
  GetColumnCount t = 5 /\ snd (GetOffset t) = 7 /\ 0 <= 7
  /\ exists l, Draw 1 t = Some l
               /\ columnOffset (drawn l) = 4
               /\ columnOffset (drawn l) <> 7
               /\ xOffset l = 2 + 3 + 4 + 5 + 4.
Proof.
  split; [reflexivity|]. split; [reflexivity|]. split; [lia|].
  eexists. split; [vm_compute; reflexivity|].
  split_and!; [reflexivity | discriminate | reflexivity].
Qed.

(** ** Directed scans *)

Lemma cellIndex_bounds (RC LC row column : Z) :
  inGrid RC LC row column ->
  0 <= cellIndex (LC + 1) row column < RC * (LC + 1).
Proof.
  unfold inGrid, cellIndex. intros [Hr Hc].
  assert (0 <= (RC - 1 - row) * (LC + 1)) by (apply Z.mul_nonneg_nonneg; lia).
  assert (0 <= row * (LC + 1)) by (apply Z.mul_nonneg_nonneg; lia).
  lia.
Qed.

Lemma cellIndex_inj (RC LC row column row' column' : Z) :
  inGrid RC LC row column -> inGrid RC LC row' column' ->
  cellIndex (LC + 1) row column = cellIndex (LC + 1) row' column' ->
  row = row' /\ column = column'.
Proof.
  unfold inGrid, cellIndex. intros [Hr Hc] [Hr' Hc'] H.
  assert (row = row'); [|subst; lia].
  destruct (Z.lt_trichotomy row row') as [Hlt|[Heq|Hgt]]; [|exact Heq|].
  - assert (0 <= (row' - row - 1) * (LC + 1))
      by (apply Z.mul_nonneg_nonneg; lia). lia.
  - assert (0 <= (row - row' - 1) * (LC + 1))
      by (apply Z.mul_nonneg_nonneg; lia). lia.
Qed.

Lemma cellIndex_last (RC LC row : Z) :
  cellIndex (LC + 1) (RC - 1) LC = RC * (LC + 1) - 1.
Proof. unfold cellIndex. lia. Qed.

Lemma cellIndex_next_row (LC row : Z) :
  cellIndex (LC + 1) (row + 1) 0 = cellIndex (LC + 1) row LC + 1.
Proof. unfold cellIndex. lia. Qed.

Lemma stepsForward_bounds (N i j : Z) :
  0 <= i < N -> 0 <= j < N -> 0 <= stepsForward N i j < N.
Proof. unfold stepsForward. destruct (Z.leb_spec i j); lia. Qed.

Lemma stepsForward_succ (N i j : Z) :
  0 <= i < N -> 0 <= j < N -> i <> j ->
  stepsForward N (if i + 1 <? N then i + 1 else 0) j
  = stepsForward N i j - 1.
Proof.
  unfold stepsForward. intros.
  destruct (Z.ltb_spec (i + 1) N), (Z.leb_spec i j);
    match goal with |- context [Z.leb ?a ?b] => destruct (Z.leb_spec a b) end;
    lia.
Qed.

Lemma stepsForward_pred (N i j : Z) :
  0 <= i < N -> 0 <= j < N -> i <> j ->
  stepsForward N j (if i - 1 <? 0 then N - 1 else i - 1)
  = stepsForward N j i - 1.
Proof.
  unfold stepsForward. intros.
  destruct (Z.ltb_spec (i - 1) 0), (Z.leb_spec j i);
    match goal with |- context [Z.leb ?a ?b] => destruct (Z.leb_spec a b) end;
    lia.
Qed.

Lemma nextCell_index (RC LC row column : Z) :
  inGrid RC LC row column ->
  let '(r, c) := nextCell RC LC row column in
  inGrid RC LC r c
  /\ cellIndex (LC + 1) r c
     = (if cellIndex (LC + 1) row column + 1 <? RC * (LC + 1)
        then cellIndex (LC + 1) row column + 1 else 0).
Proof.
  intros Hg. pose proof (cellIndex_bounds _ _ _ _ Hg) as Hb.
  unfold inGrid, nextCell, cellIndex in *. destruct Hg as [Hr Hc].
  destruct (Z.gtb_spec (column + 1) LC).
  - assert (column = LC) by lia. subst column.
    destruct (Z.geb_spec (row + 1) RC).
    + assert (row = RC - 1) by lia. subst row. split; [lia|].
      destruct (Z.ltb_spec ((RC - 1) * (LC + 1) + LC + 1) (RC * (LC + 1)));
        lia.
    + split; [lia|].
      assert (0 <= (RC - 2 - row) * (LC + 1))
        by (apply Z.mul_nonneg_nonneg; lia).
      destruct (Z.ltb_spec (row * (LC + 1) + LC + 1) (RC * (LC + 1))); lia.
  - split; [lia|].
    assert (0 <= (RC - 1 - row) * (LC + 1))
      by (apply Z.mul_nonneg_nonneg; lia).
    destruct (Z.ltb_spec (row * (LC + 1) + column + 1) (RC * (LC + 1))); lia.
Qed.

Lemma prevCell_index (RC LC row column : Z) :
  inGrid RC LC row column ->
  let '(r, c) := prevCell RC LC row column in
  inGrid RC LC r c
  /\ cellIndex (LC + 1) r c
     = (if cellIndex (LC + 1) row column - 1 <? 0
        then RC * (LC + 1) - 1 else cellIndex (LC + 1) row column - 1).
Proof.
  intros Hg. pose proof (cellIndex_bounds _ _ _ _ Hg) as Hb.
  unfold inGrid, prevCell, cellIndex in *. destruct Hg as [Hr Hc].
  destruct (Z.ltb_spec (column - 1) 0).
  - assert (column = 0) by lia. subst column.
    destruct (Z.ltb_spec (row - 1) 0).
    + assert (row = 0) by lia. subst row. split; [lia|].
      destruct (Z.ltb_spec (0 * (LC + 1) + 0 - 1) 0); lia.
    + split; [lia|].
      assert (0 <= (row - 1) * (LC + 1)) by (apply Z.mul_nonneg_nonneg; lia).
      destruct (Z.ltb_spec (row * (LC + 1) + 0 - 1) 0); lia.
  - split; [lia|].
    assert (0 <= row * (LC + 1)) by (apply Z.mul_nonneg_nonneg; lia).
    destruct (Z.ltb_spec (row * (LC + 1) + column - 1) 0); lia.
Qed.

(** One pass of the loop of [moveSelectionForward] from a cell of the
    grid. *)
Lemma forwardScan_step (fuel : nat) (c : tableDefaultContent)
  (LC RC fr fc row column : Z) :
  LC < GoInt.max_int -> RC <= GoInt.max_int -> inGrid RC LC row column ->
  forwardScan (S fuel) c LC RC fr fc row column =
    if selectableAt c row column then Some (Some (row, column))
    else if (row =? fr) && (column =? fc) then Some None
    else let '(r, c') := nextCell RC LC row column in
         forwardScan fuel c LC RC fr fc r c'.
Proof.
  unfold GoInt.max_int, inGrid, nextCell. intros HLC HRC [Hr Hc].
  cbn [forwardScan].
  destruct (selectableAt c row column); [reflexivity|].
  destruct ((row =? fr) && (column =? fc)); [reflexivity|].
  unwrap.
  destruct (Z.gtb_spec (column + 1) LC); [|reflexivity].
  destruct (Z.geb_spec (row + 1) RC); reflexivity.
Qed.

Lemma backwardScan_step (fuel : nat) (c : tableDefaultContent)
  (LC RC fr fc row column : Z) :
  LC < GoInt.max_int -> RC <= GoInt.max_int -> inGrid RC LC row column ->
  backwardScan (S fuel) c LC RC fr fc row column =
    if selectableAt c row column then Some (Some (row, column))
    else if (row =? fr) && (column =? fc) then Some None
    else let '(r, c') := prevCell RC LC row column in
         backwardScan fuel c LC RC fr fc r c'.
Proof.
  unfold GoInt.max_int, inGrid, prevCell. intros HLC HRC [Hr Hc].
  cbn [backwardScan].
  destruct (selectableAt c row column); [reflexivity|].
  destruct ((row =? fr) && (column =? fc)); [reflexivity|].
  unwrap.
  destruct (Z.ltb_spec (column - 1) 0); [|reflexivity].
  destruct (Z.ltb_spec (row - 1) 0); reflexivity.
Qed.

Lemma forwardScan_spec (c : tableDefaultContent) (LC RC fr fc : Z) :
  LC < GoInt.max_int -> RC <= GoInt.max_int -> inGrid RC LC fr fc ->
  forall (fuel : nat) (row column : Z),
    inGrid RC LC row column ->
    stepsForward (RC * (LC + 1)) (cellIndex (LC + 1) row column)
      (cellIndex (LC + 1) fr fc) < Z.of_nat fuel ->
    exists res,
      forwardScan fuel c LC RC fr fc row column = Some res
      /\ scanResult c RC LC (stepsForward (RC * (LC + 1)))
           (cellIndex (LC + 1) row column) (cellIndex (LC + 1) fr fc) res.
Proof.
  intros HLC HRC Hf. set (N := RC * (LC + 1)).
  pose proof (cellIndex_bounds _ _ _ _ Hf) as Hfb. fold N in Hfb.
  induction fuel as [|fuel IH]; intros row column Hg Hd.
  { pose proof (cellIndex_bounds _ _ _ _ Hg) as Hb. fold N in Hb.
    pose proof (stepsForward_bounds N _ _ Hb Hfb). lia. }
  pose proof (cellIndex_bounds _ _ _ _ Hg) as Hb. fold N in Hb.
  rewrite forwardScan_step by assumption.
  destruct (selectableAt c row column) eqn:Hsel.
  { eexists. split; [reflexivity|]. split; assumption. }
  assert (Hself : forall r c', inGrid RC LC r c' ->
            stepsForward N (cellIndex (LC + 1) row column)
              (cellIndex (LC + 1) r c') = 0 ->
            selectableAt c r c' = false).
  { intros r c' Hg' H0.
    pose proof (cellIndex_bounds _ _ _ _ Hg') as Hb'. fold N in Hb'.
    assert (cellIndex (LC + 1) r c' = cellIndex (LC + 1) row column).
    { revert H0. unfold stepsForward.
      destruct (Z.leb_spec (cellIndex (LC + 1) row column)
                  (cellIndex (LC + 1) r c')); lia. }
    destruct (cellIndex_inj _ _ _ _ _ _ Hg' Hg); [assumption|].
    subst. exact Hsel. }
  destruct ((row =? fr) && (column =? fc)) eqn:Hfin.
  { bool_hyps. subst. eexists. split; [reflexivity|].
    intros r c' Hg' Hle. apply Hself; [assumption|].
    pose proof (cellIndex_bounds _ _ _ _ Hg') as Hb'. fold N in Hb'.
    pose proof (stepsForward_bounds N _ _ Hb Hb').
    revert Hle. unfold stepsForward at 2. rewrite Z.leb_refl. lia. }
  assert (Hne : cellIndex (LC + 1) row column <> cellIndex (LC + 1) fr fc).
  { intros Heq. destruct (cellIndex_inj _ _ _ _ _ _ Hg Hf Heq). subst.
    rewrite !Z.eqb_refl in Hfin. discriminate. }
  pose proof (nextCell_index RC LC row column Hg) as Hn.
  destruct (nextCell RC LC row column) as [r1 c1]. destruct Hn as [Hg1 Hi1].
  fold N in Hi1.
  destruct (IH r1 c1 Hg1) as (res & Hres & Hspec).
  { rewrite Hi1, stepsForward_succ by assumption. lia. }
  exists res. split; [exact Hres|].
  destruct res as [[r' c']|]; [exact Hspec|].
  intros r c' Hg' Hle.
  pose proof (cellIndex_bounds _ _ _ _ Hg') as Hb'. fold N in Hb'.
  destruct (Z.eq_dec (cellIndex (LC + 1) row column) (cellIndex (LC + 1) r c'))
    as [Heq|Hneq].
  - apply Hself; [assumption|]. rewrite <- Heq.
    unfold stepsForward. rewrite Z.leb_refl. lia.
  - apply Hspec; [assumption|].
    rewrite Hi1, !stepsForward_succ by assumption. lia.
Qed.

Lemma backwardScan_spec (c : tableDefaultContent) (LC RC fr fc : Z) :
  LC < GoInt.max_int -> RC <= GoInt.max_int -> inGrid RC LC fr fc ->
  forall (fuel : nat) (row column : Z),
    inGrid RC LC row column ->
    stepsForward (RC * (LC + 1)) (cellIndex (LC + 1) fr fc)
      (cellIndex (LC + 1) row column) < Z.of_nat fuel ->
    exists res,
      backwardScan fuel c LC RC fr fc row column = Some res
      /\ scanResult c RC LC
           (fun i j => stepsForward (RC * (LC + 1)) j i)
           (cellIndex (LC + 1) row column) (cellIndex (LC + 1) fr fc) res.
Proof.
  intros HLC HRC Hf. set (N := RC * (LC + 1)).
  pose proof (cellIndex_bounds _ _ _ _ Hf) as Hfb. fold N in Hfb.
  induction fuel as [|fuel IH]; intros row column Hg Hd.
  { pose proof (cellIndex_bounds _ _ _ _ Hg) as Hb. fold N in Hb.
    pose proof (stepsForward_bounds N _ _ Hfb Hb). lia. }
  pose proof (cellIndex_bounds _ _ _ _ Hg) as Hb. fold N in Hb.
  rewrite backwardScan_step by assumption.
  destruct (selectableAt c row column) eqn:Hsel.
  { eexists. split; [reflexivity|]. split; assumption. }
  assert (Hself : forall r c', inGrid RC LC r c' ->
            stepsForward N (cellIndex (LC + 1) r c')
              (cellIndex (LC + 1) row column) = 0 ->
            selectableAt c r c' = false).
  { intros r c' Hg' H0.
    pose proof (cellIndex_bounds _ _ _ _ Hg') as Hb'. fold N in Hb'.
    assert (cellIndex (LC + 1) r c' = cellIndex (LC + 1) row column).
    { revert H0. unfold stepsForward.
      destruct (Z.leb_spec (cellIndex (LC + 1) r c')
                  (cellIndex (LC + 1) row column)); lia. }
    destruct (cellIndex_inj _ _ _ _ _ _ Hg' Hg); [assumption|].
    subst. exact Hsel. }
  destruct ((row =? fr) && (column =? fc)) eqn:Hfin.
  { bool_hyps. subst. eexists. split; [reflexivity|].
    intros r c' Hg' Hle. cbv beta in Hle. apply Hself; [assumption|].
    pose proof (cellIndex_bounds _ _ _ _ Hg') as Hb'. fold N in Hb'.
    pose proof (stepsForward_bounds N _ _ Hb' Hb).
    revert Hle. unfold stepsForward at 2. rewrite Z.leb_refl. lia. }
  assert (Hne : cellIndex (LC + 1) row column <> cellIndex (LC + 1) fr fc).
  { intros Heq. destruct (cellIndex_inj _ _ _ _ _ _ Hg Hf Heq). subst.
    rewrite !Z.eqb_refl in Hfin. discriminate. }
  pose proof (prevCell_index RC LC row column Hg) as Hn.
  destruct (prevCell RC LC row column) as [r1 c1]. destruct Hn as [Hg1 Hi1].
  fold N in Hi1.
  destruct (IH r1 c1 Hg1) as (res & Hres & Hspec).
  { rewrite Hi1, stepsForward_pred by assumption. lia. }
  exists res. split; [exact Hres|].
  destruct res as [[r' c']|]; [exact Hspec|].
  intros r c' Hg' Hle. cbv beta in Hle.
  pose proof (cellIndex_bounds _ _ _ _ Hg') as Hb'. fold N in Hb'.
  destruct (Z.eq_dec (cellIndex (LC + 1) row column) (cellIndex (LC + 1) r c'))
    as [Heq|Hneq].
  - apply Hself; [assumption|]. rewrite <- Heq.
    unfold stepsForward. rewrite Z.leb_refl. lia.
  - apply Hspec; [assumption|]. cbv beta.
    rewrite Hi1, !stepsForward_pred by (assumption || congruence). lia.
Qed.

Lemma navigable_bounds (t : Table) :
  navigable t ->
  Content.GetColumnCount (content t) -i 1 = tableLastColumn t
  /\ tableLastColumn t < GoInt.max_int
  /\ tableRows t <= GoInt.max_int
  /\ 1 <= tableRows t /\ 0 <= tableLastColumn t.
Proof.
  intros (Hcc & Hfit & Hg).
  pose proof (GetColumnCount_in_range (content t)) as Hr.
  unfold tableLastColumn, tableRows, Content.GetRowCount, inGrid in *.
  int_hyps. unfold GoInt.max_int. unwrap. split_and!; try lia.
Qed.

Lemma reselect_content r c t : content (reselect r c t) = content t.
Proof. reflexivity. Qed.

Lemma moveSelectionForward_spec (fuel : nat) (t : Table) (fr fc : Z) :
  navigable t -> inGrid (tableRows t) (tableLastColumn t) fr fc ->
  tableRows t * (tableLastColumn t + 1) < Z.of_nat fuel ->
  exists res,
    scanResult (content t) (tableRows t) (tableLastColumn t)
      (stepsForward (tableRows t * (tableLastColumn t + 1)))
      (cellIndex (tableLastColumn t + 1) (selectedRow t) (selectedColumn t))
      (cellIndex (tableLastColumn t + 1) fr fc) res
    /\ moveSelectionForward fuel t fr fc
       = Some (match res with
               | Some (r, c) => (reselect r c t, true)
               | None => (t, false)
               end).
Proof.
  intros Hn Hf Hfuel.
  destruct (navigable_bounds t Hn) as (HLC & Hlt & Hrc & _).
  destruct Hn as (_ & _ & Hg).
  pose proof (cellIndex_bounds _ _ _ _ Hg) as Hb.
  pose proof (cellIndex_bounds _ _ _ _ Hf) as Hfb.
  pose proof (stepsForward_bounds _ _ _ Hb Hfb) as Hs.
  destruct (forwardScan_spec (content t) _ _ fr fc Hlt Hrc Hf fuel _ _ Hg)
    as (res & Hres & Hspec); [lia|].
  exists res. split; [exact Hspec|].
  unfold moveSelectionForward. rewrite HLC. fold (tableRows t).
  rewrite Hres. cbn [mbind option_bind].
  destruct res as [[r c]|]; reflexivity.
Qed.

Lemma moveSelectionBackwards_spec (fuel : nat) (t : Table) (fr fc : Z) :
  navigable t -> inGrid (tableRows t) (tableLastColumn t) fr fc ->
  tableRows t * (tableLastColumn t + 1) < Z.of_nat fuel ->
  exists res,
    scanResult (content t) (tableRows t) (tableLastColumn t)
      (fun i j => stepsForward (tableRows t * (tableLastColumn t + 1)) j i)
      (cellIndex (tableLastColumn t + 1) (selectedRow t) (selectedColumn t))
      (cellIndex (tableLastColumn t + 1) fr fc) res
    /\ moveSelectionBackwards fuel t fr fc
       = Some (match res with
               | Some (r, c) => (reselect r c t, true)
               | None => (t, false)
               end).
Proof.
  intros Hn Hf Hfuel.
  destruct (navigable_bounds t Hn) as (HLC & Hlt & Hrc & _).
  destruct Hn as (_ & _ & Hg).
  pose proof (cellIndex_bounds _ _ _ _ Hg) as Hb.
  pose proof (cellIndex_bounds _ _ _ _ Hf) as Hfb.
  pose proof (stepsForward_bounds _ _ _ Hfb Hb) as Hs.
  destruct (backwardScan_spec (content t) _ _ fr fc Hlt Hrc Hf fuel _ _ Hg)
    as (res & Hres & Hspec); [lia|].
  exists res. split; [exact Hspec|].
  unfold moveSelectionBackwards. rewrite HLC. fold (tableRows t).
  rewrite Hres. cbn [mbind option_bind].
  destruct res as [[r c]|]; reflexivity.
Qed.

Lemma forwardElseBackwards_spec (fuel : nat) (t : Table) (fr fc row column : Z) :
  navigable t -> inGrid (tableRows t) (tableLastColumn t) fr fc ->
  inGrid (tableRows t) (tableLastColumn t) row column ->
  tableRows t * (tableLastColumn t + 1) < Z.of_nat fuel ->
  exists t', forwardElseBackwards fuel t fr fc row column = Some t'
             /\ landsOrStays t row column t'.
Proof.
  intros Hn Hf Hg' Hfuel. pose proof Hn as (_ & _ & Hg).
  destruct (moveSelectionForward_spec fuel t fr fc Hn Hf Hfuel)
    as (res & Hspec & Hrun).
  unfold forwardElseBackwards. rewrite Hrun.
  destruct res as [[r c]|].
  - destruct Hspec as [Hsel Hin].
    eexists. split; [reflexivity|]. split_and!; [reflexivity|exact Hin|].
    left. exact Hsel.
  - destruct (moveSelectionBackwards_spec fuel t row column Hn Hg' Hfuel)
      as (res' & Hspec' & Hrun').
    rewrite Hrun'. cbn [fmap option_fmap option_map].
    destruct res' as [[r c]|].
    + destruct Hspec' as [Hsel Hin].
      eexists. split; [reflexivity|]. split_and!; [reflexivity|exact Hin|].
      left. exact Hsel.
    + eexists. split; [reflexivity|].
      split_and!; [apply reselect_same|exact Hg|].
      right. split; [reflexivity|]. apply Hspec'; [exact Hg'|]. lia.
Qed.

Lemma backwardsElseForward_spec (fuel : nat) (t : Table) (fr fc row column : Z) :
  navigable t -> inGrid (tableRows t) (tableLastColumn t) fr fc ->
  inGrid (tableRows t) (tableLastColumn t) row column ->
  tableRows t * (tableLastColumn t + 1) < Z.of_nat fuel ->
  exists t', backwardsElseForward fuel t fr fc row column = Some t'
             /\ landsOrStays t row column t'.
Proof.
  intros Hn Hf Hg' Hfuel. pose proof Hn as (_ & _ & Hg).
  destruct (moveSelectionBackwards_spec fuel t fr fc Hn Hf Hfuel)
    as (res & Hspec & Hrun).
  unfold backwardsElseForward. rewrite Hrun.
  destruct res as [[r c]|].
  - destruct Hspec as [Hsel Hin].
    eexists. split; [reflexivity|]. split_and!; [reflexivity|exact Hin|].
    left. exact Hsel.
  - destruct (moveSelectionForward_spec fuel t row column Hn Hg' Hfuel)
      as (res' & Hspec' & Hrun').
    rewrite Hrun'. cbn [fmap option_fmap option_map].
    destruct res' as [[r c]|].
    + destruct Hspec' as [Hsel Hin].
      eexists. split; [reflexivity|]. split_and!; [reflexivity|exact Hin|].
      left. exact Hsel.
    + eexists. split; [reflexivity|].
      split_and!; [apply reselect_same|exact Hg|].
      right. split; [reflexivity|]. apply Hspec'; [exact Hg'|]. lia.
Qed.

Lemma navigable_reselect (t : Table) (row column : Z) :
  navigable t -> inGrid (tableRows t) (tableLastColumn t) row column ->
  navigable (reselect row column t).
Proof. intros (H1 & H2 & _) Hg. split_and!; assumption. Qed.

(** The end of a navigation function that scans one way and falls back
    the other way, from the tentative table [tt]. *)
Lemma scan_with_fallback (fuel : nat) (t tt : Table) (fr fc row column : Z)
  (scan : nat -> Table -> Z -> Z -> Z -> Z -> option Table) :
  (scan = forwardElseBackwards \/ scan = backwardsElseForward) ->
  navigable t ->
  tt = reselect (selectedRow tt) (selectedColumn tt) t ->
  inGrid (tableRows t) (tableLastColumn t) (selectedRow tt) (selectedColumn tt) ->
  inGrid (tableRows t) (tableLastColumn t) fr fc ->
  inGrid (tableRows t) (tableLastColumn t) row column ->
  tableRows t * (tableLastColumn t + 1) < Z.of_nat fuel ->
  exists t',
    (t0 ← scan fuel tt fr fc row column; Some (set_clampToSelection true t0))
    = Some t'
    /\ exists r c,
        t' = set_clampToSelection true (reselect r c t)
        /\ inGrid (tableRows t) (tableLastColumn t) r c
        /\ (selectableAt (content t) r c = true
            \/ ((r, c) = (selectedRow tt, selectedColumn tt)
                /\ selectableAt (content t) row column = false)).
Proof.
  intros Hscan Hn Htt Hgt Hf Hg Hfuel.
  assert (Hntt : navigable tt).
  { rewrite Htt. apply navigable_reselect; assumption. }
  assert (Hrows : tableRows tt = tableRows t) by (rewrite Htt; reflexivity).
  assert (Hlc : tableLastColumn tt = tableLastColumn t)
    by (rewrite Htt; reflexivity).
  assert (Hc : content tt = content t) by (rewrite Htt; reflexivity).
  assert (exists t0, scan fuel tt fr fc row column = Some t0
                     /\ landsOrStays tt row column t0) as (t0 & Hrun & Hl).
  { destruct Hscan; subst scan.
    - apply forwardElseBackwards_spec; rewrite ?Hrows, ?Hlc; assumption.
    - apply backwardsElseForward_spec; rewrite ?Hrows, ?Hlc; assumption. }
  rewrite Hrun. cbn [mbind option_bind]. eexists. split; [reflexivity|].
  destruct Hl as (Hfr & Hin & Hsel).
  exists (selectedRow t0), (selectedColumn t0).
  rewrite Hrows, Hlc, Hc in *. split_and!.
  - rewrite Hfr at 1. rewrite Htt. reflexivity.
  - exact Hin.
  - destruct Hsel as [Hsel|[Heq Hns]]; [left; exact Hsel|].
    right. subst t0. split; [reflexivity | exact Hns].
Qed.

Lemma scan_forward_fallback (fuel : nat) (t tt : Table) (fr fc row column : Z) :
  navigable t ->
  tt = reselect (selectedRow tt) (selectedColumn tt) t ->
  inGrid (tableRows t) (tableLastColumn t) (selectedRow tt) (selectedColumn tt) ->
  inGrid (tableRows t) (tableLastColumn t) fr fc ->
  inGrid (tableRows t) (tableLastColumn t) row column ->
  tableRows t * (tableLastColumn t + 1) < Z.of_nat fuel ->
  exists t',
    (t0 ← forwardElseBackwards fuel tt fr fc row column;
     Some (set_clampToSelection true t0)) = Some t'
    /\ exists r c,
        t' = set_clampToSelection true (reselect r c t)
        /\ inGrid (tableRows t) (tableLastColumn t) r c
        /\ (selectableAt (content t) r c = true
            \/ ((r, c) = (selectedRow tt, selectedColumn tt)
                /\ selectableAt (content t) row column = false)).
Proof. apply scan_with_fallback. left. reflexivity. Qed.

Lemma scan_backward_fallback (fuel : nat) (t tt : Table) (fr fc row column : Z) :
  navigable t ->
  tt = reselect (selectedRow tt) (selectedColumn tt) t ->
  inGrid (tableRows t) (tableLastColumn t) (selectedRow tt) (selectedColumn tt) ->
  inGrid (tableRows t) (tableLastColumn t) fr fc ->
  inGrid (tableRows t) (tableLastColumn t) row column ->
  tableRows t * (tableLastColumn t + 1) < Z.of_nat fuel ->
  exists t',
    (t0 ← backwardsElseForward fuel tt fr fc row column;
     Some (set_clampToSelection true t0)) = Some t'
    /\ exists r c,
        t' = set_clampToSelection true (reselect r c t)
        /\ inGrid (tableRows t) (tableLastColumn t) r c
        /\ (selectableAt (content t) r c = true
            \/ ((r, c) = (selectedRow tt, selectedColumn tt)
                /\ selectableAt (content t) row column = false)).
Proof. apply scan_with_fallback. right. reflexivity. Qed.

(** Closes a side condition about positions of the grid. *)
Ltac grid_solve := unfold inGrid in *; tsimpl; lia.

(** Runs the scan at the end of a navigation function and reads the
    outcome back as [navigated]. *)
Ltac nav_finish Hn Hfuel :=
  let t' := fresh "t'" in
  let Hrun := fresh "Hrun" in
  let r := fresh "r" in
  let c := fresh "c" in
  let Heq := fresh "Heq" in
  let Hin := fresh "Hin" in
  let Hsel := fresh "Hsel" in
  lazymatch goal with
  | |- exists _, (forwardElseBackwards ?fuel ?tt ?fr ?fc ?row ?col ≫= _) = _ /\ navigated _ ?t _ =>
      destruct (scan_forward_fallback fuel t tt fr fc row col Hn
                  ltac:(reflexivity) ltac:(grid_solve) ltac:(grid_solve)
                  ltac:(grid_solve) Hfuel)
        as (t' & Hrun & r & c & Heq & Hin & Hsel)
  | |- exists _, (backwardsElseForward ?fuel ?tt ?fr ?fc ?row ?col ≫= _) = _ /\ navigated _ ?t _ =>
      destruct (scan_backward_fallback fuel t tt fr fc row col Hn
                  ltac:(reflexivity) ltac:(grid_solve) ltac:(grid_solve)
                  ltac:(grid_solve) Hfuel)
        as (t' & Hrun & r & c & Heq & Hin & Hsel)
  end;
  exists t'; split; [exact Hrun|];
  exists r, c; split; [exact Heq|]; split; [exact Hin|];
  split;
  [ destruct Hsel as [Hsel|[Hsel _]]; [left; exact Hsel|];
    right; rewrite Hsel; unfold tentative; tsimpl;
    repeat match goal with
      | |- context [Z.ltb ?a ?b] => destruct (Z.ltb_spec a b); try lia
      end;
    repeat match goal with
      | H : ?b = _ |- context [if ?b then _ else _] => rewrite H
      end;
    try reflexivity; try (f_equal; lia)
  | split;
    [ first [ discriminate
            | intros _ Horigin; destruct Hsel as [Hsel|[_ Hsel]];
              [exact Hsel|]; tsimpl; congruence ]
    | try discriminate ] ].

(** ** Navigation *)

(** Unfolds a navigation function on its selecting branch and splits
    its cases. *)
Ltac nav_cases t Hn Hmode :=
  let HLC := fresh "HLC" in
  let Hg := fresh "Hg" in
  destruct (navigable_bounds t Hn) as (HLC & ? & ? & ? & ?);
  pose proof Hn as (_ & _ & Hg); unfold inGrid in Hg;
  unfold GoInt.max_int, small in *;
  rewrite Hmode; tsimpl;
  change (Content.GetRowCount (content t)) with (tableRows t);
  unwrap;
  repeat (innermost_if; tsimpl;
          change (Content.GetRowCount (content t)) with (tableRows t);
          unwrap);
  rewrite ?HLC; bool_hyps; try congruence; try lia.

Lemma navigateDown_spec (fuel : nat) (t : Table) :
  navigable t -> rowsSelectable t = true ->
  tableRows t * (tableLastColumn t + 1) < Z.of_nat fuel ->
  exists t', navigateDown fuel t = Some t' /\ navigated KeyDown t t'.
Proof.
  intros Hn Hmode Hfuel. unfold navigateDown.
  nav_cases t Hn Hmode; nav_finish Hn Hfuel.
Qed.

Lemma navigateUp_spec (fuel : nat) (t : Table) :
  navigable t -> rowsSelectable t = true ->
  tableRows t * (tableLastColumn t + 1) < Z.of_nat fuel ->
  exists t', navigateUp fuel t = Some t' /\ navigated KeyUp t t'.
Proof.
  intros Hn Hmode Hfuel. unfold navigateUp.
  nav_cases t Hn Hmode; nav_finish Hn Hfuel.
Qed.

Lemma navigateLeft_spec (fuel : nat) (t : Table) :
  navigable t -> columnsSelectable t = true ->
  tableRows t * (tableLastColumn t + 1) < Z.of_nat fuel ->
  exists t', navigateLeft fuel t = Some t' /\ navigated KeyLeft t t'.
Proof.
  intros Hn Hmode Hfuel. unfold navigateLeft.
  nav_cases t Hn Hmode; nav_finish Hn Hfuel.
Qed.

Lemma navigateRight_spec (fuel : nat) (t : Table) :
  navigable t -> columnsSelectable t = true ->
  tableRows t * (tableLastColumn t + 1) < Z.of_nat fuel ->
  exists t', navigateRight fuel t = Some t' /\ navigated KeyRight t t'.
Proof.
  intros Hn Hmode Hfuel. unfold navigateRight.
  nav_cases t Hn Hmode; nav_finish Hn Hfuel.
Qed.

Lemma navigatePageDown_spec (fuel : nat) (t : Table) :
  navigable t -> rowsSelectable t = true ->
  small (tableRows t) -> small (visibleRows t) -> small (fixedRows t) ->
  tableRows t * (tableLastColumn t + 1) < Z.of_nat fuel ->
  exists t', navigatePageDown fuel t = Some t' /\ navigated KeyPgDn t t'.
Proof.
  intros Hn Hmode Hsr Hsv Hsf Hfuel. unfold navigatePageDown, pageOffsetAmount.
  nav_cases t Hn Hmode; nav_finish Hn Hfuel.
Qed.

Lemma navigatePageUp_spec (fuel : nat) (t : Table) :
  navigable t -> rowsSelectable t = true ->
  small (tableRows t) -> small (visibleRows t) -> small (fixedRows t) ->
  tableRows t * (tableLastColumn t + 1) < Z.of_nat fuel ->
  exists t', navigatePageUp fuel t = Some t' /\ navigated KeyPgUp t t'.
Proof.
  intros Hn Hmode Hsr Hsv Hsf Hfuel. unfold navigatePageUp, pageOffsetAmount.
  nav_cases t Hn Hmode; nav_finish Hn Hfuel.
Qed.

Lemma navigateHome_spec (fuel : nat) (t : Table) :
  navigable t -> rowsSelectable t = true ->
  tableRows t * (tableLastColumn t + 1) < Z.of_nat fuel ->
  exists t', navigateHome fuel t = Some t' /\ navigated KeyHome t t'.
Proof.
  intros Hn Hmode Hfuel.
  destruct (navigable_bounds t Hn) as (HLC & Hlt & Hrc & Hrc1 & Hlc0).
  unfold GoInt.max_int in *.
  assert (Hg0 : inGrid (tableRows t) (tableLastColumn t) 0 0)
    by (unfold inGrid; lia).
  assert (Hgl : inGrid (tableRows t) (tableLastColumn t)
                  (tableRows t - 1) (tableLastColumn t))
    by (unfold inGrid; lia).
  destruct (moveSelectionForward_spec fuel (reselect 0 0 t)
              (tableRows t - 1) (tableLastColumn t)
              (navigable_reselect t 0 0 Hn Hg0) Hgl Hfuel)
    as (res & Hspec & Hrun).
  unfold navigateHome. rewrite Hmode. tsimpl.
  change (Content.GetRowCount (content t)) with (tableRows t).
  rewrite HLC. unwrap.
  change (set_selectedColumn 0 (set_selectedRow 0 t)) with (reselect 0 0 t).
  rewrite Hrun. cbn [fmap option_fmap option_map mbind option_bind fst].
  eexists. split; [reflexivity|].
  destruct res as [[r c]|].
  - destruct Hspec as [Hsel Hin].
    exists r, c. cbn [fst]. split_and!; auto.
  - exists 0, 0. cbn [fst]. split_and!; auto; try discriminate.
    intros _ (r & c & Hin & Hsel).
    rewrite (Hspec r c Hin) in Hsel; [discriminate|].
    pose proof (cellIndex_bounds _ _ _ _ Hin) as Hb.
    change (tableRows (reselect 0 0 t)) with (tableRows t) in *.
    change (tableLastColumn (reselect 0 0 t)) with (tableLastColumn t) in *.
    tsimpl. rewrite cellIndex_last by exact 0.
    change (cellIndex (tableLastColumn t + 1) 0 0) with 0.
    unfold stepsForward.
    destruct (Z.leb_spec 0 (cellIndex (tableLastColumn t + 1) r c)),
      (Z.leb_spec 0 (tableRows t * (tableLastColumn t + 1) - 1)); lia.
Qed.

Lemma navigateEnd_spec (fuel : nat) (t : Table) :
  navigable t -> rowsSelectable t = true ->
  tableRows t * (tableLastColumn t + 1) < Z.of_nat fuel ->
  exists t', navigateEnd fuel t = Some t' /\ navigated KeyEnd t t'.
Proof.
  intros Hn Hmode Hfuel.
  destruct (navigable_bounds t Hn) as (HLC & Hlt & Hrc & Hrc1 & Hlc0).
  unfold GoInt.max_int in *.
  assert (Hg0 : inGrid (tableRows t) (tableLastColumn t) 0 0)
    by (unfold inGrid; lia).
  assert (Hgl : inGrid (tableRows t) (tableLastColumn t)
                  (tableRows t - 1) (tableLastColumn t))
    by (unfold inGrid; lia).
  destruct (moveSelectionBackwards_spec fuel
              (reselect (tableRows t - 1) (tableLastColumn t) t) 0 0
              (navigable_reselect t _ _ Hn Hgl) Hg0 Hfuel)
    as (res & Hspec & Hrun).
  unfold navigateEnd. rewrite Hmode. tsimpl.
  change (Content.GetRowCount (content t)) with (tableRows t).
  rewrite HLC. unwrap.
  change (set_selectedColumn (tableLastColumn t)
            (set_selectedRow (tableRows t - 1) t))
    with (reselect (tableRows t - 1) (tableLastColumn t) t).
  rewrite Hrun. cbn [fmap option_fmap option_map mbind option_bind fst].
  eexists. split; [reflexivity|].
  destruct res as [[r c]|].
  - destruct Hspec as [Hsel Hin].
    exists r, c. cbn [fst]. split_and!; auto.
  - exists (tableRows t - 1), (tableLastColumn t). cbn [fst].
    split_and!; auto; try discriminate.
    intros _ (r & c & Hin & Hsel).
    rewrite (Hspec r c Hin) in Hsel; [discriminate|].
    pose proof (cellIndex_bounds _ _ _ _ Hin) as Hb.
    change (tableRows (reselect _ _ t)) with (tableRows t) in *.
    change (tableLastColumn (reselect _ _ t)) with (tableLastColumn t) in *.
    tsimpl. rewrite cellIndex_last by exact 0.
    change (cellIndex (tableLastColumn t + 1) 0 0) with 0.
    unfold stepsForward.
    destruct (Z.leb_spec (cellIndex (tableLastColumn t + 1) r c)
                (tableRows t * (tableLastColumn t + 1) - 1)),
      (Z.leb_spec 0 (tableRows t * (tableLastColumn t + 1) - 1)); lia.
Qed.

(** X17.  Directional navigation returns and stays on the grid.  On a
    grid with at least one column, with a selection that is a cell
    position of the grid, every directional operation (home, end, up,
    down, left, right, page down, page up) invoked with its kind of
    selection enabled (rows; columns for left and right), and for the
    page keys with a row count, [visibleRows] and [fixedRows] far from
    the ends of the [int] range, returns within a budget of one step per
    cell of the grid, sets [clampToSelection], changes nothing but the
    selection, and leaves the selection on a cell position of the grid
    that is a selectable cell or else the operation's tentative target.
    For left, right, page up and page down, if the cell selected before
    is selectable, the selection ends on a selectable cell; for home and
    end, if any cell of the grid is selectable, it does.  With row 2 the
    only selectable row of 5 and wrap disabled, 'navigate down' from row
    0 lands on row 2. *)
Theorem navigation_lands_or_stays :
  (forall (key : Key) (t : Table) (fuel : nat),
      navigable t -> selecting key t = true ->
      (key = KeyPgDn \/ key = KeyPgUp -> pageable t) ->
      tableRows t * (tableLastColumn t + 1) < Z.of_nat fuel ->
      exists t', InputHandler fuel t key = Some t' /\ navigated key t t')
  /\ (let t := set_rowsSelectable true (tableOf onlyRowTwo 10 10) in
      exists t', InputHandler 6 t KeyDown = Some t'
                 /\ GetSelection t = (0, 0) /\ GetSelection t' = (2, 0)
                 /\ selectableAt (content t') 2 0 = true).
Proof.
  split.
  - intros key t fuel Hn Hmode Hpage Hfuel.
    destruct (navigable_bounds t Hn) as (_ & _ & _ & Hrc1 & _).
    unfold InputHandler. fold (tableRows t).
    destruct (Z.eqb_spec (tableRows t) 0); [lia|].
    unfold selecting in Hmode.
    destruct key; cbn [navigate movesRows] in *.
    + apply navigateHome_spec; assumption.
    + apply navigateEnd_spec; assumption.
    + apply navigateUp_spec; assumption.
    + apply navigateDown_spec; assumption.
    + apply navigateLeft_spec; assumption.
    + apply navigateRight_spec; assumption.
    + destruct Hpage as (? & ? & ?); [left; reflexivity|].
      apply navigatePageDown_spec; assumption.
    + destruct Hpage as (? & ? & ?); [right; reflexivity|].
      apply navigatePageUp_spec; assumption.
  - eexists. split; [vm_compute; reflexivity|]. split_and!; reflexivity.
Qed.

(** A witness of [navigation_lands_or_stays]: the End key on the table
    of its second part. *)
Lemma navigation_lands_or_stays_witness :
  let t := set_rowsSelectable true (tableOf onlyRowTwo 10 10) in
  exists t', InputHandler 6 t KeyEnd = Some t' /\ navigated KeyEnd t t'.
Proof.
  intros t. apply (proj1 navigation_lands_or_stays KeyEnd t 6%nat).
  - vm_compute. split_and!; first [reflexivity | discriminate].
  - reflexivity.
  - intros [H|H]; discriminate H.
  - vm_compute. reflexivity.
Defined.

(** C2, at a grid of five rows of one cell of which only row 2 is
    selectable, with rows selectable and wrap disabled: the first
    'navigate down' from row 0 lands on row 2, but the second leaves the
    selection on row 3, whose cell has [NotSelectable] set, and the
    third on row 4.  [navigateDown] reads [row, column] after it has
    moved the selection, so the scan that is to fall back to the cell
    selected before ends on the cell it started from.  And in a grid of
    one row and two cells, neither of them selectable, 'navigate right'
    moves the selection from column 0 to column 1 instead of leaving it
    where it was. *)
Lemma navigation_leaves_selectable_cells :
  (let t := set_rowsSelectable true (tableOf onlyRowTwo 10 10) in
   exists t1 t2 t3 cell,
     InputHandler 6 t KeyDown = Some t1 /\ GetSelection t1 = (2, 0)
     /\ InputHandler 6 t1 KeyDown = Some t2 /\ GetSelection t2 = (3, 0)
     /\ Content.GetCell (content t2) 3 0 = Some cell
     /\ NotSelectable cell = true
     /\ InputHandler 6 t2 KeyDown = Some t3 /\ GetSelection t3 = (4, 0))
  /\ (let t := set_columnsSelectable true
                 (tableOf {| cells := [[fixedCell "a" 1; fixedCell "b" 1]];
                             lastColumn := 1 |} 10 10) in
      (forall row column, selectableAt (content t) row column = false)
      /\ exists t', InputHandler 3 t KeyRight = Some t'
                    /\ GetSelection t = (0, 0) /\ GetSelection t' = (0, 1)).
Proof.
  split.
  - do 4 eexists.
    split; [vm_compute; reflexivity|]. split; [reflexivity|].
    split; [vm_compute; reflexivity|]. split; [reflexivity|].
    split; [vm_compute; reflexivity|]. split; [reflexivity|].
    split; [vm_compute; reflexivity|]. reflexivity.
  - split.
    + intros row column. unfold selectableAt.
      destruct (Content.GetCell _ row column) as [cell|] eqn:Hcell;
        [|reflexivity].
      apply GetCell_Some in Hcell as (_ & _ & r & Hr & _ & Hx).
      cbn in Hr. destruct (Z.to_nat row) as [|n]; [|discriminate Hr].
      injection Hr as <-.
      destruct (Z.to_nat column) as [|[|n]]; cbn in Hx;
        [injection Hx as <-; reflexivity
        |injection Hx as <-; reflexivity
        |discriminate Hx].
    + eexists. split; [vm_compute; reflexivity|]. split; reflexivity.
Qed.

(** ** Setting and shifting cells *)

(** [GetCell] is a lookup: its two upper bounds are those of the
    slices. *)
Lemma GetCell_lookup (c : tableDefaultContent) (r k : Z) :
  Content.GetCell c r k =
    if (r <? 0) || (k <? 0) then None
    else cells c !! Z.to_nat r ≫= (fun row => mjoin (row !! Z.to_nat k)).
Proof.
  unfold Content.GetCell.
  destruct (Z.ltb_spec r 0); [reflexivity|].
  destruct (Z.ltb_spec k 0); cbn [orb].
  - destruct (r >=? len (cells c)); reflexivity.
  - destruct (Z.geb_spec r (len (cells c))) as [Hr|Hr].
    + rewrite lookup_ge_None_2; [reflexivity|]. unfold len in Hr. lia.
    + destruct (cells c !! Z.to_nat r) as [row|] eqn:E; [|reflexivity].
      cbn. destruct (Z.geb_spec k (len row)) as [Hk|Hk]; [|reflexivity].
      rewrite lookup_ge_None_2; [reflexivity|]. unfold len in Hk. lia.
Qed.

Lemma index_lookup {A} (l : list A) (i : Z) :
  0 <= i -> index l i = l !! Z.to_nat i.
Proof.
  intros Hi. unfold index.
  destruct (Z.leb_spec 0 i); [|lia]. cbn [andb].
  destruct (Z.ltb_spec i (len l)) as [H1|H1]; [reflexivity|].
  symmetry. apply lookup_ge_None_2. unfold len in H1. lia.
Qed.

Lemma index_neg {A} (l : list A) (i : Z) : i < 0 -> index l i = None.
Proof.
  intros Hi. unfold index. destruct (Z.leb_spec 0 i); [lia|]. reflexivity.
Qed.

Lemma rowLength_lookup (c : tableDefaultContent) (r : Z) :
  0 <= r ->
  rowLength c r = match cells c !! Z.to_nat r with
                  | Some row => len row | None => 0 end.
Proof. intros Hr. unfold rowLength. rewrite index_lookup by lia. reflexivity. Qed.

(** The fill loop of [SetCell]. *)
Lemma fill_loop (r : Row) (n m : nat) :
  (m <= n)%nat ->
  foldl (fun r c => <[Z.to_nat c := Some emptyCell]> r)
    (r ++ replicate (S n) None) (seqZ (len r) (Z.of_nat m))
  = r ++ replicate m (Some emptyCell) ++ replicate (S n - m) None.
Proof.
  induction m as [|m IH]; intros Hm.
  - cbn. reflexivity.
  - replace (Z.of_nat (S m)) with (Z.of_nat m + 1) by lia.
    rewrite seqZ_app by lia. rewrite foldl_app, IH by lia.
    replace (seqZ (len r + Z.of_nat m) 1) with [len r + Z.of_nat m]
      by reflexivity.
    cbn [foldl].
    replace (Z.to_nat (len r + Z.of_nat m)) with (length r + m)%nat
      by (unfold len; lia).
    rewrite insert_app_r.
    rewrite insert_app_r_alt by (rewrite length_replicate; lia).
    rewrite length_replicate, Nat.sub_diag.
    replace (S n - m)%nat with (S (S n - S m)) by lia.
    cbn [replicate]. 
    change (<[0%nat:=Some emptyCell]> (None :: ?l)) with (Some emptyCell :: l).
    f_equal.
    change (replicate (S m) (Some emptyCell)) with (Some emptyCell :: replicate m (Some emptyCell)).
    rewrite replicate_cons_app. rewrite <- app_assoc. reflexivity.
Qed.

Lemma store_Some {A} (l : list A) (i : Z) (x : A) :
  0 <= i < len l -> store l i x = Some (<[Z.to_nat i := x]> l).
Proof.
  intros Hi. unfold store.
  destruct (Z.leb_spec 0 i); [|lia].
  destruct (Z.ltb_spec i (len l)); [|lia]. reflexivity.
Qed.

Lemma store_None {A} (l : list A) (i : Z) (x : A) :
  i < 0 -> store l i x = None.
Proof.
  intros Hi. unfold store. destruct (Z.leb_spec 0 i); [lia|]. reflexivity.
Qed.

Lemma len_replicate {A} (n : nat) (x : A) : len (replicate n x) = Z.of_nat n.
Proof. unfold len. rewrite length_replicate. reflexivity. Qed.

Lemma growRows_lookup (c : tableDefaultContent) (row : Z) :
  0 <= row ->
  (cells c ++ replicate (Z.to_nat (row + 1 - len (cells c))) [])
    !! Z.to_nat row
  = Some (default [] (cells c !! Z.to_nat row)).
Proof.
  intros Hrow. pose proof (len_nonneg (cells c)). unfold len in *.
  destruct (decide (Z.to_nat row < length (cells c))%nat) as [Hlt|Hge].
  - rewrite lookup_app_l by lia.
    destruct (lookup_lt_is_Some_2 (cells c) (Z.to_nat row) Hlt) as [r ->].
    reflexivity.
  - rewrite lookup_app_r by lia.
    rewrite (lookup_ge_None_2 (cells c)) by lia. cbn.
    apply lookup_replicate_2. lia.
Qed.

(** The length [make] is asked for when a slice grows: the difference
    does not wrap around unless it comes out negative. *)
Lemma grown_length (length index : Z) :
  GoInt.in_range index -> 0 <= length <= index ->
  0 <= index -i length +i 1 -> index -i length +i 1 = index - length + 1.
Proof.
  intros Hi Hl. int_hyps. rewrite (sub_id index length) by int_solve.
  destruct (Z.eq_dec (index - length) GoInt.max_int) as [E|E].
  - rewrite E, add_max_int_1. unfold GoInt.min_int. lia.
  - intros _. rewrite max_int_eq in E. apply add_id. int_solve.
Qed.

Lemma growRows_grows (allocates : Z -> Z -> bool) (rows : list Row) (row : Z) :
  GoInt.in_range row ->
  Content.growRows allocates rows row
  = if grows allocates sliceBytes (len rows) row
    then Some (rows ++ replicate (Z.to_nat (row + 1 - len rows)) [])
    else None.
Proof.
  intros Hrow. unfold Content.growRows, grows, make, append.
  pose proof (len_nonneg rows).
  destruct (Z.geb_spec row (len rows)), (Z.ltb_spec row (len rows));
    try lia; cbn [orb].
  - destruct (Z.leb_spec 0 (row -i len rows +i 1)) as [Hn|Hn]; cbn [andb].
    + rewrite (grown_length (len rows) row) in * by (auto; lia).
      destruct (Z.ltb_spec (row - len rows + 1) 0); [lia|]. cbn [orb].
      destruct (allocates sliceBytes (row - len rows + 1));
        cbn [negb andb mbind option_bind]; [|reflexivity].
      rewrite len_replicate, Z2Nat.id by lia.
      replace (row + 1 - len rows) with (row - len rows + 1) by lia.
      destruct (allocates _ _); reflexivity.
    + destruct (Z.ltb_spec (row -i len rows +i 1) 0); [|lia]. reflexivity.
  - replace (Z.to_nat (row + 1 - len rows)) with 0%nat by lia.
    cbn. rewrite app_nil_r. reflexivity.
Qed.

Lemma growRow_grows (allocates : Z -> Z -> bool) (r : Row) (column : Z) :
  GoInt.in_range column ->
  Content.growRow allocates r column
  = if grows allocates pointerBytes (len r) column
    then Some (if column >=? len r
               then r ++ replicate (Z.to_nat (column - len r)) (Some emptyCell)
                      ++ [None]
               else r)
    else None.
Proof.
  intros Hc. unfold Content.growRow, grows, make, append.
  pose proof (len_nonneg r).
  destruct (Z.geb_spec column (len r)), (Z.ltb_spec column (len r));
    try lia; cbn [orb]; [|reflexivity].
  destruct (Z.leb_spec 0 (column -i len r +i 1)) as [Hn|Hn]; cbn [andb].
  - rewrite (grown_length (len r) column) in * by (auto; lia).
    destruct (Z.ltb_spec (column - len r + 1) 0); [lia|]. cbn [orb].
    destruct (allocates pointerBytes (column - len r + 1));
      cbn [negb andb mbind option_bind]; [|reflexivity].
    rewrite len_replicate, Z2Nat.id by lia.
    destruct (allocates _ _); cbn [mbind option_bind]; [|reflexivity].
    f_equal.
    replace (Z.to_nat (column - len r + 1))
      with (S (Z.to_nat (column - len r))) by lia.
    replace (column - len r) with (Z.of_nat (Z.to_nat (column - len r))) at 2
      by lia.
    rewrite fill_loop by lia.
    replace (S (Z.to_nat (column - len r)) - Z.to_nat (column - len r))%nat
      with 1%nat by lia.
    reflexivity.
  - destruct (Z.ltb_spec (column -i len r +i 1) 0); [|lia]. reflexivity.
Qed.


Lemma store_setRow (r : Row) (column : Z) (x : TableCell) :
  0 <= column ->
  store (if column >=? len r
         then r ++ replicate (Z.to_nat (column - len r)) (Some emptyCell)
                ++ [None]
         else r) column (Some x)
  = Some (setRow r column x).
Proof.
  intros Hc. unfold setRow. pose proof (len_nonneg r).
  destruct (Z.geb_spec column (len r)).
  - rewrite store_Some.
    2:{ rewrite !len_app, len_replicate. change (len [None]) with 1. lia. }
    f_equal.
    replace (Z.to_nat column)
      with (length r + (length (replicate (Z.to_nat (column - len r))
                                  (Some emptyCell : option TableCell)) + 0))%nat
      by (rewrite length_replicate; unfold len in *; lia).
    rewrite !insert_app_r. reflexivity.
  - rewrite store_Some by lia. reflexivity.
Qed.

Lemma insert_insert_same {A} (l : list A) (i : nat) (x y : A) :
  <[i := x]> (<[i := y]> l) = <[i := x]> l.
Proof. apply list_insert_insert_eq. Qed.

Lemma insert_setRow (r : Row) (column : Z) (x y : TableCell) :
  0 <= column ->
  <[Z.to_nat column := Some y]> (setRow r column x) = setRow r column y.
Proof.
  intros Hc. unfold setRow. pose proof (len_nonneg r).
  destruct (Z.geb_spec column (len r)).
  - replace (Z.to_nat column)
      with (length r + (length (replicate (Z.to_nat (column - len r))
                                  (Some emptyCell : option TableCell)) + 0))%nat
      by (rewrite length_replicate; unfold len in *; lia).
    rewrite !insert_app_r. reflexivity.
  - apply list_insert_insert_eq.
Qed.

Lemma setRow_lookup (r : Row) (column : Z) (x : TableCell) (k : nat) :
  0 <= column ->
  setRow r column x !! k =
    if decide (k = Z.to_nat column) then Some (Some x)
    else if decide (length r <= k < Z.to_nat column)%nat
         then Some (Some emptyCell)
         else r !! k.
Proof.
  intros Hc. unfold setRow. pose proof (len_nonneg r). unfold len in *.
  destruct (Z.geb_spec column (Z.of_nat (length r))).
  - destruct (decide (k < length r)%nat).
    + rewrite lookup_app_l by lia.
      destruct (decide (k = Z.to_nat column)); [lia|].
      destruct (decide (length r <= k < Z.to_nat column)%nat); [lia|].
      reflexivity.
    + rewrite lookup_app_r by lia.
      destruct (decide (k - length r < Z.to_nat (column - Z.of_nat (length r)))%nat).
      * rewrite lookup_app_l by (rewrite length_replicate; lia).
        rewrite lookup_replicate_2 by lia.
        destruct (decide (k = Z.to_nat column)); [lia|].
        destruct (decide (length r <= k < Z.to_nat column)%nat); [|lia].
        reflexivity.
      * rewrite lookup_app_r by (rewrite length_replicate; lia).
        rewrite length_replicate.
        destruct (decide (k = Z.to_nat column)) as [->|Hne].
        -- replace (Z.to_nat column - length r
                    - Z.to_nat (column - Z.of_nat (length r)))%nat
             with 0%nat by lia. reflexivity.
        -- destruct (decide (length r <= k < Z.to_nat column)%nat); [lia|].
           rewrite (lookup_ge_None_2 r) by lia.
           apply lookup_ge_None_2. cbn. lia.
  - destruct (decide (k = Z.to_nat column)) as [->|Hne].
    + apply list_lookup_insert_eq. lia.
    + rewrite list_lookup_insert_ne by lia.
      destruct (decide (length r <= k < Z.to_nat column)%nat); [lia|].
      reflexivity.
Qed.

Lemma GetCell_cellOf (c : tableDefaultContent) (r k : Z) :
  0 <= r -> 0 <= k ->
  Content.GetCell c r k = cellOf (cells c) (Z.to_nat r) (Z.to_nat k).
Proof.
  intros Hr Hk. rewrite GetCell_lookup.
  destruct (Z.ltb_spec r 0); [lia|]. destruct (Z.ltb_spec k 0); [lia|].
  reflexivity.
Qed.

Lemma GetCell_negative (c : tableDefaultContent) (r k : Z) :
  r < 0 \/ k < 0 -> Content.GetCell c r k = None.
Proof.
  intros H. rewrite GetCell_lookup.
  destruct (Z.ltb_spec r 0); [reflexivity|].
  destruct (Z.ltb_spec k 0); [reflexivity|]. lia.
Qed.

Lemma cellOf_rowsAfterSet (c : tableDefaultContent) (row column : Z)
  (x : TableCell) (r k : nat) :
  0 <= row -> 0 <= column ->
  cellOf (rowsAfterSet c row column x) r k =
    if decide (r = Z.to_nat row /\ k = Z.to_nat column) then Some x
    else if decide (r = Z.to_nat row
                    /\ (Z.to_nat (rowLength c row) <= k < Z.to_nat column)%nat)
         then Some emptyCell
         else cellOf (cells c) r k.
Proof.
  intros Hrow Hcol. unfold cellOf, rowsAfterSet.
  rewrite rowLength_lookup by lia.
  pose proof (len_nonneg (cells c)) as Hlen. unfold len in *.
  destruct (decide (r = Z.to_nat row)) as [->|Hne].
  - rewrite list_lookup_insert_eq
      by (rewrite length_app, length_replicate; lia).
    cbn. rewrite setRow_lookup by lia.
    destruct (cells c !! Z.to_nat row) as [old|] eqn:E; cbn.
    + rewrite Nat2Z.id.
      destruct (decide (k = Z.to_nat column)).
      * rewrite decide_True by auto. reflexivity.
      * rewrite (decide_False (P := _ /\ k = _)) by tauto.
        destruct (decide (length old <= k < Z.to_nat column)%nat).
        -- rewrite decide_True by auto. reflexivity.
        -- rewrite decide_False by tauto. reflexivity.
    + destruct (decide (k = Z.to_nat column)).
      * rewrite decide_True by auto. reflexivity.
      * rewrite (decide_False (P := _ /\ k = _)) by tauto.
        destruct (decide (0 <= k < Z.to_nat column)%nat).
        -- rewrite decide_True by (split; [auto|cbn; lia]). reflexivity.
        -- rewrite decide_False by (cbn; lia). reflexivity.
  - rewrite list_lookup_insert_ne by auto.
    rewrite (decide_False (P := r = _ /\ k = _)) by tauto.
    rewrite decide_False by tauto.
    destruct (decide (r < length (cells c))%nat).
    + rewrite lookup_app_l by lia. reflexivity.
    + rewrite lookup_app_r by lia.
      rewrite (lookup_ge_None_2 (cells c)) by lia. cbn.
      destruct (replicate _ _ !! _) as [e|] eqn:E; [|reflexivity].
      apply lookup_replicate in E as [-> _]. reflexivity.
Qed.

Lemma setRow_len (r : Row) (column : Z) (x : TableCell) :
  0 <= column -> len (setRow r column x) = Z.max (len r) (column + 1).
Proof.
  intros Hc. unfold setRow. pose proof (len_nonneg r).
  destruct (Z.geb_spec column (len r)).
  - rewrite !len_app, len_replicate. change (len [Some x]) with 1. lia.
  - unfold len. rewrite length_insert. unfold len in *. lia.
Qed.

Lemma rowLength_default (c : tableDefaultContent) (row : Z) :
  0 <= row ->
  len (default [] (cells c !! Z.to_nat row)) = rowLength c row.
Proof.
  intros Hrow. rewrite rowLength_lookup by assumption.
  destruct (cells c !! Z.to_nat row); reflexivity.
Qed.

Lemma SetCell_returned (W : string -> Z) (allocates : Z -> Z -> bool)
  (c : tableDefaultContent) (row column : Z) (x : TableCell)
  (shared : nat -> nat -> bool) :
  0 <= row -> 0 <= column -> GoInt.in_range row -> GoInt.in_range column ->
  roomFor allocates c row column = true ->
  Content.SetCell W allocates c row column (Some x) shared
  = Returned {| cells := Content.seenThrough shared x (updateWidth W x)
                           (rowsAfterSet c row column (updateWidth W x));
                lastColumn := Z.max (lastColumn c) column |}.
Proof.
  intros Hrow Hcol Hrr Hcr Hroom. unfold roomFor in Hroom.
  apply andb_true_iff in Hroom as [Hg1 Hg2].
  unfold Content.SetCell, rowsAfterSet.
  rewrite growRows_grows, Hg1 by assumption.
  rewrite index_lookup, growRows_lookup by lia.
  rewrite <- (rowLength_default c row) in Hg2 by lia.
  rewrite growRow_grows, Hg2 by assumption.
  rewrite store_setRow by lia.
  rewrite insert_setRow by lia.
  do 2 f_equal.
  destruct (Z.gtb_spec column (lastColumn c)); lia.
Qed.

(** What a returning [SetCell] was given. *)
Lemma SetCell_Returned_inv (W : string -> Z) (allocates : Z -> Z -> bool)
  (c c' : tableDefaultContent) (row column : Z) (cell : option TableCell)
  (shared : nat -> nat -> bool) :
  row <= GoInt.max_int -> column <= GoInt.max_int ->
  Content.SetCell W allocates c row column cell shared = Returned c' ->
  0 <= row /\ 0 <= column /\ roomFor allocates c row column = true
  /\ exists x, cell = Some x.
Proof.
  rewrite max_int_eq. intros Hrow Hcol. unfold Content.SetCell, roomFor.
  destruct (Z.lt_ge_cases row 0) as [Hr|Hr].
  { unfold Content.growRows. pose proof (len_nonneg (cells c)).
    destruct (Z.geb_spec row (len (cells c))); [lia|].
    rewrite index_neg by assumption. discriminate. }
  rewrite growRows_grows by int_solve.
  destruct (grows allocates sliceBytes _ row); [|discriminate].
  rewrite index_lookup, growRows_lookup by lia.
  destruct (Z.lt_ge_cases column 0) as [Hc|Hc].
  { unfold Content.growRow.
    pose proof (len_nonneg (default [] (cells c !! Z.to_nat row))).
    destruct (Z.geb_spec column (len (default [] (cells c !! Z.to_nat row))));
      [lia|].
    rewrite store_None by assumption. discriminate. }
  rewrite growRow_grows by int_solve.
  rewrite <- (rowLength_default c row) by lia.
  destruct (grows allocates pointerBytes _ column); [|discriminate].
  destruct (store _ column cell); [|discriminate].
  destruct cell as [x|]; [|discriminate].
  intros _. split_and!; [assumption..|reflexivity|eauto].
Qed.

Lemma seenIn_None (sharing : bool) (old new : TableCell) :
  Content.seenIn sharing old new None = None.
Proof.
  unfold Content.seenIn. rewrite bool_decide_false by discriminate.
  rewrite andb_false_r. reflexivity.
Qed.

Lemma seenIn_new (sharing : bool) (old new : TableCell) :
  Content.seenIn sharing old new (Some new) = Some new.
Proof. unfold Content.seenIn. destruct (_ && _); reflexivity. Qed.

Lemma cellOf_seenThrough (shared : nat -> nat -> bool) (old new : TableCell)
  (rows : list Row) (r k : nat) :
  cellOf (Content.seenThrough shared old new rows) r k
  = Content.seenIn (shared r k) old new (cellOf rows r k).
Proof.
  unfold cellOf, Content.seenThrough. rewrite list_lookup_imap.
  destruct (rows !! r) as [row|]; cbn; [|symmetry; apply seenIn_None].
  rewrite list_lookup_imap.
  destruct (row !! k) as [x|]; cbn; [reflexivity|].
  symmetry; apply seenIn_None.
Qed.

Lemma seenThrough_rows (shared : nat -> nat -> bool) (old new : TableCell)
  (rows : list Row) (P : Z -> Prop) :
  Forall (fun r : Row => P (len r)) rows ->
  Forall (fun r : Row => P (len r))
    (Content.seenThrough shared old new rows).
Proof.
  intros H. apply Forall_lookup_2. intros i x Hx.
  unfold Content.seenThrough in Hx. rewrite list_lookup_imap in Hx.
  apply fmap_Some in Hx as (row & Hrow & ->).
  unfold len. rewrite length_imap.
  exact (Forall_lookup_1 _ _ _ _ H Hrow).
Qed.

Lemma updateWidth_set_width (W : string -> Z) (stale : Z) (cell : TableCell) :
  updateWidth W (set_width stale cell) = updateWidth W cell.
Proof. unfold updateWidth. cbn. destruct (_ && _); reflexivity. Qed.

(** X1.  Insert and look up: for a row and a column from 0 up, where
    the run time has room for the slices [SetCell] grows, [SetCell] with
    a cell returns, whatever the size of the store and whichever
    positions share the cell, and [GetCell] at that position then yields
    the cell with its width measured again: the text width, cut to a
    positive [MaxWidth], replaces whatever width the cell carried. *)
Theorem SetCell_then_GetCell (TaggedStringWidth : string -> Z)
  (allocates : Z -> Z -> bool) (c : tableDefaultContent) (row column : Z)
  (cell : TableCell) (shared : nat -> nat -> bool) :
  0 <= row -> 0 <= column -> GoInt.in_range row -> GoInt.in_range column ->
  roomFor allocates c row column = true ->
  (forall stale, exists c',
      Content.SetCell TaggedStringWidth allocates c row column
        (Some (set_width stale cell)) shared = Returned c'
      /\ Content.GetCell c' row column
         = Some (updateWidth TaggedStringWidth cell))
  /\ width (updateWidth TaggedStringWidth cell)
     = (if 0 <? MaxWidth cell
        then Z.min (TaggedStringWidth (Text cell)) (MaxWidth cell)
        else TaggedStringWidth (Text cell)).
Proof.
  intros Hrow Hcol Hrr Hcr Hroom. split.
  - intros stale. eexists.
    split; [apply SetCell_returned; assumption|].
    rewrite GetCell_cellOf by (cbn; lia). cbn [cells].
    rewrite cellOf_seenThrough, cellOf_rowsAfterSet by lia.
    rewrite decide_True by auto.
    rewrite seenIn_new. apply f_equal, updateWidth_set_width.
  - unfold updateWidth.
    destruct (Z.gtb_spec (MaxWidth cell) 0), (Z.ltb_spec 0 (MaxWidth cell));
      try lia; cbn [andb].
    + destruct (Z.gtb_spec (TaggedStringWidth (Text cell)) (MaxWidth cell));
        cbn; lia.
    + reflexivity.
Qed.

Lemma SetCell_then_GetCell_witness :
  let cell := {| Text := "abc"; Align := 0; MaxWidth := 2; Expansion := 0;
                 Transparent := true; NotSelectable := false; width := 9 |} in
  (forall stale, exists c',
      Content.SetCell plainWidth unbounded Content.new 1 2
        (Some (set_width stale cell)) fresh = Returned c'
      /\ Content.GetCell c' 1 2 = Some (updateWidth plainWidth cell))
  /\ width (updateWidth plainWidth cell)
     = (if 0 <? MaxWidth cell
        then Z.min (plainWidth (Text cell)) (MaxWidth cell)
        else plainWidth (Text cell)).
Proof.
  intros cell.
  apply (SetCell_then_GetCell plainWidth unbounded Content.new 1 2 cell fresh);
    first [lia | reflexivity | (split; discriminate)].
Defined.

(** X2.  [SetCell] changes no other cell, but for the width of the
    cells that share its pointer.  For a row and a column from 0 up,
    where the run time has room, every other position holds afterwards
    what it held before, where the positions of the row between its old
    end and the new cell, empty before, count as holding the zero cell
    [&TableCell{}]; and a position that holds the very pointer that is
    set shows the cell with its width measured again, like the position
    that is set. *)
Theorem SetCell_keeps_other_cells (TaggedStringWidth : string -> Z)
  (allocates : Z -> Z -> bool) (c : tableDefaultContent) (row column : Z)
  (cell : TableCell) (shared : nat -> nat -> bool) :
  0 <= row -> 0 <= column -> GoInt.in_range row -> GoInt.in_range column ->
  roomFor allocates c row column = true ->
  let c' := state_of (Content.SetCell TaggedStringWidth allocates c
                        row column (Some cell) shared) in
  forall r k,
    (r, k) <> (row, column) ->
    let before :=
      if (r =? row) && (rowLength c row <=? k) && (k <? column)
      then Some emptyCell
      else Content.GetCell c r k in
    Content.GetCell c' r k
    = Content.seenIn (shared (Z.to_nat r) (Z.to_nat k)) cell
        (updateWidth TaggedStringWidth cell) before
    /\ (shared (Z.to_nat r) (Z.to_nat k) = false ->
        Content.GetCell c' r k = before)
    /\ (shared (Z.to_nat r) (Z.to_nat k) = true -> before = Some cell ->
        Content.GetCell c' r k = Some (updateWidth TaggedStringWidth cell)).
Proof.
  intros Hrow Hcol Hrr Hcr Hroom c' r k Hne before.
  assert (Hmain : Content.GetCell c' r k
                  = Content.seenIn (shared (Z.to_nat r) (Z.to_nat k)) cell
                      (updateWidth TaggedStringWidth cell) before).
  { subst c' before.
    rewrite SetCell_returned by assumption. cbn [state_of].
    assert (Hlen : 0 <= rowLength c row).
    { unfold rowLength. destruct (index (cells c) row); [apply len_nonneg|lia]. }
    destruct (Z.ltb_spec r 0) as [Hr|Hr].
    { rewrite !GetCell_negative by auto.
      destruct (Z.eqb_spec r row); [lia|]. cbn [andb].
      symmetry. apply seenIn_None. }
    destruct (Z.ltb_spec k 0) as [Hk|Hk].
    { rewrite !GetCell_negative by auto.
      destruct (Z.leb_spec (rowLength c row) k); [lia|].
      rewrite andb_false_r. cbn [andb]. symmetry. apply seenIn_None. }
    rewrite !GetCell_cellOf by (cbn; lia). cbn [cells].
    rewrite cellOf_seenThrough, cellOf_rowsAfterSet by lia.
    f_equal.
    rewrite decide_False.
    2:{ intros [H1 H2]. apply Hne. f_equal; lia. }
    destruct (Z.eqb_spec r row) as [->|Hrr']; cbn [andb].
    - destruct (Z.leb_spec (rowLength c row) k), (Z.ltb_spec k column);
        cbn [andb].
      + rewrite decide_True by lia. reflexivity.
      + rewrite decide_False by lia. reflexivity.
      + rewrite decide_False by lia. reflexivity.
      + rewrite decide_False by lia. reflexivity.
    - rewrite decide_False by lia. reflexivity. }
  split; [exact Hmain|]. split.
  - intros Hs. rewrite Hmain, Hs. reflexivity.
  - intros Hs Hb. rewrite Hmain, Hs, Hb. unfold Content.seenIn.
    rewrite bool_decide_true by reflexivity. reflexivity.
Qed.

(** A witness of [SetCell_keeps_other_cells]: a cell whose text was
    changed to "abc" after it was stored at (0, 0), with the width 1 of
    its former text, is set at (0, 1) as well; (0, 0) then shows the
    width 3. *)
Lemma SetCell_keeps_other_cells_witness :
  let cell := {| Text := "abc"; Align := 0; MaxWidth := 0; Expansion := 0;
                 Transparent := true; NotSelectable := false; width := 1 |} in
  let c := {| cells := [[Some cell]]; lastColumn := 0 |} in
  let shared := fun r k : nat => Nat.eqb r 0 && Nat.eqb k 0 in
  let c' := state_of (Content.SetCell plainWidth unbounded c 0 1 (Some cell)
                        shared) in
  Content.GetCell c' 0 0 = Some (set_width 3 cell)
  /\ forall r k,
      (r, k) <> (0, 1) ->
      let before :=
        if (r =? 0) && (rowLength c 0 <=? k) && (k <? 1)
        then Some emptyCell
        else Content.GetCell c r k in
      Content.GetCell c' r k
      = Content.seenIn (shared (Z.to_nat r) (Z.to_nat k)) cell
          (updateWidth plainWidth cell) before
      /\ (shared (Z.to_nat r) (Z.to_nat k) = false ->
          Content.GetCell c' r k = before)
      /\ (shared (Z.to_nat r) (Z.to_nat k) = true -> before = Some cell ->
          Content.GetCell c' r k = Some (updateWidth plainWidth cell)).
Proof.
  intros cell c shared c'. split; [reflexivity|].
  apply (SetCell_keeps_other_cells plainWidth unbounded c 0 1 cell shared);
    first [lia | reflexivity | (split; discriminate)].
Defined.

(** X3.  [SetCell] never shrinks the table: for a row and a column from
    0 up, where the run time has room, it returns, and afterwards the
    store has [max(rows, row + 1)] rows, its last column is
    [max(lastColumn, column)], and [GetColumnCount] is one more than
    that. *)
Theorem SetCell_dimensions (TaggedStringWidth : string -> Z)
  (allocates : Z -> Z -> bool) (c : tableDefaultContent) (row column : Z)
  (cell : TableCell) (shared : nat -> nat -> bool) :
  0 <= row -> 0 <= column -> GoInt.in_range row -> column < GoInt.max_int ->
  roomFor allocates c row column = true ->
  lastColumn c < GoInt.max_int ->
  exists c',
    Content.SetCell TaggedStringWidth allocates c row column (Some cell)
      shared = Returned c'
    /\ Content.GetRowCount c' = Z.max (Content.GetRowCount c) (row + 1)
    /\ lastColumn c' = Z.max (lastColumn c) column
    /\ Content.GetColumnCount c' = Z.max (lastColumn c) column + 1.
Proof.
  intros Hrow Hcol Hrr Hcr Hroom Hlc. rewrite max_int_eq in *.
  eexists. split; [apply SetCell_returned; int_solve|].
  set (c' := {| cells := _; lastColumn := _ |}).
  assert (Hrows : Content.GetRowCount c'
                  = Z.max (Content.GetRowCount c) (row + 1)).
  { subst c'. unfold Content.GetRowCount, Content.seenThrough, rowsAfterSet, len.
    cbn [cells].
    rewrite length_imap, length_insert, length_app, length_replicate. lia. }
  split; [exact Hrows|]. split; [reflexivity|].
  unfold Content.GetColumnCount.
  change (len (cells ?x)) with (Content.GetRowCount x). rewrite Hrows.
  pose proof (len_nonneg (cells c)). unfold Content.GetRowCount.
  destruct (Z.eqb_spec (Z.max (len (cells c)) (row + 1)) 0); [lia|].
  subst c'. cbn [lastColumn]. int_hyps. unwrap. reflexivity.
Qed.

Lemma SetCell_dimensions_witness :
  let c := {| cells := [[textCell "a" 1]]; lastColumn := 0 |} in
  exists c',
    Content.SetCell plainWidth unbounded c 2 3 (Some emptyCell) fresh
    = Returned c'
    /\ Content.GetRowCount c' = Z.max (Content.GetRowCount c) (2 + 1)
    /\ lastColumn c' = Z.max (lastColumn c) 3
    /\ Content.GetColumnCount c' = Z.max (lastColumn c) 3 + 1.
Proof.
  intros c.
  apply (SetCell_dimensions plainWidth unbounded c 2 3 emptyCell fresh);
    first [lia | reflexivity | (split; discriminate)].
Defined.

(** X4.  [SetCell] panics exactly on a negative row, a negative column,
    a nil cell, or a slice the run time cannot allocate (which includes
    a length that wraps around below zero).  A negative row, or rows
    that cannot be allocated, leave the store as it was; a negative
    column, a row that cannot be allocated or a nil cell is found only
    after the rows were grown to hold [row], and the panic leaves them
    grown, with the last column as it was. *)
Theorem SetCell_panics (TaggedStringWidth : string -> Z)
  (allocates : Z -> Z -> bool) (c : tableDefaultContent) (row column : Z)
  (cell : option TableCell) (shared : nat -> nat -> bool) :
  GoInt.in_range row -> GoInt.in_range column ->
  let result := Content.SetCell TaggedStringWidth allocates c row column
                  cell shared in
  let grown := {| cells := cells c
                           ++ replicate (Z.to_nat (row + 1 - len (cells c))) [];
                  lastColumn := lastColumn c |} in
  (returns result = true
   <-> 0 <= row /\ 0 <= column /\ cell <> None
       /\ roomFor allocates c row column = true)
  /\ (row < 0 \/ grows allocates sliceBytes (len (cells c)) row = false ->
      result = Panicked c)
  /\ (0 <= row -> grows allocates sliceBytes (len (cells c)) row = true ->
      column < 0
      \/ grows allocates pointerBytes (rowLength c row) column = false ->
      result = Panicked grown)
  /\ (0 <= row -> 0 <= column -> roomFor allocates c row column = true ->
      cell = None ->
      result = Panicked (state_of result)
      /\ Content.GetRowCount (state_of result)
         = Z.max (Content.GetRowCount c) (row + 1)
      /\ lastColumn (state_of result) = lastColumn c
      /\ Content.GetCell (state_of result) row column = None).
Proof.
  intros Hrow Hcol result grown.
  assert (Hneg : row < 0 \/ grows allocates sliceBytes (len (cells c)) row = false
                 -> result = Panicked c).
  { intros Hr. subst result. unfold Content.SetCell.
    rewrite growRows_grows by assumption.
    destruct (grows allocates sliceBytes (len (cells c)) row) eqn:Hg;
      [|reflexivity].
    destruct Hr as [Hr|Hr]; [|discriminate].
    replace (Z.to_nat (row + 1 - len (cells c))) with 0%nat
      by (pose proof (len_nonneg (cells c)); lia).
    cbn [replicate]. rewrite app_nil_r.
    rewrite index_neg by assumption. destruct c; reflexivity. }
  assert (Hcolneg : 0 <= row ->
      grows allocates sliceBytes (len (cells c)) row = true ->
      column < 0
      \/ grows allocates pointerBytes (rowLength c row) column = false ->
      result = Panicked grown).
  { intros Hr Hg1 Hc. subst result grown. unfold Content.SetCell.
    rewrite growRows_grows, Hg1 by assumption.
    rewrite index_lookup, growRows_lookup by lia.
    rewrite <- (rowLength_default c row) in Hc by lia.
    rewrite growRow_grows by assumption.
    destruct (grows allocates pointerBytes _ column) eqn:Hg2; [|reflexivity].
    destruct Hc as [Hc|Hc]; [|discriminate].
    pose proof (len_nonneg (default [] (cells c !! Z.to_nat row))).
    destruct (Z.geb_spec column (len (default [] (cells c !! Z.to_nat row))));
      [lia|].
    rewrite store_None by assumption.
    rewrite list_insert_id by (apply growRows_lookup; lia). reflexivity. }
  assert (Hnil : 0 <= row -> 0 <= column ->
      roomFor allocates c row column = true -> cell = None ->
      result = Panicked (state_of result)
      /\ Content.GetRowCount (state_of result)
         = Z.max (Content.GetRowCount c) (row + 1)
      /\ lastColumn (state_of result) = lastColumn c
      /\ Content.GetCell (state_of result) row column = None).
  { intros Hr Hc Hroom ->. subst result. unfold Content.SetCell.
    apply andb_true_iff in Hroom as [Hg1 Hg2].
    rewrite growRows_grows, Hg1 by assumption.
    rewrite index_lookup, growRows_lookup by lia.
    rewrite <- (rowLength_default c row) in Hg2 by lia.
    rewrite growRow_grows, Hg2 by assumption.
    set (r1 := if column >=? _ then _ else _).
    assert (Hlen : column < len r1).
    { subst r1. destruct (Z.geb_spec column
                            (len (default [] (cells c !! Z.to_nat row)))).
      - rewrite !len_app, len_replicate. change (len [None]) with 1.
        pose proof (len_nonneg (default [] (cells c !! Z.to_nat row))). lia.
      - assumption. }
    rewrite store_Some by lia. cbn [state_of].
    split; [reflexivity|]. split; [|split; [reflexivity|]].
    - unfold Content.GetRowCount, len. cbn [cells].
      rewrite length_insert, length_app, length_replicate. lia.
    - rewrite GetCell_cellOf by lia. cbn [cells]. unfold cellOf.
      rewrite list_lookup_insert_eq.
      2:{ rewrite length_app, length_replicate.
          pose proof (len_nonneg (cells c)). unfold len in *. lia. }
      cbn. rewrite list_lookup_insert_eq by (unfold len in Hlen; lia).
      reflexivity. }
  split; [|auto].
  split.
  - intros Hret. destruct result as [c'|c'] eqn:E; [|discriminate].
    subst result.
    apply SetCell_Returned_inv in E as (Hr & Hc & Hroom & x & ->);
      [split_and!; auto; discriminate
      | int_hyps; rewrite max_int_eq; lia ..].
  - intros (Hr & Hc & Hcell & Hroom). destruct cell as [x|]; [|congruence].
    subst result. rewrite SetCell_returned by assumption. reflexivity.
Qed.

(** A witness of [SetCell_panics]: a run time that allocates no more
    than three elements at once, and [SetCell(2, 5, nil)] on an empty
    store: the three rows are allocated, the six cells are refused. *)
Lemma SetCell_panics_witness :
  let allocates := fun size n : Z => n <=? 3 in
  let result := Content.SetCell plainWidth allocates Content.new 2 5 None
                  fresh in
  let grown := {| cells := cells Content.new
                           ++ replicate
                                (Z.to_nat (2 + 1 - len (cells Content.new))) [];
                  lastColumn := lastColumn Content.new |} in
  (returns result = true
   <-> 0 <= 2 /\ 0 <= 5 /\ @None TableCell <> None
       /\ roomFor allocates Content.new 2 5 = true)
  /\ (2 < 0 \/ grows allocates sliceBytes (len (cells Content.new)) 2 = false ->
      result = Panicked Content.new)
  /\ (0 <= 2 -> grows allocates sliceBytes (len (cells Content.new)) 2 = true ->
      5 < 0
      \/ grows allocates pointerBytes (rowLength Content.new 2) 5 = false ->
      result = Panicked grown)
  /\ (0 <= 2 -> 0 <= 5 -> roomFor allocates Content.new 2 5 = true ->
      @None TableCell = None ->
      result = Panicked (state_of result)
      /\ Content.GetRowCount (state_of result)
         = Z.max (Content.GetRowCount Content.new) (2 + 1)
      /\ lastColumn (state_of result) = lastColumn Content.new
      /\ Content.GetCell (state_of result) 2 5 = None).
Proof.
  intros allocates.
  apply (SetCell_panics plainWidth allocates Content.new 2 5 None fresh);
    split; discriminate.
Defined.

(** X5.  The mutators of the store other than [InsertColumn] keep every
    row within the last column: the property holds of a new and of a
    cleared store, and a returning [SetCell], [RemoveRow],
    [RemoveColumn] or [InsertRow] hands it on, whatever the run time
    allocates and whichever positions share the cell that is set.  A store with the property
    holds cells only inside the dimensions it reports. *)
Theorem withinColumns_kept (TaggedStringWidth : string -> Z)
  (c : tableDefaultContent) :
  withinColumns Content.new
  /\ withinColumns (Content.Clear c)
  /\ (withinColumns c ->
      (forall allocates row column cell shared c',
          row < GoInt.max_int -> column < GoInt.max_int ->
          Content.SetCell TaggedStringWidth allocates c row column cell
            shared = Returned c' ->
          withinColumns c')
      /\ (forall row, withinColumns (state_of (Content.RemoveRow c row)))
      /\ (forall column,
            withinColumns (state_of (Content.RemoveColumn c column)))
      /\ (forall row c',
            fits (cells c) ->
            Content.InsertRow c row = Returned c' -> withinColumns c')
      /\ (forall row column cell,
            Content.GetCell c row column = Some cell ->
            0 <= row < Content.GetRowCount c
            /\ 0 <= column < Content.GetColumnCount c)).
Proof.
  unfold withinColumns. rewrite max_int_eq.
  split; [|split].
  - split; [cbn; lia | constructor].
  - split; [cbn; lia | constructor].
  - intros [Hlc Hrows]. split_and!.
    + intros allocates row column cell shared c' Hrow Hcol Hret.
      pose proof Hret as Hinv.
      apply SetCell_Returned_inv in Hinv as (Hr & Hc & Hroom & x & ->);
        [|rewrite max_int_eq; lia..].
      rewrite SetCell_returned in Hret
        by (first [assumption | apply in_range_iff; lia]).
      injection Hret as <-.
      split; cbn [lastColumn cells]; [lia|].
      apply (seenThrough_rows _ _ _ _ (fun n => n <= Z.max (lastColumn c) column + 1)).
      unfold rowsAfterSet. apply Forall_insert.
      * apply Forall_app. split.
        -- eapply Forall_impl; [exact Hrows|]. cbn. intros; lia.
        -- apply Forall_replicate. change (len []) with 0. lia.
      * rewrite setRow_len by lia.
        destruct (cells c !! Z.to_nat row) as [old|] eqn:E; cbn.
        -- pose proof (Forall_lookup_1 _ _ _ _ Hrows E) as Hold.
           cbn in Hold. lia.
        -- change (len []) with 0. lia.
    + intros row. unfold Content.RemoveRow.
      destruct (_ || _); cbn [state_of]; [split; auto|].
      split; cbn [lastColumn cells]; [lia|].
      apply Forall_app. split.
      * apply Forall_take. exact Hrows.
      * apply Forall_drop. exact Hrows.
    + intros column. unfold Content.RemoveColumn.
      destruct (Z.geb_spec column 0), (Z.leb_spec column (lastColumn c));
        cbn [andb state_of].
      * split; cbn [lastColumn cells]; [unwrap; lia|].
        unwrap. apply Forall_fmap. eapply Forall_impl; [exact Hrows|].
        intros r Hr. cbn in *. unfold Content.removeColumnOfRow.
        destruct (Z.ltb_spec column 0); [lia|].
        destruct (Z.geb_spec column (len r)); cbn [orb]; [lia|].
        rewrite len_app. unfold len in *.
        rewrite length_take, length_drop. unwrap. lia.
      * split; cbn [lastColumn cells]; [lia|].
        apply Forall_fmap. eapply Forall_impl; [exact Hrows|].
        intros r Hr. cbn in *. unfold Content.removeColumnOfRow.
        destruct (Z.ltb_spec column 0); [lia|].
        destruct (Z.geb_spec column (len r)); cbn [orb]; [lia|].
        lia.
      * split; cbn [lastColumn cells]; [lia|].
        apply Forall_fmap. eapply Forall_impl; [exact Hrows|].
        intros r Hr. cbn in *. unfold Content.removeColumnOfRow.
        destruct (Z.ltb_spec column 0); [|lia]. cbn [orb]. lia.
      * split; cbn [lastColumn cells]; [lia|].
        apply Forall_fmap. eapply Forall_impl; [exact Hrows|].
        intros r Hr. cbn in *. unfold Content.removeColumnOfRow.
        destruct (Z.ltb_spec column 0); [|lia]. cbn [orb]. lia.
    + intros row c' Hfits Hret.
      destruct (Z.lt_ge_cases row 0) as [Hneg|Hnn].
      { rewrite InsertRow_negative in Hret by assumption. discriminate. }
      destruct (Z.lt_ge_cases row (len (cells c))) as [Hin|Hout].
      * rewrite InsertRow_in_range in Hret by (auto; lia).
        injection Hret as <-.
        split; cbn [lastColumn cells]; [lia|].
        apply Forall_app. split; [apply Forall_take; exact Hrows|].
        constructor; [change (len []) with 0; lia|].
        apply Forall_drop. exact Hrows.
      * rewrite InsertRow_beyond in Hret by lia. injection Hret as <-.
        split; auto.
    + intros row column cell Hget.
      apply GetCell_Some in Hget as (Hr & Hk & r & Hrow & Hlen & _).
      pose proof (lookup_lt_Some _ _ _ Hrow) as Hlt.
      pose proof (Forall_lookup_1 _ _ _ _ Hrows Hrow) as Hw. cbn in Hw.
      unfold Content.GetRowCount, Content.GetColumnCount, len in *.
      destruct (Z.eqb_spec (Z.of_nat (length (cells c))) 0); [lia|].
      unwrap. lia.
Qed.

Lemma withinColumns_kept_witness :
  let c := {| cells := [[textCell "a" 1; textCell "b" 1]]; lastColumn := 1 |} in
  withinColumns c
  /\ (forall allocates row column cell shared c',
         row < GoInt.max_int -> column < GoInt.max_int ->
         Content.SetCell plainWidth allocates c row column cell shared
         = Returned c' ->
         withinColumns c')
  /\ (forall row, withinColumns (state_of (Content.RemoveRow c row)))
  /\ (forall column,
         withinColumns (state_of (Content.RemoveColumn c column)))
  /\ (forall row c',
         fits (cells c) ->
         Content.InsertRow c row = Returned c' -> withinColumns c')
  /\ (forall row column cell,
         Content.GetCell c row column = Some cell ->
         0 <= row < Content.GetRowCount c
         /\ 0 <= column < Content.GetColumnCount c).
Proof.
  intros c.
  assert (H : withinColumns c).
  { split; [split; [discriminate | reflexivity]|].
    repeat constructor. discriminate. }
  split; [exact H|].
  exact (proj2 (proj2 (withinColumns_kept plainWidth c)) H).
Defined.

Lemma lookup_without {A} (l : list A) (i j : nat) :
  (take i l ++ drop (S i) l) !! j = l !! (if decide (j < i)%nat then j else S j).
Proof.
  rewrite <- delete_take_drop.
  destruct (decide (j < i)%nat).
  - apply list_lookup_delete_lt. assumption.
  - apply list_lookup_delete_ge. lia.
Qed.

Lemma lookup_with {A} (l : list A) (x : A) (i j : nat) :
  (i <= length l)%nat ->
  (take i l ++ x :: drop i l) !! j
  = if decide (j < i)%nat then l !! j
    else if decide (j = i) then Some x else l !! (j - 1)%nat.
Proof.
  intros Hi.
  destruct (decide (j < i)%nat).
  - rewrite lookup_app_l by (rewrite length_take; lia).
    apply lookup_take_lt. assumption.
  - rewrite lookup_app_r by (rewrite length_take; lia).
    rewrite length_take. replace (i `min` length l)%nat with i by lia.
    destruct (decide (j = i)) as [->|Hne].
    + rewrite Nat.sub_diag. reflexivity.
    + replace (j - i)%nat with (S (j - i - 1)) by lia.
      change ((x :: drop i l) !! S (j - i - 1)) with (drop i l !! (j - i - 1)%nat).
      rewrite lookup_drop. f_equal. lia.
Qed.

(** X6.  [RemoveRow] of a row of the store returns one row less; the
    rows below the removed one move up by one, the rows above it stay,
    and the last column is not touched. *)
Theorem RemoveRow_shifts_rows (c : tableDefaultContent) (row : Z) :
  fits (cells c) -> 0 <= row < Content.GetRowCount c ->
  exists c',
    Content.RemoveRow c row = Returned c'
    /\ Content.GetRowCount c' = Content.GetRowCount c - 1
    /\ lastColumn c' = lastColumn c
    /\ forall r k,
         Content.GetCell c' r k
         = Content.GetCell c (if r <? row then r else r + 1) k.
Proof.
  intros Hfits Hrow. unfold Content.GetRowCount in Hrow. int_hyps.
  unfold Content.RemoveRow.
  destruct (Z.ltb_spec row 0); [lia|].
  destruct (Z.geb_spec row (len (cells c))); [lia|]. cbn [orb].
  eexists. split; [reflexivity|]. unwrap.
  replace (Z.to_nat (row + 1)) with (S (Z.to_nat row)) by lia.
  split; [|split; [reflexivity|]].
  - unfold Content.GetRowCount, len in *. cbn [cells].
    rewrite length_app, length_take, length_drop. lia.
  - intros r k. rewrite !GetCell_lookup. cbn [cells].
    destruct (Z.ltb_spec r 0) as [Hr|Hr].
    { destruct (Z.ltb_spec r row); [|lia].
      destruct (Z.ltb_spec r 0); [|lia]. reflexivity. }
    destruct (Z.ltb_spec (if r <? row then r else r + 1) 0) as [Hr'|Hr'].
    { destruct (Z.ltb_spec r row); lia. }
    cbn [orb]. destruct (k <? 0); [reflexivity|].
    rewrite lookup_without. do 2 f_equal.
    destruct (Z.ltb_spec r row), (decide (Z.to_nat r < Z.to_nat row)%nat);
      lia.
Qed.

Lemma RemoveRow_shifts_rows_witness :
  let c := {| cells := [[textCell "a" 1]; [textCell "b" 1]]; lastColumn := 0 |} in
  exists c',
    Content.RemoveRow c 0 = Returned c'
    /\ Content.GetRowCount c' = Content.GetRowCount c - 1
    /\ lastColumn c' = lastColumn c
    /\ forall r k,
         Content.GetCell c' r k
         = Content.GetCell c (if r <? 0 then r else r + 1) k.
Proof.
  intros c. apply (RemoveRow_shifts_rows c 0).
  - reflexivity.
  - split; [discriminate | reflexivity].
Defined.

Lemma removeColumnOfRow_lookup (column : Z) (r : Row) (k : nat) :
  fits r -> 0 <= column ->
  Content.removeColumnOfRow column r !! k
  = r !! (if decide (k < Z.to_nat column)%nat then k else S k).
Proof.
  intros Hfits Hc. int_hyps. unfold Content.removeColumnOfRow.
  destruct (Z.ltb_spec column 0); [lia|].
  destruct (Z.geb_spec column (len r)) as [Hge|Hlt]; cbn [orb].
  - destruct (decide (k < Z.to_nat column)%nat); [reflexivity|].
    unfold len in Hge.
    rewrite !lookup_ge_None_2 by lia. reflexivity.
  - unwrap. replace (Z.to_nat (column + 1)) with (S (Z.to_nat column)) by lia.
    apply lookup_without.
Qed.

(** X7.  [RemoveColumn] of a column from 0 up returns; in every row the
    cells right of the removed column move left by one and the cells left
    of it stay; the number of rows is kept, and the last column goes down
    by one exactly when the removed column was not beyond it. *)
Theorem RemoveColumn_shifts_columns (c : tableDefaultContent) (column : Z) :
  Forall fits (cells c) -> GoInt.in_range (lastColumn c) -> 0 <= column ->
  exists c',
    Content.RemoveColumn c column = Returned c'
    /\ Content.GetRowCount c' = Content.GetRowCount c
    /\ lastColumn c'
       = (if column <=? lastColumn c then lastColumn c - 1 else lastColumn c)
    /\ forall r k,
         Content.GetCell c' r k
         = Content.GetCell c r (if k <? column then k else k + 1).
Proof.
  intros Hfits Hlc Hcol. int_hyps.
  exists (state_of (Content.RemoveColumn c column)).
  assert (Hcells : cells (state_of (Content.RemoveColumn c column))
                   = map (Content.removeColumnOfRow column) (cells c)).
  { unfold Content.RemoveColumn. destruct (_ && _); reflexivity. }
  split_and!.
  - unfold Content.RemoveColumn. destruct (_ && _); reflexivity.
  - unfold Content.GetRowCount, len. rewrite Hcells, length_map. reflexivity.
  - unfold Content.RemoveColumn.
    destruct (Z.geb_spec column 0); [|lia].
    destruct (Z.leb_spec column (lastColumn c)); cbn [andb state_of lastColumn];
      [unwrap|]; reflexivity.
  - intros r k. rewrite !GetCell_lookup. rewrite Hcells.
    destruct (Z.ltb_spec r 0); [reflexivity|]. cbn [orb].
    destruct (Z.ltb_spec k 0) as [Hk|Hk].
    { destruct (Z.ltb_spec k column); [|lia].
      destruct (Z.ltb_spec k 0); [|lia]. reflexivity. }
    destruct (Z.ltb_spec (if k <? column then k else k + 1) 0).
    { destruct (Z.ltb_spec k column); lia. }
    rewrite list_lookup_fmap.
    destruct (cells c !! Z.to_nat r) as [row|] eqn:E; [|reflexivity].
    cbn. rewrite removeColumnOfRow_lookup; [|
      exact (Forall_lookup_1 _ _ _ _ Hfits E) | assumption].
    do 2 f_equal.
    destruct (Z.ltb_spec k column), (decide (Z.to_nat k < Z.to_nat column)%nat);
      lia.
Qed.

Lemma RemoveColumn_shifts_columns_witness :
  let c := {| cells := [[textCell "a" 1; textCell "b" 1]]; lastColumn := 1 |} in
  exists c',
    Content.RemoveColumn c 0 = Returned c'
    /\ Content.GetRowCount c' = Content.GetRowCount c
    /\ lastColumn c'
       = (if 0 <=? lastColumn c then lastColumn c - 1 else lastColumn c)
    /\ forall r k,
         Content.GetCell c' r k
         = Content.GetCell c r (if k <? 0 then k else k + 1).
Proof.
  intros c. apply (RemoveColumn_shifts_columns c 0).
  - repeat constructor.
  - split; discriminate.
  - discriminate.
Defined.

(** X8.  [InsertRow] at a row of the store returns one row more: the
    rows from that one on move down by one, the new row holds no cell,
    and the last column is not touched. *)
Theorem InsertRow_shifts_rows (c : tableDefaultContent) (row : Z) :
  fits (cells c) -> 0 <= row < Content.GetRowCount c ->
  exists c',
    Content.InsertRow c row = Returned c'
    /\ Content.GetRowCount c' = Content.GetRowCount c + 1
    /\ lastColumn c' = lastColumn c
    /\ forall r k,
         Content.GetCell c' r k
         = if r <? row then Content.GetCell c r k
           else if r =? row then None
                else Content.GetCell c (r - 1) k.
Proof.
  intros Hfits Hrow. unfold Content.GetRowCount in *.
  eexists. split; [apply InsertRow_in_range; assumption|].
  pose proof (len_nonneg (cells c)) as Hlen. unfold len in *.
  split; [|split; [reflexivity|]].
  - cbn [cells]. rewrite length_app, length_take. cbn [length].
    rewrite length_drop. lia.
  - intros r k. rewrite !GetCell_lookup. cbn [cells].
    destruct (Z.ltb_spec r 0) as [Hr|Hr].
    { destruct (Z.ltb_spec r row); [reflexivity|lia]. }
    cbn [orb].
    destruct (Z.ltb_spec k 0) as [Hk|Hk].
    { rewrite orb_true_r. destruct (r <? row), (r =? row); reflexivity. }
    rewrite lookup_with by lia.
    destruct (Z.ltb_spec r row), (decide (Z.to_nat r < Z.to_nat row)%nat);
      try lia; [reflexivity|].
    destruct (Z.eqb_spec r row), (decide (Z.to_nat r = Z.to_nat row));
      try lia; [reflexivity|].
    destruct (Z.ltb_spec (r - 1) 0); [lia|]. cbn [orb].
    replace (Z.to_nat (r - 1)) with (Z.to_nat r - 1)%nat by lia. reflexivity.
Qed.

Lemma InsertRow_shifts_rows_witness :
  let c := {| cells := [[textCell "a" 1]; [textCell "b" 1]]; lastColumn := 0 |} in
  exists c',
    Content.InsertRow c 1 = Returned c'
    /\ Content.GetRowCount c' = Content.GetRowCount c + 1
    /\ lastColumn c' = lastColumn c
    /\ forall r k,
         Content.GetCell c' r k
         = if r <? 1 then Content.GetCell c r k
           else if r =? 1 then None
                else Content.GetCell c (r - 1) k.
Proof.
  intros c. apply (InsertRow_shifts_rows c 1).
  - reflexivity.
  - split; [discriminate | reflexivity].
Defined.

(** X9.  [InsertColumn] at a column from 0 up returns and touches only
    the rows that reach the column: there the cells from that column on
    move right by one and the column holds the zero cell; shorter rows
    and the number of rows are as before. *)
Theorem InsertColumn_shifts_columns (c : tableDefaultContent) (column : Z) :
  Forall fits (cells c) -> 0 <= column ->
  exists c',
    Content.InsertColumn c column = Returned c'
    /\ Content.GetRowCount c' = Content.GetRowCount c
    /\ forall r k,
         Content.GetCell c' r k
         = if column <? rowLength c r then
             if k <? column then Content.GetCell c r k
             else if k =? column then Some emptyCell
                  else Content.GetCell c r (k - 1)
           else Content.GetCell c r k.
Proof.
  intros Hfits Hcol.
  eexists. split; [apply InsertColumn_nonneg; assumption|].
  split.
  - unfold Content.GetRowCount, len. cbn [cells]. rewrite length_map.
    reflexivity.
  - intros r k. rewrite !GetCell_lookup. cbn [cells].
    destruct (Z.ltb_spec r 0) as [Hr|Hr].
    { cbn [orb]. unfold rowLength. rewrite index_neg by assumption.
      destruct (Z.ltb_spec column 0); [lia|]. reflexivity. }
    cbn [orb]. rewrite rowLength_lookup by assumption.
    rewrite list_lookup_fmap.
    destruct (cells c !! Z.to_nat r) as [row|] eqn:E; cbn.
    2:{ destruct (Z.ltb_spec column 0); [lia|].
        destruct (k <? 0); reflexivity. }
    unfold shiftedRow. pose proof (len_nonneg row) as Hlen.
    destruct (Z.ltb_spec column (len row)) as [Hin|Hout]; [|reflexivity].
    destruct (Z.ltb_spec k 0) as [Hk|Hk].
    { destruct (Z.ltb_spec k column); [reflexivity|lia]. }
    rewrite lookup_with by (unfold len in *; lia).
    destruct (Z.ltb_spec k column), (decide (Z.to_nat k < Z.to_nat column)%nat);
      try lia; [reflexivity|].
    destruct (Z.eqb_spec k column), (decide (Z.to_nat k = Z.to_nat column));
      try lia; [reflexivity|].
    destruct (Z.ltb_spec (k - 1) 0); [lia|].
    replace (Z.to_nat (k - 1)) with (Z.to_nat k - 1)%nat by lia. reflexivity.
Qed.

Lemma InsertColumn_shifts_columns_witness :
  let c := {| cells := [[textCell "a" 1; textCell "b" 1]; []];
              lastColumn := 1 |} in
  exists c',
    Content.InsertColumn c 1 = Returned c'
    /\ Content.GetRowCount c' = Content.GetRowCount c
    /\ forall r k,
         Content.GetCell c' r k
         = if 1 <? rowLength c r then
             if k <? 1 then Content.GetCell c r k
             else if k =? 1 then Some emptyCell
                  else Content.GetCell c r (k - 1)
           else Content.GetCell c r k.
Proof.
  intros c. apply (InsertColumn_shifts_columns c 1).
  - repeat constructor.
  - discriminate.
Defined.

(** ** Column widths and horizontal positions *)

(** The inner loop of [calculateColumnWidths], from any start value. *)
Lemma columnMaxWidth_fold (c : tableDefaultContent) (i : Z) (js : list Z) :
  forall a,
    let m := foldl (fun maxWidth j =>
                      match Content.GetCell c j i with
                      | Some cell => Z.max maxWidth (width cell)
                      | None => maxWidth
                      end) a js in
    a <= m
    /\ (forall j cell, j ∈ js -> Content.GetCell c j i = Some cell ->
                       width cell <= m)
    /\ (m = a \/ exists j cell, j ∈ js /\ Content.GetCell c j i = Some cell
                                /\ width cell = m).
Proof.
  induction js as [|j js IH]; intros a; cbn [foldl].
  - split; [lia|]. split; [|left; reflexivity].
    intros j cell Hj. inversion Hj.
  - set (a' := match Content.GetCell c j i with
               | Some cell => Z.max a (width cell) | None => a end).
    assert (Ha : a <= a').
    { subst a'. clear IH. destruct (Content.GetCell c j i); lia. }
    destruct (IH a') as (H1 & H2 & H3). cbv zeta.
    split; [lia|]. split.
    + intros j' cell Hj' Hcell. apply elem_of_cons in Hj' as [->|Hj'].
      * subst a'. rewrite Hcell in H1 |- *. lia.
      * eapply H2; eassumption.
    + destruct H3 as [H3|(j' & cell & Hj' & Hcell & Hw)].
      * rewrite H3. subst a'.
        destruct (Content.GetCell c j i) as [cell|] eqn:E; [|left; reflexivity].
        destruct (Z.max_spec a (width cell)) as [[_ ->]|[_ ->]].
        -- right. exists j, cell. split_and!; auto. left.
        -- left. reflexivity.
      * right. exists j', cell. split_and!; auto. right. assumption.
Qed.

Lemma len_seqZ (m n : Z) : 0 <= n -> len (seqZ m n) = n.
Proof. intros Hn. unfold len. rewrite length_seqZ. lia. Qed.

(** X10.  [calculateColumnWidths] returns one width per column, or
    panics in [make] when the column count is negative.  The width of a
    column is never negative, is at least the width of every cell the
    store holds in that column, and is the width of one of these cells
    unless it is 0. *)
Theorem calculateColumnWidths_widest_cell (t : Table) :
  let columnCount := Content.GetColumnCount (content t) in
  (columnCount < 0 -> calculateColumnWidths t = None)
  /\ (0 <= columnCount ->
      exists widths,
        calculateColumnWidths t = Some widths
        /\ len widths = columnCount
        /\ forall i, 0 <= i < columnCount ->
             exists w,
               index widths i = Some w
               /\ 0 <= w
               /\ (forall row cell,
                     Content.GetCell (content t) row i = Some cell ->
                     width cell <= w)
               /\ (w = 0
                   \/ exists row cell,
                        Content.GetCell (content t) row i = Some cell
                        /\ width cell = w)).
Proof.
  intros columnCount. unfold calculateColumnWidths. fold columnCount.
  split.
  - intros Hneg. destruct (Z.ltb_spec columnCount 0); [reflexivity|lia].
  - intros Hcc. destruct (Z.ltb_spec columnCount 0); [lia|].
    eexists. split; [reflexivity|]. split.
    + unfold len. rewrite length_map, length_seqZ. lia.
    + intros i Hi. eexists. split.
      * rewrite index_lookup by lia. rewrite list_lookup_fmap.
        rewrite lookup_seqZ_lt by lia. cbn. rewrite Z.add_0_l, Z2Nat.id by lia.
        reflexivity.
      * unfold columnMaxWidth.
        destruct (columnMaxWidth_fold (content t) i
                    (seqZ 0 (Content.GetRowCount (content t))) 0)
          as (H1 & H2 & H3).
        split; [exact H1|]. split.
        -- intros row cell Hcell. apply (H2 row cell); [|exact Hcell].
           apply GetCell_Some in Hcell as (Hr & _ & r & Hrow & _).
           apply lookup_lt_Some in Hrow.
           apply elem_of_seqZ. unfold Content.GetRowCount, len. lia.
        -- destruct H3 as [H3|(j & cell & _ & Hcell & Hw)]; [left; exact H3|].
           right. exists j, cell. auto.
Qed.

Lemma calculateColumnWidths_widest_cell_witness :
  let t := tableOf fiveColumns 10 10 in
  exists widths,
    calculateColumnWidths t = Some widths
    /\ len widths = Content.GetColumnCount (content t)
    /\ forall i, 0 <= i < Content.GetColumnCount (content t) ->
         exists w,
           index widths i = Some w
           /\ 0 <= w
           /\ (forall row cell,
                 Content.GetCell (content t) row i = Some cell ->
                 width cell <= w)
           /\ (w = 0
               \/ exists row cell,
                    Content.GetCell (content t) row i = Some cell
                    /\ width cell = w).
Proof.
  intros t.
  apply (proj2 (calculateColumnWidths_widest_cell t)). discriminate.
Defined.

#[global] Instance eq64_equivalence : Equivalence eq64.
Proof.
  split; unfold eq64; [intros x | intros x y H | intros x y z H1 H2];
    congruence.
Qed.

#[global] Instance add_eq64 : Proper (eq64 ==> eq64 ==> eq64) Z.add.
Proof.
  intros a a' Ha b b' Hb. unfold eq64 in *.
  rewrite (Z.add_mod a), (Z.add_mod a') by lia. rewrite Ha, Hb. reflexivity.
Qed.

#[global] Instance sub_eq64 : Proper (eq64 ==> eq64 ==> eq64) Z.sub.
Proof.
  intros a a' Ha b b' Hb. unfold eq64 in *.
  rewrite (Zminus_mod a), (Zminus_mod a'). rewrite Ha, Hb. reflexivity.
Qed.

Lemma wrap_eq64 (a : Z) : eq64 (GoInt.wrap a) a.
Proof.
  unfold eq64, GoInt.wrap. rewrite Zminus_mod_idemp_l. f_equal. ring.
Qed.

Lemma eq64_wrap (a b : Z) : eq64 a b -> GoInt.wrap a = GoInt.wrap b.
Proof.
  intros H. unfold GoInt.wrap. f_equal.
  change (eq64 (a + 2 ^ 63) (b + 2 ^ 63)). rewrite H. reflexivity.
Qed.

(** Proves an equation between sums and differences of [int]s that
    holds in the integers. *)
Ltac wrap_ring :=
  unfold GoInt.add, GoInt.sub; apply eq64_wrap;
  repeat setoid_rewrite wrap_eq64;
  unfold eq64; f_equal; ring.

Lemma add_assoc_i (a b c : Z) : a +i b +i c = a +i (b +i c).
Proof. wrap_ring. Qed.

Lemma add_in_range (a b : Z) : GoInt.in_range (a +i b).
Proof. apply wrap_in_range. Qed.

Lemma sumWidths_in_range (widths : list Z) : GoInt.in_range (sumWidths widths).
Proof.
  unfold sumWidths.
  induction widths as [|w ws IH] using rev_ind.
  - apply (proj2 (in_range_iff _)). cbn. lia.
  - rewrite foldl_app. cbn. apply add_in_range.
Qed.

Lemma foldl_add_from (a : Z) (widths : list Z) :
  GoInt.in_range a ->
  foldl (fun acc w => acc +i w) a widths = a +i sumWidths widths.
Proof.
  intros Ha. unfold sumWidths.
  induction widths as [|w ws IH] using rev_ind.
  - cbn. unfold GoInt.add. rewrite Z.add_0_r, wrap_id by assumption.
    reflexivity.
  - rewrite !foldl_app. cbn. rewrite IH. apply add_assoc_i.
Qed.

Lemma sumWidths_app (l k : list Z) :
  sumWidths (l ++ k) = sumWidths l +i sumWidths k.
Proof.
  unfold sumWidths at 1. rewrite foldl_app.
  apply foldl_add_from, sumWidths_in_range.
Qed.

Lemma effectiveColumnsWidth_sum (t : Table) (widths : list Z) :
  effectiveColumnsWidth t widths
  = if borders t then sumWidths widths +i len widths else sumWidths widths.
Proof. reflexivity. Qed.

(** The width of two runs of columns side by side is the sum of their
    widths, in the arithmetic of [int]. *)
Lemma effectiveColumnsWidth_app (t : Table) (l k : list Z) :
  effectiveColumnsWidth t (l ++ k)
  = effectiveColumnsWidth t l +i effectiveColumnsWidth t k.
Proof.
  rewrite !effectiveColumnsWidth_sum, sumWidths_app, len_app.
  destruct (borders t); [|reflexivity]. wrap_ring.
Qed.

Lemma effectiveColumnsWidth_in_range (t : Table) (widths : list Z) :
  GoInt.in_range (effectiveColumnsWidth t widths).
Proof.
  rewrite effectiveColumnsWidth_sum.
  destruct (borders t); [apply add_in_range | apply sumWidths_in_range].
Qed.

Lemma slice_app_one {A} (l : list A) (lo hi : Z) (x : A) :
  0 <= lo <= hi -> index l hi = Some x ->
  slice l lo (hi + 1)
  = Some (take (Z.to_nat (hi - lo)) (drop (Z.to_nat lo) l) ++ [x]).
Proof.
  intros Hlo Hx. unfold index in Hx.
  destruct (Z.leb_spec 0 hi); [|lia].
  destruct (Z.ltb_spec hi (len l)) as [Hhi|]; [|discriminate].
  cbn [andb] in Hx. unfold slice.
  destruct (Z.leb_spec 0 lo); [|lia].
  destruct (Z.leb_spec lo (hi + 1)); [|lia].
  destruct (Z.leb_spec (hi + 1) (len l)); [|lia]. cbn [andb]. f_equal.
  replace (Z.to_nat (hi + 1 - lo)) with (S (Z.to_nat (hi - lo))) by lia.
  erewrite take_S_r; [reflexivity|].
  rewrite lookup_drop. rewrite <- Hx. f_equal. lia.
Qed.

Lemma slice_value {A} (l : list A) (lo hi : Z) :
  0 <= lo <= hi -> hi <= len l ->
  slice l lo hi = Some (take (Z.to_nat (hi - lo)) (drop (Z.to_nat lo) l)).
Proof.
  intros H1 H2. unfold slice.
  destruct (Z.leb_spec 0 lo), (Z.leb_spec lo hi), (Z.leb_spec hi (len l));
    try lia. reflexivity.
Qed.

Lemma slice_None {A} (l : list A) (lo hi : Z) :
  lo < 0 \/ hi < lo \/ len l < hi -> slice l lo hi = None.
Proof.
  intros H. unfold slice.
  destruct (Z.leb_spec 0 lo), (Z.leb_spec lo hi), (Z.leb_spec hi (len l));
    try lia; reflexivity.
Qed.

Lemma index_Some_lt {A} (l : list A) (i : Z) :
  0 <= i < len l -> exists x, index l i = Some x.
Proof.
  intros Hi. rewrite index_lookup by lia.
  apply lookup_lt_is_Some_2. unfold len in Hi. lia.
Qed.

(** X11.  The span [normalColumnLeftRightPositions] gives a scrollable
    column: it returns for the columns from the first scrollable one to
    the last and panics on a slice bound for any other index.  The first
    scrollable column starts at 0; a column ends its width after its
    start, and two more with borders; the next column starts where this
    one ends, one less with borders, where the two share a border
    line. *)
Theorem normalColumnLeftRightPositions_adjacent
  (t : Table) (widths : list Z) (columnIndex : Z) :
  fits widths ->
  (0 <= fixedColumns t <= columnIndex -> columnIndex < len widths ->
   exists left_ right_ w,
     normalColumnLeftRightPositions t widths columnIndex
     = Some (left_, right_)
     /\ index widths columnIndex = Some w
     /\ right_ = left_ +i w +i (if borders t then 2 else 0)
     /\ (columnIndex = fixedColumns t -> left_ = 0)
     /\ (columnIndex + 1 < len widths ->
         exists right',
           normalColumnLeftRightPositions t widths (columnIndex + 1)
           = Some (right_ -i (if borders t then 1 else 0), right')))
  /\ (columnIndex < fixedColumns t \/ fixedColumns t < 0
      \/ len widths <= columnIndex ->
      normalColumnLeftRightPositions t widths columnIndex = None).
Proof.
  intros Hfits. int_hyps. pose proof (len_nonneg widths) as Hlen. split.
  - intros Hci Hlt.
    destruct (index_Some_lt widths columnIndex ltac:(lia)) as [w Hw].
    unfold normalColumnLeftRightPositions. unwrap.
    rewrite (slice_value widths (fixedColumns t) columnIndex) by lia.
    rewrite (slice_app_one widths (fixedColumns t) columnIndex w)
      by (auto; lia).
    cbn [mbind option_bind].
    set (l := take _ _).
    eexists _, _, w. split; [reflexivity|]. split; [exact Hw|].
    assert (Hright : (if borders t
                      then effectiveColumnsWidth t (l ++ [w]) +i 1
                      else effectiveColumnsWidth t (l ++ [w]))
                     = effectiveColumnsWidth t l +i w
                       +i (if borders t then 2 else 0)).
    { rewrite effectiveColumnsWidth_app.
      rewrite (effectiveColumnsWidth_sum t [w]).
      change (sumWidths [w]) with (0 +i w). change (len [w]) with 1.
      destruct (borders t); wrap_ring. }
    split; [exact Hright|]. split.
    + intros ->. subst l. rewrite Z.sub_diag. cbn [Z.to_nat take].
      rewrite effectiveColumnsWidth_sum. destruct (borders t); reflexivity.
    + intros Hnext.
      destruct (index_Some_lt widths (columnIndex + 1) ltac:(lia)) as [w' Hw'].
      unwrap.
      rewrite ?(slice_app_one widths (fixedColumns t) columnIndex w)
        by (auto; lia).
      rewrite (slice_app_one widths (fixedColumns t) (columnIndex + 1) w')
        by (auto; lia).
      cbn [mbind option_bind]. eexists. do 2 f_equal.
      pose proof (effectiveColumnsWidth_in_range t (l ++ [w])) as Hr.
      destruct (borders t).
      * transitivity (GoInt.wrap (effectiveColumnsWidth t (l ++ [w]))).
        -- symmetry. apply wrap_id. exact Hr.
        -- unfold GoInt.add, GoInt.sub. apply eq64_wrap.
           repeat setoid_rewrite wrap_eq64. unfold eq64. f_equal. ring.
      * unfold GoInt.sub. rewrite Z.sub_0_r. symmetry. apply wrap_id. exact Hr.
  - intros Hout. unfold normalColumnLeftRightPositions.
    destruct (slice widths (fixedColumns t) columnIndex) as [l|] eqn:E;
      [|reflexivity].
    cbn [mbind option_bind].
    assert (Hb : 0 <= fixedColumns t <= columnIndex /\ columnIndex <= len widths).
    { unfold slice in E.
      destruct (Z.leb_spec 0 (fixedColumns t)),
        (Z.leb_spec (fixedColumns t) columnIndex),
        (Z.leb_spec columnIndex (len widths)); try discriminate. lia. }
    unwrap. rewrite slice_None by lia. reflexivity.
Qed.

Lemma normalColumnLeftRightPositions_adjacent_witness :
  let t := set_borders true (tableOf fiveColumns 10 10) in
  exists left_ right_ w,
    normalColumnLeftRightPositions t [2; 3; 4; 5; 6] 1 = Some (left_, right_)
    /\ index [2; 3; 4; 5; 6] 1 = Some w
    /\ right_ = left_ +i w +i (if borders t then 2 else 0)
    /\ (1 = fixedColumns t -> left_ = 0)
    /\ (1 + 1 < len [2; 3; 4; 5; 6] ->
        exists right',
          normalColumnLeftRightPositions t [2; 3; 4; 5; 6] (1 + 1)
          = Some (right_ -i (if borders t then 1 else 0), right')).
Proof.
  intros t.
  apply (proj1 (normalColumnLeftRightPositions_adjacent t [2; 3; 4; 5; 6] 1
                  ltac:(reflexivity))).
  - split; discriminate.
  - reflexivity.
Defined.

Lemma xOffsetLoop_None (t : Table) (widths : list Z) (indices : list Z) :
  xOffsetLoop t widths None indices = None.
Proof. induction indices as [|i l IH]; [reflexivity|]. exact IH. Qed.

Lemma xOffsetLoop_fails (t : Table) (widths : list Z) (indices : list Z) :
  forall start i,
    i ∈ indices -> index widths (i +i fixedColumns t) = None ->
    xOffsetLoop t widths start indices = None.
Proof.
  induction indices as [|j l IH]; intros start i Hi Hnone.
  - inversion Hi.
  - apply elem_of_cons in Hi as [->|Hi].
    + unfold xOffsetLoop. cbn [foldl]. rewrite Hnone.
      destruct start; apply xOffsetLoop_None.
    + unfold xOffsetLoop. cbn [foldl]. eapply IH; eassumption.
Qed.

Lemma xOffsetLoop_sums (t : Table) (widths : list Z) (n : nat) :
  len widths <= GoInt.max_int -> 0 <= fixedColumns t ->
  fixedColumns t + Z.of_nat n <= len widths ->
  xOffsetLoop t widths (Some 0) (seqZ 0 (Z.of_nat n))
  = Some (sumWidths (take n (drop (Z.to_nat (fixedColumns t)) widths))).
Proof.
  rewrite max_int_eq. intros Hfits Hf. induction n as [|n IH]; intros Hn.
  - reflexivity.
  - replace (Z.of_nat (S n)) with (Z.of_nat n + 1) by lia.
    rewrite seqZ_app by lia. unfold xOffsetLoop in *.
    rewrite foldl_app, IH by lia.
    replace (seqZ (0 + Z.of_nat n) 1) with [Z.of_nat n] by reflexivity.
    cbn [foldl mbind option_bind]. unwrap.
    destruct (index_Some_lt widths (Z.of_nat n + fixedColumns t) ltac:(lia))
      as [w Hw].
    rewrite Hw. cbn [mbind option_bind]. f_equal.
    erewrite take_S_r.
    2:{ rewrite lookup_drop. rewrite index_lookup in Hw by lia.
        rewrite <- Hw. f_equal. lia. }
    rewrite sumWidths_app. change (sumWidths [w]) with (0 +i w). wrap_ring.
Qed.

(** X12.  The horizontal offset a draw uses.  With the continuous
    scroll it is [xScroll].  With a discrete column offset it is the
    width of the scrollable columns scrolled out, counted with one
    separator each whether or not the table has borders; an offset of 0
    or below (other than -1) is passed through as it is; and an offset
    that reaches beyond the last column panics on the index. *)
Theorem effectiveXOffset_scrolled_columns (t : Table) (widths : list Z) :
  fits widths -> GoInt.in_range (fixedColumns t) ->
  GoInt.in_range (columnOffset t) ->
  (columnOffset t = -1 -> effectiveXOffset t widths = Some (xScroll t))
  /\ (columnOffset t <> -1 -> columnOffset t <= 0 ->
      effectiveXOffset t widths = Some (columnOffset t))
  /\ (0 < columnOffset t -> 0 <= fixedColumns t ->
      fixedColumns t + columnOffset t <= len widths ->
      exists scrolled,
        slice widths (fixedColumns t) (fixedColumns t + columnOffset t)
        = Some scrolled
        /\ effectiveXOffset t widths
           = Some (effectiveColumnsWidth (set_borders true t) scrolled))
  /\ (0 < columnOffset t ->
      fixedColumns t < 0 \/ len widths < fixedColumns t + columnOffset t ->
      effectiveXOffset t widths = None).
Proof.
  intros Hfits Hfr Hcr. int_hyps. pose proof (len_nonneg widths) as Hlen.
  unfold effectiveXOffset.
  change (foldl _ (Some 0) ?l) with (xOffsetLoop t widths (Some 0) l).
  split_and!.
  - intros ->. reflexivity.
  - intros Hne Hle. destruct (Z.eqb_spec (columnOffset t) (-1)); [lia|].
    cbn [negb]. rewrite seqZ_nil by lia. cbn. f_equal.
    unfold GoInt.add. apply wrap_id. apply (proj2 (in_range_iff _)). lia.
  - intros Hpos Hf Hfit. destruct (Z.eqb_spec (columnOffset t) (-1)); [lia|].
    cbn [negb]. rewrite slice_value by lia. eexists. split; [reflexivity|].
    replace (columnOffset t) with (Z.of_nat (Z.to_nat (columnOffset t))) at 1
      by lia.
    rewrite xOffsetLoop_sums by (rewrite ?max_int_eq; lia).
    cbn [mbind option_bind]. f_equal.
    rewrite effectiveColumnsWidth_sum. cbn [borders set_borders].
    replace (fixedColumns t + columnOffset t - fixedColumns t)
      with (columnOffset t) by lia.
    f_equal. unfold len. rewrite length_take, length_drop.
    unfold len in *. lia.
  - intros Hpos Hout. destruct (Z.eqb_spec (columnOffset t) (-1)); [lia|].
    cbn [negb].
    destruct (Z.lt_ge_cases (fixedColumns t) 0) as [Hneg|Hnn].
    + rewrite (xOffsetLoop_fails t widths _ (Some 0) 0); [reflexivity| |].
      * apply elem_of_seqZ. lia.
      * unwrap. apply index_neg. lia.
    + rewrite (xOffsetLoop_fails t widths _ (Some 0)
                 (Z.max 0 (len widths - fixedColumns t))); [reflexivity| |].
      * apply elem_of_seqZ. lia.
      * unwrap. unfold index.
        destruct (Z.ltb_spec (Z.max 0 (len widths - fixedColumns t)
                              + fixedColumns t) (len widths)); [lia|].
        rewrite andb_false_r. reflexivity.
Qed.

Lemma effectiveXOffset_scrolled_columns_witness :
  let t := SetOffset (tableOf fiveColumns 10 10) 0 2 in
  exists scrolled,
    slice [2; 3; 4; 5; 6] (fixedColumns t) (fixedColumns t + columnOffset t)
    = Some scrolled
    /\ effectiveXOffset t [2; 3; 4; 5; 6]
       = Some (effectiveColumnsWidth (set_borders true t) scrolled).
Proof.
  intros t.
  apply (effectiveXOffset_scrolled_columns t [2; 3; 4; 5; 6]);
    first [reflexivity | discriminate | split; discriminate].
Defined.

(** ** Draws without a pending selection clamp *)

Lemma ensureValidSelectionLoop_frame (rowCount columnCount : Z) :
  forall (fuel : nat) (t t' : Table),
    ensureValidSelectionLoop fuel rowCount columnCount t = Some t' ->
    t' = reselect (selectedRow t') (selectedColumn t') t.
Proof.
  induction fuel as [|fuel IH]; intros t t' H; [discriminate|].
  cbn [ensureValidSelectionLoop] in H.
  destruct (selectedRow t <? rowCount).
  - destruct (selectableAt _ _ _).
    + injection H as <-. apply reselect_same.
    + apply IH in H. rewrite H.
      destruct (_ >? _); destruct t; reflexivity.
  - injection H as <-. apply reselect_same.
Qed.

(** [ensureValidSelection] writes the selection, and nothing else. *)
Lemma ensureValidSelection_frame (fuel : nat) (t t' : Table)
  (rowCount columnCount : Z) :
  ensureValidSelection fuel t rowCount columnCount = Some t' ->
  t' = reselect (selectedRow t') (selectedColumn t') t.
Proof.
  unfold ensureValidSelection. intros H.
  destruct (_ || _); [|injection H as <-; apply reselect_same].
  destruct (ensureValidSelectionLoop _ _ _ _) as [t1|] eqn:E; [|discriminate].
  cbn [mbind option_bind] in H. injection H as <-.
  apply ensureValidSelectionLoop_frame in E. rewrite E.
  destruct (selectedRow t <? 0); tsimpl;
    repeat (innermost_if; tsimpl); destruct t; reflexivity.
Qed.

(** The selection of a drawable table resolves. *)
Lemma ensureValidSelection_returns (t : Table) :
  drawable t ->
  exists fuel t',
    ensureValidSelection fuel t (GetRowCount t) (GetColumnCount t) = Some t'.
Proof.
  intros [_ Hsel]. unfold ensureValidSelection.
  destruct (rowsSelectable t || columnsSelectable t) eqn:E.
  2:{ exists 0%nat, t. reflexivity. }
  destruct (Hsel eq_refl) as (Hcc & Hfits & Hr & Hc).
  set (t0 := if selectedRow t <? 0 then set_selectedRow 0 t else t).
  assert (Hr0 : GoInt.in_range (selectedRow t0)).
  { subst t0. destruct (selectedRow t <? 0); tsimpl; [|exact Hr].
    apply (proj2 (in_range_iff _)). lia. }
  assert (Hc0 : GoInt.in_range (selectedColumn t0)).
  { subst t0. destruct (selectedRow t <? 0); exact Hc. }
  pose proof (evsMeasure_nonneg (GetRowCount t) (GetColumnCount t) t0 Hcc
                (GetColumnCount_in_range _) Hc0) as Hm.
  destruct (ensureValidSelectionLoop_terminates (GetRowCount t)
              (GetColumnCount t) Hcc (GetColumnCount_in_range _)
              ltac:(unfold GetRowCount, Content.GetRowCount; int_hyps;
                    rewrite max_int_eq; lia)
              (S (Z.to_nat (evsMeasure (GetRowCount t) (GetColumnCount t) t0)))
              t0 Hr0 Hc0 ltac:(lia))
    as (t' & Hrun & _).
  eexists _, _. rewrite Hrun. reflexivity.
Qed.

Lemma set_clampToSelection_same (t : Table) :
  t = set_clampToSelection (clampToSelection t) t.
Proof. destruct t; reflexivity. Qed.

Lemma clampRowOffset_flags (t : Table) (H rowCount : Z) :
  let t' := clampRowOffset t H rowCount in
  clampToSelection t' = clampToSelection t
  /\ columnOffset t' = columnOffset t /\ xScroll t' = xScroll t
  /\ box t' = box t /\ content t' = content t /\ borders t' = borders t
  /\ fixedColumns t' = fixedColumns t /\ fixedRows t' = fixedRows t
  /\ selectedRow t' = selectedRow t /\ selectedColumn t' = selectedColumn t
  /\ rowsSelectable t' = rowsSelectable t
  /\ columnsSelectable t' = columnsSelectable t
  /\ visibleRows t' = visibleRows t.
Proof.
  intros t'. subst t'. rewrite clampRowOffset_frame. split_and!; reflexivity.
Qed.

(** With no selection clamp pending, [clampOffsets] returns the row
    resolution with the horizontal offset in use clamped to its range. *)
Lemma clampOffsets_settled (t : Table) (height width rowCount columnCount : Z) :
  clampToSelection t = false ->
  (columnOffset t = -1 -> 0 <= fixedColumns t <= GetColumnCount t) ->
  exists co xs,
    clampOffsets t height width rowCount columnCount
    = Some (rehorizontal co xs
              (clampRowOffset t (screenHeightRowsOf t height) rowCount))
    /\ (columnOffset t = -1 ->
        co = -1
        /\ exists m, MaximumXOffset t = Some m
                     /\ xs = Z.max 0 (Z.min m (xScroll t)))
    /\ (columnOffset t <> -1 ->
        xs = xScroll t /\ co = clampedColumnOffset t columnCount).
Proof.
  intros Hclamp Hfix. unfold clampOffsets.
  change (if borders t then height ÷ 2 else height)
    with (screenHeightRowsOf t height).
  destruct (clampRowOffset_flags t (screenHeightRowsOf t height) rowCount)
    as (Hc & Hco & Hxs & Hbox & Hcontent & Hb & Hfc & _).
  set (t1 := clampRowOffset t _ rowCount) in *. clearbody t1.
  rewrite Hc, Hclamp. cbn [andb mbind option_bind].
  unfold clampHorizontalRange. rewrite Hco.
  destruct (Z.eqb_spec (columnOffset t) (-1)) as [Heq|Hne].
  - destruct (MaximumXOffset_Some t (Hfix Heq)) as (ws & fx & nm & _ & _ & _ & Hm).
    rewrite (MaximumXOffset_ext t1 t) by assumption. rewrite Hm.
    cbn [mbind option_bind]. tsimpl.
    eexists (-1), _. split; [|split; [|contradiction]].
    + f_equal. rewrite Hxs. clear Hm.
      destruct t1; tsimpl; subst; rewrite ?Hclamp, ?Heq; reflexivity.
    + intros _. split; [reflexivity|]. eexists. split; [reflexivity|].
      reflexivity.
  - cbn [mbind option_bind].
    exists (clampedColumnOffset t columnCount), (xScroll t).
    split; [|split; [contradiction|auto]].
    f_equal. unfold clampedColumnOffset. rewrite <- Hfc, <- Hco, <- Hxs.
    repeat (innermost_if; tsimpl); try lia;
      destruct t1; tsimpl; subst; rewrite ?Hclamp; try reflexivity; try lia.
Qed.

(** The row offset and [trackEnd] that [clampOffsets] resolves when no
    row clamp is pending. *)
Lemma clampRowOffset_settled (t : Table) (H rowCount : Z) :
  clampToSelection t && rowsSelectable t = false ->
  small H -> small rowCount -> 0 <= rowCount ->
  - 2 ^ 62 <= rowOffset t <= 2 ^ 62 ->
  let t' := clampRowOffset t H rowCount in
  if trackEnd t || (rowCount - Z.max 0 (rowOffset t) <? H)
  then rowOffset t' = Z.max 0 (rowCount - H) /\ trackEnd t' = true
  else rowOffset t' = Z.max 0 (rowOffset t) /\ trackEnd t' = false.
Proof.
  unfold small. intros Hc HH Hrc Hrc0 Hro. unfold clampRowOffset.
  rewrite Hc.
  destruct (trackEnd t) eqn:Ht; cbn [orb].
  - repeat (innermost_if; tsimpl; unwrap_all; try rewrite Ht in * );
      bool_hyps; try discriminate; split; congruence || lia.
  - destruct (Z.ltb_spec (rowCount - Z.max 0 (rowOffset t)) H);
      repeat (innermost_if; tsimpl; unwrap_all; try rewrite Ht in * );
      bool_hyps; try discriminate; split; congruence || lia.
Qed.

Lemma clampRowOffset_stages (t : Table) (H rowCount : Z) :
  (rowOffset (clampRowOffset t H rowCount),
   trackEnd (clampRowOffset t H rowCount))
  = rowOffsetInRange (rowOffset (rowClamped t H)) (trackEnd (rowClamped t H))
      H rowCount.
Proof.
  unfold clampRowOffset, rowClamped, rowOffsetInRange.
  repeat (innermost_if; tsimpl); try reflexivity; congruence.
Qed.

Lemma rowOffsetInRange_range (offset : Z) (tracking : bool) (H rowCount : Z) :
  - 2 ^ 62 - 1 <= offset <= 2 ^ 62 + 1 -> small H -> small rowCount -> 0 <= rowCount ->
  let result := rowOffsetInRange offset tracking H rowCount in
  0 <= result.1 <= Z.max 0 (rowCount - H)
  /\ (result.2 = true -> result.1 = Z.max 0 (rowCount - H))
  /\ (result.2 = false ->
      tracking = false /\ result.1 = Z.max 0 offset
      /\ H <= rowCount - result.1).
Proof.
  unfold small. intros Ho HH Hrc Hrc0. unfold rowOffsetInRange.
  destruct tracking;
    repeat (innermost_if; unwrap_all); cbn [fst snd]; bool_hyps;
    split_and!; intros; try discriminate; try reflexivity; lia.
Qed.

Lemma rowClamped_bounds (t : Table) (H : Z) :
  small H -> small (rowOffset t) -> small (selectedRow t) ->
  small (fixedRows t) ->
  - 2 ^ 62 - 1 <= rowOffset (rowClamped t H) <= 2 ^ 62 + 1.
Proof.
  unfold small, rowClamped. intros HH Hro Hs Hf.
  destruct (_ && _); [|lia].
  destruct ((selectedRow t >=? fixedRows t) && _); tsimpl; unwrap.
  - destruct (_ >=? _); tsimpl; unwrap; lia.
  - destruct (_ >=? _); tsimpl; unwrap; lia.
Qed.

(** Whatever is pending, the row offset that [clampOffsets] resolves
    lies between 0 and the offset that shows the last row at the bottom,
    and is that offset when the table tracks its end. *)
Lemma clampRowOffset_range (t : Table) (H rowCount : Z) :
  small H -> small rowCount -> 0 <= rowCount -> small (rowOffset t) ->
  small (selectedRow t) -> small (fixedRows t) ->
  let t' := clampRowOffset t H rowCount in
  0 <= rowOffset t' <= Z.max 0 (rowCount - H)
  /\ (trackEnd t' = true -> rowOffset t' = Z.max 0 (rowCount - H))
  /\ (trackEnd t' = false -> H <= rowCount - rowOffset t').
Proof.
  intros HH Hrc Hrc0 Hro Hsel Hfix t'. subst t'.
  pose proof (clampRowOffset_stages t H rowCount) as E.
  pose proof (rowOffsetInRange_range (rowOffset (rowClamped t H))
                (trackEnd (rowClamped t H)) H rowCount
                (rowClamped_bounds t H HH Hro Hsel Hfix) HH Hrc Hrc0) as R.
  cbv zeta in R. rewrite <- E in R. cbn [fst snd] in R.
  destruct R as (R1 & R2 & R3). split; [exact R1|]. split; [exact R2|].
  intros Hte. apply R3 in Hte. lia.
Qed.

Lemma effectiveXOffset_returns (t : Table) (widths : list Z) :
  len widths <= GoInt.max_int ->
  columnOffset t = -1
  \/ (0 <= columnOffset t /\ 0 <= fixedColumns t
      /\ fixedColumns t + columnOffset t <= len widths) ->
  is_Some (effectiveXOffset t widths)
  /\ (columnOffset t = 0 -> effectiveXOffset t widths = Some 0)
  /\ (columnOffset t = -1 -> effectiveXOffset t widths = Some (xScroll t)).
Proof.
  intros Hlen H. unfold effectiveXOffset.
  change (foldl _ (Some 0) ?l) with (xOffsetLoop t widths (Some 0) l).
  destruct (Z.eqb_spec (columnOffset t) (-1)) as [Heq|Hne]; cbn [negb].
  - split; [eexists; reflexivity|]. split; [lia|reflexivity].
  - destruct H as [H|(Hco & Hf & Hfit)]; [contradiction|].
    replace (columnOffset t) with (Z.of_nat (Z.to_nat (columnOffset t))) at 1 3
      by lia.
    rewrite xOffsetLoop_sums by (auto; lia).
    cbn [mbind option_bind].
    split; [eexists; reflexivity|]. split; [|contradiction].
    intros ->. reflexivity.
Qed.

Lemma clampedColumnOffset_bounds (t : Table) (columnCount : Z) :
  0 <= fixedColumns t <= columnCount -> columnCount <= GoInt.max_int ->
  0 <= clampedColumnOffset t columnCount
  /\ fixedColumns t + clampedColumnOffset t columnCount <= columnCount
  /\ (0 <= columnOffset t < columnCount - fixedColumns t ->
      clampedColumnOffset t columnCount = columnOffset t)
  /\ (columnOffset t <= 0 -> clampedColumnOffset t columnCount = 0).
Proof.
  rewrite max_int_eq. intros Hf Hcc. unfold clampedColumnOffset. unwrap.
  destruct (Z.geb_spec (columnOffset t) (columnCount - fixedColumns t)).
  - destruct (Z.ltb_spec (columnCount - fixedColumns t - 1) 0);
      split_and!; intros; lia.
  - destruct (Z.ltb_spec (columnOffset t) 0); split_and!; intros; lia.
Qed.

Lemma set_visibleRows_borders (t : Table) (height : Z) :
  (if borders t then set_visibleRows (height ÷ 2) t
   else set_visibleRows height t)
  = set_visibleRows (screenHeightRowsOf t height) t.
Proof. unfold screenHeightRowsOf. destruct (borders t); reflexivity. Qed.

Lemma calculateColumnWidths_content (t t' : Table) :
  content t = content t' ->
  calculateColumnWidths t = calculateColumnWidths t'.
Proof. intros H. unfold calculateColumnWidths. rewrite H. reflexivity. Qed.

Lemma forEach_Some {A} (xs : list A) (body : A -> option unit) :
  (forall x, x ∈ xs -> body x = Some ()) -> forEach xs body = Some ().
Proof.
  induction xs as [|x xs IH]; intros H; [reflexivity|].
  cbn [forEach]. rewrite (H x) by (apply elem_of_cons; auto).
  cbn [mbind option_bind].
  apply IH. intros y Hy. apply H. apply elem_of_cons. auto.
Qed.

Lemma columnRange_elem (startColumn columnCount i : Z) :
  0 <= startColumn -> 0 <= columnCount ->
  startColumn + columnCount <= GoInt.max_int ->
  i ∈ columnRange startColumn columnCount ->
  startColumn <= i < startColumn + columnCount.
Proof.
  rewrite max_int_eq. intros Hs Hc Hm Hi. unfold columnRange in Hi.
  unwrap_in Hi. apply elem_of_seqZ in Hi. lia.
Qed.

Lemma index_in_range {A} (l : list A) (i : Z) :
  0 <= i < len l -> is_Some (index l i).
Proof.
  intros Hi. rewrite index_lookup by lia.
  apply lookup_lt_is_Some_2. unfold len in Hi. lia.
Qed.

(** The painting of the cells reads the widths of its columns, and
    nothing else that can fail. *)
Lemma drawCellColumnRange_returns (t : Table) (rows : list Z)
  (startColumn columnCount : Z) (widths : list Z) :
  (forall i, i ∈ columnRange startColumn columnCount -> 0 <= i < len widths) ->
  is_Some (drawCellColumnRange t rows startColumn columnCount widths).
Proof.
  unfold drawCellColumnRange.
  generalize (columnRange startColumn columnCount) as l.
  intros l H. generalize 0 as acc. revert H.
  induction l as [|i l IH]; intros H acc; cbn [foldl]; [eauto|].
  cbn [mbind option_bind].
  destruct (index_in_range widths i) as [w ->];
    [apply H, elem_of_cons; auto|].
  cbn [mbind option_bind]. apply IH. intros j Hj. apply H, elem_of_cons. auto.
Qed.

(** The painting of the selection returns where every position it
    highlights holds a cell. *)
Lemma drawCellBackgroundColumnRange_returns (t : Table) (rows : list Z)
  (startColumn columnCount : Z) (widths : list Z) :
  (forall i, i ∈ columnRange startColumn columnCount -> 0 <= i < len widths) ->
  rowsSelectable t || columnsSelectable t = false
  \/ (rowsSelectable t = true
      /\ (selectedRow t ∈ rows ->
          forall i, i ∈ columnRange startColumn columnCount ->
                    is_Some (Content.GetCell (content t) (selectedRow t) i))) ->
  drawCellBackgroundColumnRange t rows startColumn columnCount widths
  = Some ().
Proof.
  intros Hw Hh. unfold drawCellBackgroundColumnRange.
  destruct Hh as [Hno|[Hrs Hcells]].
  { apply orb_false_iff in Hno as [-> ->]. reflexivity. }
  rewrite Hrs. cbn [andb].
  destruct (columnsSelectable t).
  - apply forEach_Some. intros r Hr.
    destruct (Z.eqb_spec r (selectedRow t)) as [->|]; [|reflexivity].
    apply forEach_Some. intros i Hi.
    destruct (index_in_range widths i (Hw i Hi)) as [w ->].
    cbn [mbind option_bind].
    destruct (selectedColumn t =? i); [|reflexivity].
    unfold getSelectStyleForCell.
    destruct (Hcells Hr i Hi) as [x ->]. reflexivity.
  - apply forEach_Some. intros r Hr.
    destruct (Z.eqb_spec r (selectedRow t)) as [->|]; [|reflexivity].
    apply forEach_Some. intros i Hi.
    destruct (index_in_range widths i (Hw i Hi)) as [w ->].
    cbn [mbind option_bind].
    unfold getSelectStyleForCell.
    destruct (Hcells Hr i Hi) as [x ->]. reflexivity.
Qed.

Lemma visibleRowsLoop_below (inFixed : Z -> bool)
  (rowStep height rowCount : Z) :
  forall (fuel : nat) (row tableHeight : Z) (acc : list Z),
    Forall (fun r => r < rowCount) acc ->
    Forall (fun r => r < rowCount)
      (visibleRowsLoop fuel inFixed rowStep height rowCount row tableHeight
         acc).1.
Proof.
  induction fuel as [|fuel IH]; intros row th acc Hacc;
    cbn [visibleRowsLoop]; [exact Hacc|].
  destruct (inFixed row && (row <? rowCount) && (th <? height)) eqn:Hc;
    [|exact Hacc].
  apply IH. apply Forall_app. split; [exact Hacc|].
  repeat constructor. bool_hyps. lia.
Qed.

(** The visible rows lie below the row count. *)
Lemma calculateVisibleRows_below (t : Table) (height rowCount r : Z) :
  r ∈ (calculateVisibleRows t height rowCount).1 -> r < rowCount.
Proof.
  unfold calculateVisibleRows.
  pose proof (visibleRowsLoop_below (fun row => row <? fixedRows t)
                (if borders t then 2 else 1) height rowCount
                (Z.to_nat height) 0 0 [] ltac:(constructor)) as H1.
  destruct (visibleRowsLoop _ (fun row => row <? fixedRows t) _ _ _ _ _ _)
    as [rows1 th1].
  pose proof (visibleRowsLoop_below (fun _ => true)
                (if borders t then 2 else 1) height rowCount
                (Z.to_nat height) (fixedRows t +i rowOffset t) th1 rows1 H1)
    as H2.
  destruct (visibleRowsLoop _ (fun _ => true) _ _ _ _ _ _) as [rows2 th2].
  cbn [fst] in *. intros Hr.
  exact (proj1 (Forall_forall _ _) H2 r Hr).
Qed.

Lemma ensureValidSelectionLoop_nonneg (rowCount columnCount : Z) :
  rowCount <= GoInt.max_int ->
  forall (fuel : nat) (t t' : Table),
    ensureValidSelectionLoop fuel rowCount columnCount t = Some t' ->
    0 <= selectedRow t -> 0 <= selectedRow t'.
Proof.
  rewrite max_int_eq. intros Hrc.
  induction fuel as [|fuel IH]; intros t t' H Hr; [discriminate|].
  cbn [ensureValidSelectionLoop] in H.
  destruct (Z.ltb_spec (selectedRow t) rowCount); [|injection H as <-; exact Hr].
  destruct (selectableAt _ _ _); [injection H as <-; exact Hr|].
  apply IH in H; [exact H|]. tsimpl.
  destruct (_ >? _); tsimpl; [unwrap; lia | exact Hr].
Qed.

(** With selection enabled, the selected row is not negative after
    [ensureValidSelection]. *)
Lemma ensureValidSelection_nonneg (fuel : nat) (t t' : Table)
  (rowCount columnCount : Z) :
  rowCount <= GoInt.max_int ->
  ensureValidSelection fuel t rowCount columnCount = Some t' ->
  rowsSelectable t || columnsSelectable t = true ->
  0 <= selectedRow t'.
Proof.
  intros Hrc H Hsel. unfold ensureValidSelection in H. rewrite Hsel in H.
  destruct (ensureValidSelectionLoop _ _ _ _) as [t1|] eqn:E; [|discriminate].
  cbn [mbind option_bind] in H. injection H as <-.
  apply (ensureValidSelectionLoop_nonneg _ _ Hrc) in E.
  - repeat (innermost_if; tsimpl); exact E.
  - destruct (Z.ltb_spec (selectedRow t) 0); tsimpl; lia.
Qed.

(** What [Draw] resolves when no selection clamp is pending. *)
Lemma Draw_settled (t : Table) :
  let height := innerHeight (box t) in
  let visible := screenHeightRowsOf t height in
  drawable t -> highlightable t -> clampToSelection t = false ->
  exists fuel l t1 co xs,
    (forall fuel', (fuel <= fuel')%nat -> Draw fuel' t = Some l)
    /\ ensureValidSelection fuel (set_visibleRows visible t)
         (GetRowCount t) (GetColumnCount t) = Some t1
    /\ drawn l = rehorizontal co xs (clampRowOffset t1 visible (GetRowCount t))
    /\ (columnOffset t = -1 ->
        co = -1
        /\ exists m, MaximumXOffset t = Some m
                     /\ xs = Z.max 0 (Z.min m (xScroll t)))
    /\ (columnOffset t <> -1 ->
        xs = xScroll t /\ co = clampedColumnOffset t (GetColumnCount t))
    /\ rows l = (calculateVisibleRows (drawn l) height (GetRowCount t)).1
    /\ calculateColumnWidths t = Some (columnWidths l)
    /\ effectiveXOffset (drawn l) (columnWidths l) = Some (xOffset l).
Proof.
  intros height visible Hd Hhl Hclamp.
  set (t0 := set_visibleRows visible t).
  assert (Hd0 : drawable t0) by exact Hd.
  pose proof (proj2 Hd) as Hsel.
  destruct (ensureValidSelection_returns t0 Hd0) as (fuel & t1 & Hevs).
  change (GetRowCount t0) with (GetRowCount t) in Hevs.
  change (GetColumnCount t0) with (GetColumnCount t) in Hevs.
  pose proof (ensureValidSelection_frame _ _ _ _ _ Hevs) as Hf1.
  destruct Hd as [Hfix _].
  assert (Hcc : GetColumnCount t <= GoInt.max_int).
  { pose proof (GetColumnCount_in_range (content t)) as Hr.
    unfold GoInt.in_range in Hr. unfold GetColumnCount. lia. }
  destruct (clampOffsets_settled t1 height (innerWidth (box t)) (GetRowCount t)
              (GetColumnCount t)) as (co & xs & Hco & Hcont & Hdisc).
  { rewrite Hf1. exact Hclamp. }
  { intros _. rewrite Hf1. exact Hfix. }
  assert (Hsh : screenHeightRowsOf t1 height = visible).
  { rewrite Hf1. reflexivity. }
  rewrite Hsh in Hco.
  set (t2 := rehorizontal co xs (clampRowOffset t1 visible (GetRowCount t)))
    in *.
  destruct (clampRowOffset_flags t1 visible (GetRowCount t))
    as (_ & _ & _ & Hbox & Hcontent & Hb & Hfc & _).
  assert (Hcontent2 : content t2 = content t).
  { subst t2. cbn [content rehorizontal set_xScroll set_columnOffset].
    rewrite Hcontent, Hf1. reflexivity. }
  assert (Hfc2 : fixedColumns t2 = fixedColumns t).
  { subst t2. cbn [fixedColumns rehorizontal set_xScroll set_columnOffset].
    rewrite Hfc, Hf1. reflexivity. }
  assert (Hco2 : columnOffset t2 = co) by reflexivity.
  assert (Hxs2 : xScroll t2 = xs) by reflexivity.
  destruct (calculateColumnWidths_Some t ltac:(unfold GetColumnCount in *; lia))
    as (widths & Hw & Hlen).
  assert (Hcase : co = -1
                  \/ (0 <= co /\ 0 <= fixedColumns t
                      /\ fixedColumns t + co <= len widths)).
  { destruct (Z.eq_dec (columnOffset t) (-1)) as [Heq|Hne].
    - left. apply Hcont. rewrite Hf1. exact Heq.
    - right. destruct (Hdisc ltac:(rewrite Hf1; exact Hne)) as [_ ->].
      replace (clampedColumnOffset t1 (GetColumnCount t))
        with (clampedColumnOffset t (GetColumnCount t))
        by (rewrite Hf1; reflexivity).
      pose proof (clampedColumnOffset_bounds t (GetColumnCount t) Hfix Hcc).
      unfold GetColumnCount in *. lia. }
  destruct (effectiveXOffset_returns t2 widths
              ltac:(unfold GetColumnCount in *; lia)
              ltac:(rewrite Hco2, Hfc2; exact Hcase)) as ([xo Hxo] & _).
  destruct (slice_Some widths 0 (fixedColumns t2)
              ltac:(rewrite Hfc2; lia)
              ltac:(rewrite Hfc2; unfold GetColumnCount in *; lia))
    as [fixed Hfixed].
  set (rows := (calculateVisibleRows t2 height (GetRowCount t)).1).
  assert (Hrange1 : forall i,
            i ∈ columnRange (fixedColumns t2)
                  (GetColumnCount t -i fixedColumns t2) ->
            0 <= i < len widths).
  { intros i Hi. rewrite Hfc2 in Hi. rewrite max_int_eq in Hcc.
    unwrap_in Hi. apply columnRange_elem in Hi;
      [unfold GetColumnCount in *| try rewrite max_int_eq..]; lia. }
  assert (Hrange2 : forall i,
            i ∈ columnRange 0 (fixedColumns t2) -> 0 <= i < len widths).
  { intros i Hi. rewrite Hfc2 in Hi. rewrite max_int_eq in Hcc.
    apply columnRange_elem in Hi;
      [unfold GetColumnCount in *| try rewrite max_int_eq..]; lia. }
  assert (Hhigh : forall startColumn columnCount,
            (forall i, i ∈ columnRange startColumn columnCount ->
                       0 <= i < len widths) ->
            rowsSelectable t2 || columnsSelectable t2 = false
            \/ (rowsSelectable t2 = true
                /\ (selectedRow t2 ∈ rows ->
                    forall i, i ∈ columnRange startColumn columnCount ->
                              is_Some (Content.GetCell (content t2)
                                         (selectedRow t2) i)))).
  { intros startColumn columnCount Hin.
    destruct (clampRowOffset_flags t1 visible (GetRowCount t))
      as (_ & _ & _ & _ & _ & _ & _ & _ & Hsr & _ & Hrs & Hcs & _).
    assert (Hrs2 : rowsSelectable t2 = rowsSelectable t)
      by (subst t2; unfold rehorizontal; tsimpl; rewrite Hrs, Hf1;
          reflexivity).
    assert (Hcs2 : columnsSelectable t2 = columnsSelectable t)
      by (subst t2; unfold rehorizontal; tsimpl; rewrite Hcs, Hf1;
          reflexivity).
    rewrite Hrs2, Hcs2.
    destruct Hhl as [Hno|[Hrs0 Hfull]]; [left; exact Hno|].
    right. split; [exact Hrs0|]. intros Hrow i Hi.
    rewrite Hcontent2. apply Hfull.
    - split.
      + assert (Hsr2 : selectedRow t2 = selectedRow t1)
          by (subst t2; unfold rehorizontal; tsimpl; exact Hsr).
        rewrite Hsr2.
        destruct (Hsel ltac:(rewrite Hrs0; reflexivity)) as (_ & Hfits & _).
        eapply ensureValidSelection_nonneg; [|exact Hevs|].
        * unfold GetRowCount, Content.GetRowCount. int_hyps.
          rewrite max_int_eq. lia.
        * subst t0. tsimpl. rewrite Hrs0. reflexivity.
      + eapply calculateVisibleRows_below. exact Hrow.
    - specialize (Hin i Hi). unfold GetColumnCount in *. lia. }
  destruct (drawCellColumnRange_returns t2 rows _ _ widths Hrange1)
    as [p1 Hp1].
  destruct (drawCellColumnRange_returns t2 rows _ _ widths Hrange2)
    as [p2 Hp2].
  pose proof (drawCellBackgroundColumnRange_returns t2 rows _ _ widths
                Hrange1 (Hhigh _ _ Hrange1)) as Hb1.
  pose proof (drawCellBackgroundColumnRange_returns t2 rows _ _ widths
                Hrange2 (Hhigh _ _ Hrange2)) as Hb2.
  exists fuel.
  eexists (mkLayout t2 _ widths xo _), t1, co, xs.
  split_and!.
  - intros fuel' Hle. unfold Draw. cbn [GetInnerRect].
    rewrite set_visibleRows_borders. fold height visible t0.
    change (Content.GetRowCount (content t0)) with (GetRowCount t).
    change (Content.GetColumnCount (content t0)) with (GetColumnCount t).
    rewrite (ensureValidSelection_fuel_mono _ _ _ _ _ _ Hle Hevs).
    cbn [mbind option_bind]. rewrite Hco. cbn [mbind option_bind].
    rewrite (surjective_pairing (calculateVisibleRows t2 height (GetRowCount t))).
    rewrite (calculateColumnWidths_content t2 t Hcontent2), Hw.
    cbn [mbind option_bind]. rewrite Hxo. cbn [mbind option_bind].
    rewrite Hfixed. cbn [mbind option_bind].
    fold rows. rewrite Hp1. cbn [mbind option_bind].
    rewrite Hb1, Hb2, Hp2.
    destruct (fixedColumns t2 >? 0); reflexivity.
  - exact Hevs.
  - reflexivity.
  - intros Heq.
    destruct (Hcont ltac:(rewrite Hf1; exact Heq)) as [Hc1 (m & Hm & Hx)].
    split; [exact Hc1|]. exists m. split.
    + rewrite <- Hm. apply MaximumXOffset_ext; rewrite Hf1; reflexivity.
    + rewrite Hx, Hf1. reflexivity.
  - intros Hne. destruct (Hdisc ltac:(rewrite Hf1; exact Hne)) as [Hx Hc1].
    rewrite Hx, Hc1, Hf1. split; reflexivity.
  - reflexivity.
  - exact Hw.
  - exact Hxo.
Qed.

(** Where the highlighted row lacks a cell the draw panics: two rows,
    the second one short of the second column, rows selectable and row
    1 selected.  The selection resolves, and [getSelectStyleForCell]
    then reads the style of the missing cell. *)
Lemma Draw_panics_on_a_missing_cell :
  let t := set_selectedRow 1
             (set_rowsSelectable true
                (tableOf {| cells := [[textCell "a" 1; textCell "b" 1];
                                      [textCell "c" 1]];
                            lastColumn := 1 |} 10 5)) in
  drawable t /\ clampToSelection t = false
  /\ ensureValidSelection 1 t 2 2 = Some t
  /\ Content.GetCell (content t) 1 1 = None
  /\ forall fuel, Draw fuel t = None.
Proof.
  split_and!.
  - split; [split; discriminate|]. intros _.
    split_and!; first [discriminate | reflexivity | (split; discriminate)].
  - reflexivity.
  - reflexivity.
  - reflexivity.
  - intros fuel. destruct fuel; vm_compute; reflexivity.
Qed.

(** X13.  The row offset of a draw with no selection clamp pending, on
    a table that has a cell wherever the draw highlights the selection
    (no selection enabled, or rows selectable and no position of the
    grid without a cell).  [Draw] returns, painting included, and it
    keeps the row offset, raised to 0 if it was negative, unless the
    table tracks its end or the window from that offset would reach
    beyond the last row: then the offset becomes the one that puts the
    last row at the bottom of the window, and the table tracks its end
    from then on.  Either way the offset ends between 0 and that last
    offset. *)
Theorem Draw_resolves_row_offset (t : Table) :
  let height := innerHeight (box t) in
  let visible := screenHeightRowsOf t height in
  let rowCount := GetRowCount t in
  let last := Z.max 0 (rowCount - visible) in
  drawable t -> highlightable t -> clampToSelection t = false ->
  small height -> small rowCount -> small (rowOffset t) ->
  exists fuel l,
    (forall fuel', (fuel <= fuel')%nat -> Draw fuel' t = Some l)
    /\ (if trackEnd t || (rowCount - Z.max 0 (rowOffset t) <? visible)
        then rowOffset (drawn l) = last /\ trackEnd (drawn l) = true
        else rowOffset (drawn l) = Z.max 0 (rowOffset t)
             /\ trackEnd (drawn l) = false)
    /\ 0 <= rowOffset (drawn l) <= last
    /\ clampToSelection (drawn l) = false
    /\ visibleRows (drawn l) = visible.
Proof.
  intros height visible rowCount last Hd Hhl Hclamp Hh Hrc Hro.
  destruct (Draw_settled t Hd Hhl Hclamp)
    as (fuel & l & t1 & co & xs & Hdraw & Hevs & Hdrawn & _).
  fold height visible rowCount in Hevs, Hdrawn.
  apply ensureValidSelection_frame in Hevs.
  assert (Hvis : small visible) by (apply small_screenHeightRowsOf; exact Hh).
  assert (Hrc0 : 0 <= rowCount) by apply len_nonneg.
  assert (Hro' : - 2 ^ 62 <= rowOffset t1 <= 2 ^ 62).
  { rewrite Hevs. tsimpl. unfold small in Hro. lia. }
  pose proof (clampRowOffset_settled t1 visible rowCount
                ltac:(rewrite Hevs; tsimpl; rewrite Hclamp; reflexivity)
                Hvis Hrc Hrc0 Hro') as Hrow.
  cbv zeta in Hrow.
  replace (trackEnd t1) with (trackEnd t) in Hrow by (rewrite Hevs; reflexivity).
  replace (rowOffset t1) with (rowOffset t) in Hrow
    by (rewrite Hevs; reflexivity).
  destruct (clampRowOffset_flags t1 visible rowCount)
    as (Hc1 & _ & _ & _ & _ & _ & _ & _ & _ & _ & _ & _ & Hv1).
  exists fuel, l. split; [exact Hdraw|].
  rewrite Hdrawn. unfold rehorizontal. tsimpl.
  split; [exact Hrow|]. split; [|split].
  - revert Hrow. subst last.
    destruct (trackEnd t || (rowCount - Z.max 0 (rowOffset t) <? visible))
      eqn:Hcase; intros [-> _]; bool_hyps; lia.
  - rewrite Hc1, Hevs. exact Hclamp.
  - rewrite Hv1, Hevs. reflexivity.
Qed.

(** Every position of a grid of one column holds a cell. *)
Lemma oneColumn_full (n : nat) (row column : Z) :
  0 <= row < Z.of_nat n -> column = 0 ->
  is_Some (Content.GetCell (oneColumn n) row column).
Proof.
  intros Hr ->. rewrite GetCell_cellOf by lia. unfold cellOf, oneColumn.
  cbn [cells]. rewrite lookup_replicate_2 by lia. cbn. eauto.
Qed.

(** A witness of [Draw_resolves_row_offset]: twenty rows of one column
    with rows selectable, scrolled to row 18 in a viewport of height
    5. *)
Lemma Draw_resolves_row_offset_witness :
  let t := SetOffset (set_rowsSelectable true (tableOf (oneColumn 20) 10 5))
             18 0 in
  exists fuel l,
    (forall fuel', (fuel <= fuel')%nat -> Draw fuel' t = Some l)
    /\ (if trackEnd t || (GetRowCount t - Z.max 0 (rowOffset t)
                          <? screenHeightRowsOf t (innerHeight (box t)))
        then rowOffset (drawn l)
             = Z.max 0 (GetRowCount t
                        - screenHeightRowsOf t (innerHeight (box t)))
             /\ trackEnd (drawn l) = true
        else rowOffset (drawn l) = Z.max 0 (rowOffset t)
             /\ trackEnd (drawn l) = false)
    /\ 0 <= rowOffset (drawn l)
       <= Z.max 0 (GetRowCount t - screenHeightRowsOf t (innerHeight (box t)))
    /\ clampToSelection (drawn l) = false
    /\ visibleRows (drawn l) = screenHeightRowsOf t (innerHeight (box t)).
Proof.
  intros t. apply (Draw_resolves_row_offset t).
  - split; [split; discriminate|].
    intros _. split_and!; first [discriminate | reflexivity | (split; discriminate)].
  - right. split; [reflexivity|]. intros row column Hr Hc.
    apply (oneColumn_full 20 row column); [exact Hr|].
    change (GetColumnCount t) with 1 in Hc. lia.
  - reflexivity.
  - split; discriminate.
  - split; discriminate.
  - split; discriminate.
Defined.

Lemma rowsStarted_spec (t : Table) (height k : Z) :
  0 <= height ->
  let rowStep := if borders t then 2 else 1 in
  (k * rowStep < height <-> k < rowsStarted t height)
  /\ 0 <= rowsStarted t height <= height.
Proof.
  intros Hh. unfold rowsStarted. destruct (borders t); cbv zeta; [|lia].
  pose proof (Z.div_mod (height + 1) 2 ltac:(lia)) as Hdm.
  pose proof (Z.mod_pos_bound (height + 1) 2 ltac:(lia)) as Hb.
  lia.
Qed.

(** The rows [calculateVisibleRows] returns: as many fixed rows as the
    grid has and the height lets start, then consecutive rows from
    [fixedRows + rowOffset] on, as far as the grid and the remaining
    height go. *)
Lemma calculateVisibleRows_value (t : Table) (height rowCount : Z) :
  0 <= height -> small height -> 0 <= rowCount -> small rowCount ->
  0 <= fixedRows t -> small (fixedRows t) -> small (rowOffset t) ->
  let started := rowsStarted t height in
  let k1 := Z.min (Z.min (fixedRows t) rowCount) started in
  let k2 := Z.max 0 (Z.min (rowCount - (fixedRows t + rowOffset t))
                       (started - k1)) in
  calculateVisibleRows t height rowCount
  = (seqZ 0 k1 ++ seqZ (fixedRows t + rowOffset t) k2, seqZ 0 rowCount).
Proof.
  intros Hh0 Hh Hrc0 Hrc Hf0 Hf Hro started k1 k2.
  unfold calculateVisibleRows.
  set (rowStep := if borders t then 2 else 1).
  assert (Hstep : 1 <= rowStep <= 2)
    by (subst rowStep; destruct (borders t); lia).
  assert (Hst : forall k, k * rowStep < height <-> k < started).
  { intros k. apply (rowsStarted_spec t height k Hh0). }
  pose proof (proj2 (rowsStarted_spec t height 0 Hh0)) as Hsb.
  fold started in Hsb.
  destruct (visibleRowsLoop_run (fun r => r <? fixedRows t) rowStep height
              rowCount Hstep Hh Hrc (Z.to_nat height) 0 0 []
              ltac:(int_solve) ltac:(lia))
    as (n1 & Hrun1 & Hn1 & Hall1 & Hstop1).
  rewrite Hrun1. cbn [app].
  assert (Hk1 : Z.of_nat n1 = k1).
  { subst k1. apply Z.le_antisymm.
    - destruct n1 as [|n1]; [lia|].
      destruct (Hall1 (Z.of_nat n1) ltac:(lia)) as (Ha & Hb & Hc).
      bool_hyps. rewrite Z.add_0_l in *. apply Hst in Hc. lia.
    - destruct Hstop1 as [->|Hstop1]; [lia|].
      rewrite !Z.add_0_l in Hstop1.
      apply andb_false_iff in Hstop1 as [Hstop1|Hstop1];
        [apply andb_false_iff in Hstop1 as [Hstop1|Hstop1]|]; bool_hyps;
        try lia.
      assert (~ Z.of_nat n1 < started) by (rewrite <- Hst; lia). lia. }
  unfold small in *. unwrap.
  destruct (visibleRowsLoop_run (fun _ => true) rowStep height rowCount
              Hstep ltac:(unfold small; lia) ltac:(unfold small; lia)
              (Z.to_nat height) (fixedRows t + rowOffset t)
              (0 + Z.of_nat n1 * rowStep) (seqZ 0 (Z.of_nat n1))
              ltac:(int_solve) ltac:(nia))
    as (n2 & Hrun2 & Hn2 & Hall2 & Hstop2).
  rewrite Hrun2.
  assert (Hk2 : Z.of_nat n2 = k2).
  { subst k2. rewrite <- Hk1. apply Z.le_antisymm.
    - destruct n2 as [|n2]; [lia|].
      destruct (Hall2 (Z.of_nat n2) ltac:(lia)) as (_ & Hb & Hc).
      assert (Hc' : (Z.of_nat n1 + Z.of_nat n2) * rowStep < height) by lia.
      apply Hst in Hc'. lia.
    - destruct Hstop2 as [->|Hstop2]; [lia|].
      apply andb_false_iff in Hstop2 as [Hstop2|Hstop2];
        [apply andb_false_iff in Hstop2 as [Hstop2|Hstop2]|]; bool_hyps;
        try discriminate; try lia.
      assert (~ Z.of_nat n1 + Z.of_nat n2 < started) by (rewrite <- Hst; lia).
      lia. }
  rewrite Hk1, Hk2. reflexivity.
Qed.

(** X14.  Which rows are on screen.  [calculateVisibleRows] returns the
    fixed rows first, as many as the grid has and the height lets start,
    then consecutive rows from [fixedRows + rowOffset] on, as far as the
    grid and the remaining height go; with borders a row takes two lines
    and an odd last line still starts a row.  With a row offset from 0
    up these are rows of the grid, each once; the second result lists
    all the rows. *)
Theorem calculateVisibleRows_layout (t : Table) (height rowCount : Z) :
  0 <= height -> small height -> 0 <= rowCount -> small rowCount ->
  0 <= fixedRows t -> small (fixedRows t) -> small (rowOffset t) ->
  let started := rowsStarted t height in
  let k1 := Z.min (Z.min (fixedRows t) rowCount) started in
  let k2 := Z.max 0 (Z.min (rowCount - (fixedRows t + rowOffset t))
                       (started - k1)) in
  let rows := (calculateVisibleRows t height rowCount).1 in
  calculateVisibleRows t height rowCount
  = (seqZ 0 k1 ++ seqZ (fixedRows t + rowOffset t) k2, seqZ 0 rowCount)
  /\ len rows = k1 + k2 /\ len rows <= started
  /\ (0 <= rowOffset t ->
      NoDup rows /\ Forall (fun row => 0 <= row < rowCount) rows).
Proof.
  intros Hh0 Hh Hrc0 Hrc Hf0 Hf Hro started k1 k2 rows.
  pose proof (calculateVisibleRows_value t height rowCount
                Hh0 Hh Hrc0 Hrc Hf0 Hf Hro) as Hv.
  cbv zeta in Hv. fold started k1 k2 in Hv.
  pose proof (proj2 (rowsStarted_spec t height 0 Hh0)) as Hsb.
  fold started in Hsb.
  subst rows. rewrite Hv. cbn [fst]. split; [reflexivity|].
  assert (Hk1 : 0 <= k1) by (subst k1; lia).
  assert (Hlen : len (seqZ 0 k1 ++ seqZ (fixedRows t + rowOffset t) k2)
                 = k1 + k2).
  { rewrite len_app, !len_seqZ by (subst k2; lia). reflexivity. }
  split; [exact Hlen|]. split; [rewrite Hlen; subst k1 k2; lia|].
  intros Hro0. split.
  - apply NoDup_app. split_and!; [apply NoDup_seqZ| |apply NoDup_seqZ].
    intros r Hr1 Hr2. apply elem_of_seqZ in Hr1, Hr2.
    subst k1 k2. lia.
  - apply Forall_app. split; apply Forall_forall; intros r Hr;
      apply elem_of_seqZ in Hr; subst k1 k2; lia.
Qed.

Lemma calculateVisibleRows_layout_witness :
  let t := SetOffset (SetFixed (SetBorders (tableOf (oneColumn 20) 10 7) true)
                        1 0) 3 0 in
  let started := rowsStarted t 7 in
  let k1 := Z.min (Z.min (fixedRows t) 20) started in
  let k2 := Z.max 0 (Z.min (20 - (fixedRows t + rowOffset t))
                       (started - k1)) in
  let rows := (calculateVisibleRows t 7 20).1 in
  calculateVisibleRows t 7 20
  = (seqZ 0 k1 ++ seqZ (fixedRows t + rowOffset t) k2, seqZ 0 20)
  /\ len rows = k1 + k2 /\ len rows <= started
  /\ (0 <= rowOffset t ->
      NoDup rows /\ Forall (fun row => 0 <= row < 20) rows).
Proof.
  intros t.
  apply (calculateVisibleRows_layout t 7 20);
    first [discriminate | split; discriminate].
Defined.

Lemma last_seqZ (m n : Z) : 0 < n -> last (seqZ m n) = Some (m + n - 1).
Proof.
  intros Hn. replace n with ((n - 1) + 1) by lia.
  rewrite seqZ_app by lia.
  replace (seqZ (m + (n - 1)) 1) with [m + (n - 1)] by reflexivity.
  rewrite last_snoc. f_equal. lia.
Qed.

(** A table that tracks its end and has no selection clamp pending is
    drawn with its last row as the last visible row, where the draw
    finds the cells it highlights. *)
Lemma Draw_tracking_end (t : Table) :
  let height := innerHeight (box t) in
  let visible := screenHeightRowsOf t height in
  let rowCount := GetRowCount t in
  drawable t -> highlightable t ->
  clampToSelection t = false -> trackEnd t = true ->
  small height -> small rowCount -> small (rowOffset t) ->
  0 <= fixedRows t < visible -> 1 <= rowCount ->
  exists fuel l,
    (forall fuel', (fuel <= fuel')%nat -> Draw fuel' t = Some l)
    /\ last (rows l) = Some (rowCount - 1)
    /\ rowOffset (drawn l) = Z.max 0 (rowCount - visible)
    /\ trackEnd (drawn l) = true
    /\ clampToSelection (drawn l) = false
    /\ box (drawn l) = box t /\ borders (drawn l) = borders t
    /\ fixedRows (drawn l) = fixedRows t.
Proof.
  intros height visible rowCount Hd Hhl Hclamp Hte Hh Hrc Hro Hfix Hrc1.
  destruct (Draw_settled t Hd Hhl Hclamp)
    as (fuel & l & t1 & co & xs & Hdraw & Hevs & Hdrawn & _ & _ & Hrows & _).
  fold height visible rowCount in Hevs, Hdrawn, Hrows.
  apply ensureValidSelection_frame in Hevs.
  assert (Hvis : small visible) by (apply small_screenHeightRowsOf; exact Hh).
  assert (Hro' : - 2 ^ 62 <= rowOffset t1 <= 2 ^ 62).
  { rewrite Hevs. tsimpl. unfold small in Hro. lia. }
  pose proof (clampRowOffset_settled t1 visible rowCount
                ltac:(rewrite Hevs; tsimpl; rewrite Hclamp; reflexivity)
                Hvis Hrc ltac:(lia) Hro') as Hrow.
  cbv zeta in Hrow.
  replace (trackEnd t1) with true in Hrow by (rewrite Hevs; tsimpl; congruence).
  cbn [orb] in Hrow. destruct Hrow as [Hr1 Hr2].
  destruct (clampRowOffset_flags t1 visible rowCount)
    as (Hc1 & _ & _ & Hbox & _ & Hb & _ & Hfr & _).
  assert (Hbox2 : box (drawn l) = box t)
    by (rewrite Hdrawn; unfold rehorizontal; tsimpl; rewrite Hbox, Hevs;
        reflexivity).
  assert (Hb2 : borders (drawn l) = borders t)
    by (rewrite Hdrawn; unfold rehorizontal; tsimpl; rewrite Hb, Hevs;
        reflexivity).
  assert (Hfr2 : fixedRows (drawn l) = fixedRows t)
    by (rewrite Hdrawn; unfold rehorizontal; tsimpl; rewrite Hfr, Hevs;
        reflexivity).
  assert (Hro2 : rowOffset (drawn l) = Z.max 0 (rowCount - visible))
    by (rewrite Hdrawn; unfold rehorizontal; tsimpl; exact Hr1).
  exists fuel, l. split; [exact Hdraw|]. split_and!; auto.
  - assert (Hh0 : 0 <= height).
    { subst visible. unfold screenHeightRowsOf in Hfix.
      destruct (borders t); [|lia].
      pose proof (quot_2_bounds height ltac:(lia)). lia. }
    assert (Hvs : visible <= rowsStarted t height).
    { subst visible. unfold screenHeightRowsOf, rowsStarted.
      destruct (borders t); [|lia].
      rewrite Z.quot_div_nonneg by lia.
      pose proof (Z.div_le_mono height (height + 1) 2 ltac:(lia) ltac:(lia)).
      lia. }
    rewrite Hrows.
    rewrite (calculateVisibleRows_value (drawn l) height rowCount Hh0 Hh
               ltac:(lia) Hrc ltac:(rewrite Hfr2; lia)
               ltac:(rewrite Hfr2; unfold small in *; lia)
               ltac:(rewrite Hro2; unfold small in *; lia)).
    cbn [fst]. rewrite Hfr2, Hro2.
    replace (rowsStarted (drawn l) height) with (rowsStarted t height)
      by (unfold rowsStarted; rewrite Hb2; reflexivity).
    set (started := rowsStarted t height) in *.
    set (k1 := Z.min (Z.min (fixedRows t) rowCount) started).
    set (k2 := Z.max 0 (Z.min _ _)).
    destruct (Z.le_gt_cases rowCount (fixedRows t)) as [Hle|Hgt].
    + assert (Hk2 : k2 = 0) by (subst k2 k1; lia).
      assert (Hk1 : k1 = rowCount) by (subst k1; lia).
      rewrite Hk2, Hk1, (seqZ_nil _ 0), app_nil_r by lia.
      rewrite last_seqZ by lia. reflexivity.
    + assert (Hk2 : 0 < k2) by (subst k2 k1; lia).
      rewrite last_app, last_seqZ by lia. f_equal. subst k2 k1. lia.
  - rewrite Hdrawn. unfold rehorizontal. tsimpl. exact Hr2.
  - rewrite Hdrawn. unfold rehorizontal. tsimpl. rewrite Hc1, Hevs.
    exact Hclamp.
Qed.

(** X15.  [ScrollToEnd] shows the end and keeps showing it.  With no
    selection clamp pending, on a table that has a cell wherever the
    draw highlights the selection, the draw after [ScrollToEnd] returns
    with the last row of the table as the last visible row; and
    whatever content the table is given afterwards, if it again has the
    cells that are highlighted, the next draw again ends on the last
    row. *)
Theorem ScrollToEnd_follows_last_row (t : Table) :
  let height := innerHeight (box t) in
  let visible := screenHeightRowsOf t height in
  drawable t -> highlightable t -> clampToSelection t = false ->
  small height -> small (GetRowCount t) ->
  0 <= fixedRows t < visible -> 1 <= GetRowCount t ->
  exists fuel l,
    (forall fuel', (fuel <= fuel')%nat -> Draw fuel' (ScrollToEnd t) = Some l)
    /\ last (rows l) = Some (GetRowCount t - 1)
    /\ rowOffset (drawn l) = Z.max 0 (GetRowCount t - visible)
    /\ forall content',
         let grown := set_content content' (drawn l) in
         drawable grown -> highlightable grown ->
         small (GetRowCount grown) ->
         1 <= GetRowCount grown ->
         exists fuel2 l2,
           (forall fuel', (fuel2 <= fuel')%nat -> Draw fuel' grown = Some l2)
           /\ last (rows l2) = Some (GetRowCount grown - 1).
Proof.
  intros height visible Hd Hhl Hclamp Hh Hrc Hfix Hrc1.
  destruct (Draw_tracking_end (ScrollToEnd t) Hd Hhl Hclamp eq_refl Hh Hrc Hrc
              Hfix Hrc1)
    as (fuel & l & Hdraw & Hlast & Hro & Hte & Hc & Hbox & Hb & Hfr).
  change (rowOffset (drawn l) = Z.max 0 (GetRowCount t - visible)) in Hro.
  change (box (drawn l) = box t) in Hbox.
  change (borders (drawn l) = borders t) in Hb.
  change (fixedRows (drawn l) = fixedRows t) in Hfr.
  exists fuel, l. split; [exact Hdraw|]. split; [exact Hlast|].
  split; [exact Hro|].
  intros content' grown Hdg Hhlg Hrcg Hrcg1.
  assert (Hvis : screenHeightRowsOf grown (innerHeight (box grown)) = visible).
  { subst grown visible height. unfold screenHeightRowsOf. tsimpl.
    rewrite Hbox, Hb. reflexivity. }
  destruct (Draw_tracking_end grown Hdg Hhlg Hc Hte
              ltac:(subst grown; tsimpl; rewrite Hbox; exact Hh) Hrcg
              ltac:(subst grown; tsimpl; rewrite Hro;
                    pose proof (small_screenHeightRowsOf t height Hh) as Hsv;
                    fold visible in Hsv;
                    pose proof (len_nonneg (cells (content t))) as Hrc0;
                    change (len (cells (content t))) with (GetRowCount t)
                      in Hrc0;
                    unfold small in *; lia)
              ltac:(rewrite Hvis; subst grown; tsimpl; rewrite Hfr; exact Hfix)
              Hrcg1)
    as (fuel2 & l2 & Hdraw2 & Hlast2 & _).
  exists fuel2, l2. split; [exact Hdraw2 | exact Hlast2].
Qed.

Lemma ScrollToEnd_follows_last_row_witness :
  let t := tableOf (oneColumn 20) 10 5 in
  exists fuel l,
    (forall fuel', (fuel <= fuel')%nat -> Draw fuel' (ScrollToEnd t) = Some l)
    /\ last (rows l) = Some (GetRowCount t - 1)
    /\ rowOffset (drawn l)
       = Z.max 0 (GetRowCount t - screenHeightRowsOf t (innerHeight (box t)))
    /\ forall content',
         let grown := set_content content' (drawn l) in
         drawable grown -> highlightable grown ->
         small (GetRowCount grown) ->
         1 <= GetRowCount grown ->
         exists fuel2 l2,
           (forall fuel', (fuel2 <= fuel')%nat -> Draw fuel' grown = Some l2)
           /\ last (rows l2) = Some (GetRowCount grown - 1).
Proof.
  intros t. apply (ScrollToEnd_follows_last_row t).
  - split; [split; discriminate | discriminate].
  - left. reflexivity.
  - reflexivity.
  - split; discriminate.
  - split; discriminate.
  - split; [discriminate | reflexivity].
  - discriminate.
Defined.

Lemma ScrollToBeginning_value (t : Table) :
  ScrollToBeginning t
  = set_rowOffset 0
      (set_xScroll 0
         (set_columnOffset (if columnOffset t =? -1 then -1 else 0)
            (set_trackEnd false t))).
Proof.
  unfold ScrollToBeginning. tsimpl.
  destruct (Z.eqb_spec (columnOffset t) (-1)) as [E|E]; cbn [negb];
    [|reflexivity].
  destruct t; cbn in *; subst; reflexivity.
Qed.

(** X16.  [ScrollToBeginning] shows the top left corner.  With no
    selection clamp pending, on a table that has a cell wherever the
    draw highlights the selection, the draw after it returns with a row
    offset of 0 and a horizontal offset of 0, in the scroll mode the
    table was in, and the visible rows are the first rows of the
    table. *)
Theorem ScrollToBeginning_shows_top (t : Table) :
  let height := innerHeight (box t) in
  drawable t -> highlightable t -> clampToSelection t = false ->
  0 <= height -> small height -> small (GetRowCount t) ->
  0 <= fixedRows t -> small (fixedRows t) ->
  exists fuel l,
    (forall fuel', (fuel <= fuel')%nat ->
                   Draw fuel' (ScrollToBeginning t) = Some l)
    /\ rowOffset (drawn l) = 0
    /\ xOffset l = 0
    /\ (columnOffset (drawn l) = -1 <-> columnOffset t = -1)
    /\ rows l = seqZ 0 (Z.min (GetRowCount t) (rowsStarted t height)).
Proof.
  intros height Hd Hhl Hclamp Hh0 Hh Hrc Hf0 Hf.
  rewrite ScrollToBeginning_value.
  set (t0 := set_rowOffset 0 _).
  assert (Hd0 : drawable t0) by exact Hd.
  assert (Hhl0 : highlightable t0) by exact Hhl.
  destruct (Draw_settled t0 Hd0 Hhl0 Hclamp)
    as (fuel & l & t1 & co & xs & Hdraw & Hevs & Hdrawn & Hcont & Hdisc
        & Hrows & Hw & Hxo).
  change (innerHeight (box t0)) with height in *.
  change (GetRowCount t0) with (GetRowCount t) in *.
  change (screenHeightRowsOf t0 height) with (screenHeightRowsOf t height) in *.
  set (visible := screenHeightRowsOf t height) in *.
  apply ensureValidSelection_frame in Hevs.
  assert (Hvis : small visible) by (apply small_screenHeightRowsOf; exact Hh).
  pose proof (clampRowOffset_settled t1 visible (GetRowCount t)
                ltac:(rewrite Hevs; subst t0; tsimpl; rewrite Hclamp;
                      reflexivity)
                Hvis Hrc ltac:(apply len_nonneg)
                ltac:(rewrite Hevs; cbn; lia)) as Hrow.
  cbv zeta in Hrow.
  replace (trackEnd t1) with false in Hrow by (rewrite Hevs; reflexivity).
  replace (rowOffset t1) with 0 in Hrow by (rewrite Hevs; reflexivity).
  cbn [orb] in Hrow.
  assert (Hro : rowOffset (drawn l) = 0).
  { rewrite Hdrawn. unfold rehorizontal. tsimpl.
    destruct (Z.ltb_spec (GetRowCount t - Z.max 0 0) visible);
      destruct Hrow as [-> _]; lia. }
  destruct (clampRowOffset_flags t1 visible (GetRowCount t))
    as (_ & _ & _ & _ & _ & Hb & _ & Hfr & _).
  assert (Hb2 : borders (drawn l) = borders t)
    by (rewrite Hdrawn; unfold rehorizontal; tsimpl; rewrite Hb, Hevs;
        reflexivity).
  assert (Hfr2 : fixedRows (drawn l) = fixedRows t)
    by (rewrite Hdrawn; unfold rehorizontal; tsimpl; rewrite Hfr, Hevs;
        reflexivity).
  assert (Hco2 : columnOffset (drawn l) = co)
    by (rewrite Hdrawn; reflexivity).
  assert (Hxs2 : xScroll (drawn l) = xs) by (rewrite Hdrawn; reflexivity).
  assert (Hmode : columnOffset t0 = -1 <-> columnOffset t = -1).
  { subst t0. tsimpl.
    destruct (Z.eqb_spec (columnOffset t) (-1)) as [E|Hne]; [tauto|].
    split; [discriminate|contradiction]. }
  assert (Hzero : columnOffset t0 <> -1 -> columnOffset t0 = 0).
  { subst t0. tsimpl.
    destruct (Z.eqb_spec (columnOffset t) (-1)) as [E|Hne]; tauto. }
  destruct Hd as [Hfix _].
  exists fuel, l. split; [exact Hdraw|]. split; [exact Hro|]. split_and!.
  - destruct (Z.eq_dec (columnOffset t0) (-1)) as [Heq|Hne].
    + destruct (Hcont Heq) as (Hc1 & m & Hm & Hx).
      assert (Hxo' : effectiveXOffset (drawn l) (columnWidths l)
                     = Some (xScroll (drawn l))).
      { unfold effectiveXOffset. rewrite Hco2, Hc1. reflexivity. }
      rewrite Hxo in Hxo'. injection Hxo' as ->. rewrite Hxs2, Hx.
      change (xScroll t0) with 0. lia.
    + destruct (Hdisc Hne) as (_ & Hc1).
      assert (Hcz : co = 0).
      { rewrite Hc1.
        apply (clampedColumnOffset_bounds t0 (GetColumnCount t) Hfix).
        - pose proof (GetColumnCount_in_range (content t)) as Hr.
          unfold GoInt.in_range in Hr. unfold GetColumnCount. lia.
        - rewrite (Hzero Hne). lia. }
      assert (Hxo' : effectiveXOffset (drawn l) (columnWidths l) = Some 0).
      { unfold effectiveXOffset. rewrite Hco2, Hcz. reflexivity. }
      rewrite Hxo in Hxo'. injection Hxo' as ->. reflexivity.
  - rewrite Hco2. split.
    + intros Hm1.
      destruct (Z.eq_dec (columnOffset t0) (-1)) as [Heq|Hne];
        [apply Hmode; exact Heq|].
      destruct (Hdisc Hne) as (_ & Hc1). exfalso.
      pose proof (clampedColumnOffset_bounds t0 (GetColumnCount t) Hfix
                    ltac:(pose proof (GetColumnCount_in_range (content t))
                            as Hr;
                          unfold GoInt.in_range in Hr; unfold GetColumnCount;
                          lia)) as [Hnn _].
      change (GetColumnCount t0) with (GetColumnCount t) in Hc1. lia.
    + intros Heq. apply Hmode in Heq.
      destruct (Hcont Heq) as [Hc1 _]. exact Hc1.
  - rewrite Hrows.
    rewrite (calculateVisibleRows_value (drawn l) height (GetRowCount t)
               Hh0 Hh ltac:(apply len_nonneg) Hrc
               ltac:(rewrite Hfr2; exact Hf0)
               ltac:(rewrite Hfr2; exact Hf)
               ltac:(rewrite Hro; unfold small; lia)).
    cbn [fst]. rewrite Hfr2, Hro.
    replace (rowsStarted (drawn l) height) with (rowsStarted t height)
      by (unfold rowsStarted; rewrite Hb2; reflexivity).
    pose proof (proj2 (rowsStarted_spec t height 0 Hh0)) as Hsb.
    pose proof (len_nonneg (cells (content t))) as Hrc0.
    change (len (cells (content t))) with (GetRowCount t) in Hrc0.
    set (started := rowsStarted t height) in *.
    set (k1 := Z.min (Z.min (fixedRows t) (GetRowCount t)) started).
    set (k2 := Z.max 0 (Z.min _ _)).
    rewrite Z.add_0_r.
    destruct (Z.le_gt_cases (fixedRows t) (Z.min (GetRowCount t) started))
      as [Hle|Hgt].
    + replace (seqZ (fixedRows t) k2) with (seqZ (0 + k1) k2)
        by (f_equal; subst k1; lia).
      rewrite <- seqZ_app by (subst k1 k2; lia).
      f_equal. subst k1 k2. lia.
    + assert (Hk2 : k2 = 0) by (subst k2 k1; lia).
      rewrite Hk2, (seqZ_nil _ 0), app_nil_r by lia.
      f_equal. subst k1. lia.
Qed.

Lemma ScrollToBeginning_shows_top_witness :
  let t := SetXScroll (tableOf fiveColumns 10 5) 7 in
  exists fuel l,
    (forall fuel', (fuel <= fuel')%nat ->
                   Draw fuel' (ScrollToBeginning t) = Some l)
    /\ rowOffset (drawn l) = 0
    /\ xOffset l = 0
    /\ (columnOffset (drawn l) = -1 <-> columnOffset t = -1)
    /\ rows l = seqZ 0 (Z.min (GetRowCount t)
                          (rowsStarted t (innerHeight (box t)))).
Proof.
  intros t. apply (ScrollToBeginning_shows_top t).
  - split; [split; discriminate | discriminate].
  - left. reflexivity.
  - reflexivity.
  - discriminate.
  - split; discriminate.
  - split; discriminate.
  - discriminate.
  - split; discriminate.
Defined.
